(** * korifi API: repositories and client factory

    A shallow embedding of the repository layer of the korifi API
    (package [repositories]): the domain and package repositories, the
    unprivileged client factory, and the route repository operations.

    Go values are embedded as follows.
    - [string] is [String.string]; [[]T] is [list T]; a nil slice is [[]].
    - [metav1.Time] is an instant, an integer number of seconds ([Z]);
      [Before] is the strict order on instants.
    - A Go [error] is a value of the inductive type [error]; a nil error
      is [None].
    - A Go function returning [(T, error)] returns a pair
      [T * option error]; on failure the first component is the zero
      value of [T], as in the source.
    - Functions of other packages whose code is not part of this
      repository ([pem.Decode], [client.NewWithWatch], the timestamp
      format, ...) are section variables. *)

From Stdlib Require Import ZArith List String Ascii Bool Lia DecimalString.
From Stdlib Require Import Permutation Sorted.
Import ListNotations.

Local Open Scope string_scope.
Local Open Scope list_scope.

Module repositories.

(** ** Go runtime and library values *)

Definition Time := Z.

(** [metav1.Time.Before]. *)
Definition Before (t u : Time) : bool := (t <? u)%Z.

(** [len(s) > 0] on a slice. *)
Definition nonEmpty {A : Type} (s : list A) : bool :=
  match s with
  | [] => false
  | _ :: _ => true
  end.

(** [metav1.StatusReason] is a string type. *)
Definition StatusReason := string.
Definition StatusReasonNotFound : StatusReason := "NotFound".
Definition StatusReasonUnauthorized : StatusReason := "Unauthorized".
Definition StatusReasonAlreadyExists : StatusReason := "AlreadyExists".
Definition StatusReasonConflict : StatusReason := "Conflict".

(** The dynamic types of the errors that the repository layer creates or
    receives.  [errorString] is what [errors.New] and [fmt.Errorf]
    without a wrapping verb build, [wrapError] is [fmt.Errorf] with
    [%w], [StatusError] is [*k8serrors.StatusError]. *)
Inductive error : Type :=
| errorString (s : string)
| wrapError (s : string) (err : error)
| StatusError (reason : StatusReason) (message : string)
| PermissionDeniedOrNotFoundError (Err : option error) (ResourceType : string)
| NotAuthenticatedError (cause : error).

(** The error kinds that callers tell apart by a type switch on the
    error ([case repositories.PermissionDeniedOrNotFoundError:]); every
    error of another dynamic type falls in the default branch. *)
Inductive ErrorKind : Type :=
| PermissionDeniedOrNotFound
| NotAuthenticated
| Unknown.

Definition errorKind (e : error) : ErrorKind :=
  match e with
  | PermissionDeniedOrNotFoundError _ _ => PermissionDeniedOrNotFound
  | NotAuthenticatedError _ => NotAuthenticated
  | errorString _ | wrapError _ _ | StatusError _ _ => Unknown
  end.

(** [errors.New]. *)
Definition errors_New (s : string) : error := errorString s.

(** [apierrors.NewNotAuthenticatedError]. *)
Definition NewNotAuthenticatedError (cause : error) : error :=
  NotAuthenticatedError cause.

(** *** [sort.Slice]

    [sort.Slice] sorts in place with the comparison [less].  On a slice
    of fewer than seven elements every version of the Go library runs
    [insertionSort_func] alone:
<<
    for i := a + 1; i < b; i++ {
        for j := i; j > a && data.Less(j, j-1); j-- {
            data.Swap(j, j-1)
        }
    }
>>
    The embedding runs this insertion sort on slices of every length.
    [siftDown less x revp] is the inner loop: [revp] is the already processed prefix, last element first,
    and [x] moves towards the front while it is [less] than its left
    neighbour. *)
Fixpoint siftDown {A : Type} (less : A -> A -> bool) (x : A) (revp : list A)
  : list A :=
  match revp with
  | [] => [x]
  | y :: r => if less x y then y :: siftDown less x r else x :: revp
  end.

Definition insertionSort_func {A : Type} (less : A -> A -> bool) (data : list A)
  : list A :=
  rev (fold_left (fun revp x => siftDown less x revp) data []).

Definition sort_Slice {A : Type} (x : list A) (less : A -> A -> bool) : list A :=
  insertionSort_func less x.

(** ** Store objects *)

(** [metav1.ObjectMeta], the fields this layer reads. *)
Record ObjectMeta : Type := {
  ObjectMeta_Name : string;
  ObjectMeta_Namespace : string;
  ObjectMeta_UID : string;
  ObjectMeta_ResourceVersion : nat;
  ObjectMeta_CreationTimestamp : Time
}.

Record LocalObjectReference : Type := {
  LocalObjectReference_Name : string
}.

Record NamespacedName : Type := {
  NamespacedName_Namespace : string;
  NamespacedName_Name : string
}.

(** [networkingv1alpha1.CFDomain]. *)
Record CFDomainSpec : Type := {
  CFDomainSpec_Name : string
}.

Record CFDomain : Type := {
  CFDomain_ObjectMeta : ObjectMeta;
  CFDomain_Spec : CFDomainSpec
}.

(** [workloadsv1alpha1.CFPackage]. *)
Record Registry : Type := {
  Registry_Image : string;
  Registry_ImagePullSecrets : list LocalObjectReference
}.

Record PackageSource : Type := {
  PackageSource_Registry : Registry
}.

Record CFPackageSpec : Type := {
  CFPackageSpec_Type : string;
  CFPackageSpec_AppRef : LocalObjectReference;
  CFPackageSpec_Source : PackageSource
}.

Record CFPackage : Type := {
  CFPackage_ObjectMeta : ObjectMeta;
  CFPackage_Spec : CFPackageSpec
}.

(** [networkingv1alpha1.CFRoute]. *)
Record Destination : Type := {
  Destination_GUID : string;
  Destination_Port : Z;
  Destination_AppRef : LocalObjectReference;
  Destination_ProcessType : string;
  Destination_Protocol : string
}.

Record CFRouteSpec : Type := {
  CFRouteSpec_Host : string;
  CFRouteSpec_Path : string;
  CFRouteSpec_Protocol : string;
  CFRouteSpec_DomainRef : LocalObjectReference;
  CFRouteSpec_Destinations : list Destination
}.

Record CFRoute : Type := {
  CFRoute_ObjectMeta : ObjectMeta;
  CFRoute_Spec : CFRouteSpec
}.

(** [client.Client], the calls the domain and package repositories
    make.  A call either yields the object(s) or fails with an error. *)
Record Client : Type := {
  Client_GetCFDomain : NamespacedName -> CFDomain + error;
  Client_ListCFDomain : list CFDomain + error;
  Client_ListCFPackage : list CFPackage + error
}.

(** [authorization.Info]. *)
Record Info : Type := {
  Info_Token : string;
  Info_CertData : list Byte.byte
}.

(** ** Records and messages of package [repositories] *)

Record DomainRecord : Type := {
  DomainRecord_Name : string;
  DomainRecord_GUID : string;
  DomainRecord_Labels : list (string * string);
  DomainRecord_Annotations : list (string * string);
  DomainRecord_CreatedAt : string;
  DomainRecord_UpdatedAt : string
}.

Definition DomainRecord_zero : DomainRecord :=
  {| DomainRecord_Name := ""; DomainRecord_GUID := "";
     DomainRecord_Labels := []; DomainRecord_Annotations := [];
     DomainRecord_CreatedAt := ""; DomainRecord_UpdatedAt := "" |}.

Record ListDomainsMessage : Type := {
  ListDomainsMessage_Names : list string
}.

Record DomainRepo : Type := {
  DomainRepo_privilegedClient : Client
}.

Definition NewDomainRepo (privilegedClient : Client) : DomainRepo :=
  {| DomainRepo_privilegedClient := privilegedClient |}.

Definition PackageStateAwaitingUpload : string := "AWAITING_UPLOAD".
Definition PackageStateReady : string := "READY".

Record PackageRecord : Type := {
  PackageRecord_GUID : string;
  PackageRecord_UID : string;
  PackageRecord_Type : string;
  PackageRecord_AppGUID : string;
  PackageRecord_SpaceGUID : string;
  PackageRecord_State : string;
  PackageRecord_CreatedAt : string;
  PackageRecord_UpdatedAt : string
}.

Definition PackageRecord_zero : PackageRecord :=
  {| PackageRecord_GUID := ""; PackageRecord_UID := "";
     PackageRecord_Type := ""; PackageRecord_AppGUID := "";
     PackageRecord_SpaceGUID := ""; PackageRecord_State := "";
     PackageRecord_CreatedAt := ""; PackageRecord_UpdatedAt := "" |}.

Record ListPackagesMessage : Type := {
  ListPackagesMessage_AppGUIDs : list string;
  ListPackagesMessage_SortBy : string;
  ListPackagesMessage_DescendingOrder : bool;
  ListPackagesMessage_States : list string
}.

Record PackageRepo : Type := {
  PackageRepo_privilegedClient : Client
}.

Definition NewPackageRepo (privilegedClient : Client) : PackageRepo :=
  {| PackageRepo_privilegedClient := privilegedClient |}.

(** ** Ordering and filtering of store objects *)

Definition applyDomainListFilterAndOrder
  (domainList : list CFDomain) (message : ListDomainsMessage) : list CFDomain :=
  let filtered :=
    if nonEmpty (ListDomainsMessage_Names message) then
      flat_map
        (fun domain =>
           flat_map
             (fun name =>
                if CFDomainSpec_Name (CFDomain_Spec domain) =? name
                then [domain] else [])
             (ListDomainsMessage_Names message))
        domainList
    else domainList in
  sort_Slice filtered
    (fun di dj =>
       Before (ObjectMeta_CreationTimestamp (CFDomain_ObjectMeta di))
              (ObjectMeta_CreationTimestamp (CFDomain_ObjectMeta dj))).

Definition orderPackages
  (packages : list CFPackage) (message : ListPackagesMessage) : list CFPackage :=
  sort_Slice packages
    (fun pi pj =>
       if (ListPackagesMessage_SortBy message =? "created_at")
          && ListPackagesMessage_DescendingOrder message
       then negb (Before (ObjectMeta_CreationTimestamp (CFPackage_ObjectMeta pi))
                         (ObjectMeta_CreationTimestamp (CFPackage_ObjectMeta pj)))
       else Before (ObjectMeta_CreationTimestamp (CFPackage_ObjectMeta pi))
                   (ObjectMeta_CreationTimestamp (CFPackage_ObjectMeta pj))).

(** The inner loops of [applyPackageFilter] stop at the first match
    ([break]), so a package is kept once, when some entry of the filter
    equals its field. *)
Definition applyPackageFilter
  (packages : list PackageRecord) (message : ListPackagesMessage)
  : list PackageRecord :=
  let appFiltered :=
    if nonEmpty (ListPackagesMessage_AppGUIDs message) then
      filter
        (fun currentPackage =>
           existsb (fun appGUID => PackageRecord_AppGUID currentPackage =? appGUID)
                   (ListPackagesMessage_AppGUIDs message))
        packages
    else packages in
  let stateFiltered :=
    if nonEmpty (ListPackagesMessage_States message) then
      filter
        (fun currentPackage =>
           existsb (fun state => PackageRecord_State currentPackage =? state)
                   (ListPackagesMessage_States message))
        appFiltered
    else appFiltered in
  stateFiltered.

Definition filterPackagesByMetadataName
  (packages : list CFPackage) (name : string) : list CFPackage :=
  filter (fun app => ObjectMeta_Name (CFPackage_ObjectMeta app) =? name) packages.

(** ** The domain and package repositories *)

Section Repositories.

(** [formatTimestamp] renders an instant in [TimestampFormat], and
    [getTimeLastUpdatedTimestamp] reads the time of the last update
    from the object's metadata.  Both are defined in files of the
    package that are not part of this development. *)
Variable formatTimestamp : Time -> string.
Variable getTimeLastUpdatedTimestamp : ObjectMeta -> string * option error.

Definition cfDomainToDomainRecord (cfDomain : CFDomain) : DomainRecord :=
  let '(updatedAtTime, _) :=
    getTimeLastUpdatedTimestamp (CFDomain_ObjectMeta cfDomain) in
  {| DomainRecord_Name := CFDomainSpec_Name (CFDomain_Spec cfDomain);
     DomainRecord_GUID := ObjectMeta_Name (CFDomain_ObjectMeta cfDomain);
     DomainRecord_Labels := [];
     DomainRecord_Annotations := [];
     DomainRecord_CreatedAt :=
       formatTimestamp (ObjectMeta_CreationTimestamp (CFDomain_ObjectMeta cfDomain));
     DomainRecord_UpdatedAt := updatedAtTime |}.

Definition returnDomainList (domainList : list CFDomain) : list DomainRecord :=
  map cfDomainToDomainRecord domainList.

Definition GetDomain (r : DomainRepo) (authInfo : Info) (domainGUID : string)
  : DomainRecord * option error :=
  match Client_GetCFDomain (DomainRepo_privilegedClient r)
          {| NamespacedName_Namespace := ""; NamespacedName_Name := domainGUID |}
  with
  | inr err =>
      match err with
      | StatusError reason _ =>
          if (reason =? StatusReasonNotFound) || (reason =? StatusReasonUnauthorized)
          then (DomainRecord_zero,
                Some (PermissionDeniedOrNotFoundError (Some err) "Domain"))
          else (DomainRecord_zero, Some err)
      | _ => (DomainRecord_zero, Some err)
      end
  | inl domain => (cfDomainToDomainRecord domain, None)
  end.

Definition ListDomains (r : DomainRepo) (authInfo : Info)
  (message : ListDomainsMessage) : list DomainRecord * option error :=
  match Client_ListCFDomain (DomainRepo_privilegedClient r) with
  | inr err => ([], Some err)
  | inl items =>
      let filtered := applyDomainListFilterAndOrder items message in
      (returnDomainList filtered, None)
  end.

Definition GetDomainByName (r : DomainRepo) (authInfo : Info)
  (domainName : string) : DomainRecord * option error :=
  let '(domainRecords, err) :=
    ListDomains r authInfo {| ListDomainsMessage_Names := [domainName] |} in
  match err with
  | Some e => (DomainRecord_zero, Some e)
  | None =>
      match domainRecords with
      | [] => (DomainRecord_zero,
               Some (PermissionDeniedOrNotFoundError None "Domain"))
      | first :: _ => (first, None)
      end
  end.

Definition GetDefaultDomain (r : DomainRepo) (authInfo : Info)
  : DomainRecord * option error :=
  let '(domainList, err) :=
    ListDomains r authInfo {| ListDomainsMessage_Names := [] |} in
  match err with
  | Some e => (DomainRecord_zero, Some e)
  | None =>
      match domainList with
      | [] => (DomainRecord_zero,
               Some (PermissionDeniedOrNotFoundError None "Default Domain"))
      | first :: _ => (first, None)
      end
  end.

Definition cfPackageToPackageRecord (cfPackage : CFPackage) : PackageRecord :=
  let '(updatedAtTime, _) :=
    getTimeLastUpdatedTimestamp (CFPackage_ObjectMeta cfPackage) in
  let state :=
    if Registry_Image
         (PackageSource_Registry (CFPackageSpec_Source (CFPackage_Spec cfPackage)))
       =? ""
    then PackageStateAwaitingUpload
    else PackageStateReady in
  {| PackageRecord_GUID := ObjectMeta_Name (CFPackage_ObjectMeta cfPackage);
     PackageRecord_UID := ObjectMeta_UID (CFPackage_ObjectMeta cfPackage);
     PackageRecord_Type := CFPackageSpec_Type (CFPackage_Spec cfPackage);
     PackageRecord_AppGUID :=
       LocalObjectReference_Name (CFPackageSpec_AppRef (CFPackage_Spec cfPackage));
     PackageRecord_SpaceGUID := ObjectMeta_Namespace (CFPackage_ObjectMeta cfPackage);
     PackageRecord_State := state;
     PackageRecord_CreatedAt :=
       formatTimestamp (ObjectMeta_CreationTimestamp (CFPackage_ObjectMeta cfPackage));
     PackageRecord_UpdatedAt := updatedAtTime |}.

Definition convertToPackageRecords (packages : list CFPackage)
  : list PackageRecord :=
  map cfPackageToPackageRecord packages.

Definition returnPackage (packages : list CFPackage)
  : PackageRecord * option error :=
  match packages with
  | [] => (PackageRecord_zero, Some (PermissionDeniedOrNotFoundError None ""))
  | [only] => (cfPackageToPackageRecord only, None)
  | _ :: _ :: _ => (PackageRecord_zero, Some (errors_New "duplicate packages exist"))
  end.

Definition GetPackage (r : PackageRepo) (authInfo : Info) (guid : string)
  : PackageRecord * option error :=
  match Client_ListCFPackage (PackageRepo_privilegedClient r) with
  | inr err => (PackageRecord_zero, Some err)
  | inl allPackages =>
      let matches := filterPackagesByMetadataName allPackages guid in
      returnPackage matches
  end.

Definition ListPackages (r : PackageRepo) (authInfo : Info)
  (message : ListPackagesMessage) : list PackageRecord * option error :=
  match Client_ListCFPackage (PackageRepo_privilegedClient r) with
  | inr err => ([], Some err)
  | inl items =>
      let orderedPackages := orderPackages items message in
      let packageRecords := convertToPackageRecords orderedPackages in
      (applyPackageFilter packageRecords message, None)
  end.

Record UpdatePackageSourceMessage : Type := {
  UpdatePackageSourceMessage_GUID : string;
  UpdatePackageSourceMessage_SpaceGUID : string;
  UpdatePackageSourceMessage_ImageRef : string;
  UpdatePackageSourceMessage_RegistrySecretName : string
}.

(** [r.privilegedClient.Patch(ctx, cfPackage, client.MergeFrom(base))]:
    the client is sent the changed object and the base it was copied
    from, and answers with the object as the store holds it after the
    patch, or with an error. *)
Variable Client_PatchCFPackage : Client -> CFPackage -> CFPackage -> CFPackage + error.

Definition UpdatePackageSource (r : PackageRepo) (authInfo : Info)
  (message : UpdatePackageSourceMessage) : PackageRecord * option error :=
  let baseCFPackage :=
    {| CFPackage_ObjectMeta :=
         {| ObjectMeta_Name := UpdatePackageSourceMessage_GUID message;
            ObjectMeta_Namespace := UpdatePackageSourceMessage_SpaceGUID message;
            ObjectMeta_UID := "";
            ObjectMeta_ResourceVersion := 0;
            ObjectMeta_CreationTimestamp := 0%Z |};
       CFPackage_Spec :=
         {| CFPackageSpec_Type := "";
            CFPackageSpec_AppRef := {| LocalObjectReference_Name := "" |};
            CFPackageSpec_Source :=
              {| PackageSource_Registry :=
                   {| Registry_Image := "";
                      Registry_ImagePullSecrets := [] |} |} |} |} in
  let cfPackage :=
    {| CFPackage_ObjectMeta := CFPackage_ObjectMeta baseCFPackage;
       CFPackage_Spec :=
         {| CFPackageSpec_Type := CFPackageSpec_Type (CFPackage_Spec baseCFPackage);
            CFPackageSpec_AppRef := CFPackageSpec_AppRef (CFPackage_Spec baseCFPackage);
            CFPackageSpec_Source :=
              {| PackageSource_Registry :=
                   {| Registry_Image := UpdatePackageSourceMessage_ImageRef message;
                      Registry_ImagePullSecrets :=
                        [ {| LocalObjectReference_Name :=
                               UpdatePackageSourceMessage_RegistrySecretName message |} ]
                   |} |} |} |} in
  match Client_PatchCFPackage (PackageRepo_privilegedClient r) cfPackage baseCFPackage with
  | inr err => (PackageRecord_zero, Some (wrapError "err in client.Patch: %w" err))
  | inl patched => (cfPackageToPackageRecord patched, None)
  end.

End Repositories.

(** ** The client factories *)

(** [rest.Config], the fields the factories read or write. *)
Record Config : Type := {
  Config_Host : string;
  Config_BearerToken : string;
  Config_CertData : list Byte.byte;
  Config_KeyData : list Byte.byte
}.

(** [rest.CopyConfig] returns a copy; values are immutable here. *)
Definition CopyConfig (config : Config) : Config := config.

(** [rest.AnonymousClientConfig] drops the credentials of a
    configuration. *)
Definition AnonymousClientConfig (config : Config) : Config :=
  {| Config_Host := Config_Host config;
     Config_BearerToken := "";
     Config_CertData := [];
     Config_KeyData := [] |}.

(** The calls that reach the store while a client is built: constructing
    a client is the only one. *)
Inductive Call : Type :=
| Call_NewWithWatch (config : Config).

Section ClientFactory.

(** [meta.RESTMapper], [client.WithWatch] and [pem.Block]. *)
Variables RESTMapper WithWatch Block : Type.

(** [authorization.Info.Scheme] and the scheme names
    [authorization.BearerScheme] and [authorization.CertScheme]. *)
Variable Scheme : Info -> string.
Variables BearerScheme CertScheme : string.

(** [strings.ToLower], [pem.Decode], [pem.EncodeToMemory],
    [client.NewWithWatch] and [apierrors.FromK8sError]. *)
Variable ToLower : string -> string.
Variable pem_Decode : list Byte.byte -> option Block * list Byte.byte.
Variable pem_EncodeToMemory : Block -> list Byte.byte.
Variable NewWithWatch : Config -> RESTMapper -> WithWatch + error.
Variable FromK8sError : error -> string -> error.

Record UnprivilegedClientFactory : Type := {
  UnprivilegedClientFactory_config : Config;
  UnprivilegedClientFactory_mapper : RESTMapper
}.

Definition NewUnprivilegedClientFactory (config : Config) (mapper : RESTMapper)
  : UnprivilegedClientFactory :=
  {| UnprivilegedClientFactory_config := AnonymousClientConfig (CopyConfig config);
     UnprivilegedClientFactory_mapper := mapper |}.

(** The [switch] of [BuildClient]: the configuration carrying the
    caller's credentials, or the error of the branch that returns
    early. *)
Definition configureCredentials (config : Config) (authInfo : Info)
  : Config + error :=
  let scheme := ToLower (Scheme authInfo) in
  if scheme =? BearerScheme then
    inl {| Config_Host := Config_Host config;
           Config_BearerToken := Info_Token authInfo;
           Config_CertData := Config_CertData config;
           Config_KeyData := Config_KeyData config |}
  else if scheme =? CertScheme then
    let '(certBlock, rst) := pem_Decode (Info_CertData authInfo) in
    match certBlock with
    | None => inr (errorString "failed to decode cert PEM")
    | Some certBlock =>
        let '(keyBlock, _) := pem_Decode rst in
        match keyBlock with
        | None => inr (errorString "failed to decode key PEM")
        | Some keyBlock =>
            inl {| Config_Host := Config_Host config;
                   Config_BearerToken := Config_BearerToken config;
                   Config_CertData := pem_EncodeToMemory certBlock;
                   Config_KeyData := pem_EncodeToMemory keyBlock |}
        end
    end
  else
    inr (NewNotAuthenticatedError
           (errors_New "unsupported Authorization header scheme")).

(** [BuildClient] returns the client and the error, together with the
    calls it made to the store, in order. *)
Definition BuildClient (f : UnprivilegedClientFactory) (authInfo : Info)
  : (option WithWatch * option error) * list Call :=
  let config := CopyConfig (UnprivilegedClientFactory_config f) in
  match configureCredentials config authInfo with
  | inr err => ((None, Some err), [])
  | inl config =>
      match NewWithWatch config (UnprivilegedClientFactory_mapper f) with
      | inr err => ((None, Some (FromK8sError err "")), [Call_NewWithWatch config])
      | inl userClient => ((Some userClient, None), [Call_NewWithWatch config])
      end
  end.

(** [k8sclient.Interface] and [k8sclient.NewForConfig]; constructing
    this client is the one call [BuildK8sClient] makes. *)
Variable K8sInterface : Type.
Variable NewForConfig : Config -> K8sInterface + error.

Inductive K8sCall : Type :=
| Call_NewForConfig (config : Config).

(** [BuildK8sClient] repeats the [switch] of [BuildClient] and hands the
    configuration to [k8sclient.NewForConfig]. *)
Definition BuildK8sClient (f : UnprivilegedClientFactory) (authInfo : Info)
  : (option K8sInterface * option error) * list K8sCall :=
  let config := CopyConfig (UnprivilegedClientFactory_config f) in
  match configureCredentials config authInfo with
  | inr err => ((None, Some err), [])
  | inl config =>
      match NewForConfig config with
      | inr err => ((None, Some (FromK8sError err "")), [Call_NewForConfig config])
      | inl userK8sClient =>
          ((Some userK8sClient, None), [Call_NewForConfig config])
      end
  end.

Record PrivilegedClientFactory : Type := {
  PrivilegedClientFactory_config : Config;
  PrivilegedClientFactory_mapper : RESTMapper
}.

Definition NewPrivilegedClientFactory (config : Config) (mapper : RESTMapper)
  : PrivilegedClientFactory :=
  {| PrivilegedClientFactory_config := config;
     PrivilegedClientFactory_mapper := mapper |}.

Definition PrivilegedBuildClient (f : PrivilegedClientFactory) (_ : Info)
  : (option WithWatch * option error) * list Call :=
  let config := PrivilegedClientFactory_config f in
  match NewWithWatch config (PrivilegedClientFactory_mapper f) with
  | inr err => ((None, Some err), [Call_NewWithWatch config])
  | inl c => ((Some c, None), [Call_NewWithWatch config])
  end.

End ClientFactory.

(** ** The route repository

    The records and messages below are the ones the tests of the route
    repository build and inspect.  The file that defines the operations
    of [RouteRepo] is not part of this development: the operations are
    modelled from the specification, over an explicit state of the
    resource store. *)

Record DestinationRecord : Type := {
  DestinationRecord_GUID : string;
  DestinationRecord_AppGUID : string;
  DestinationRecord_ProcessType : string;
  DestinationRecord_Port : Z;
  DestinationRecord_Protocol : string
}.

Record RouteRecord : Type := {
  RouteRecord_GUID : string;
  RouteRecord_SpaceGUID : string;
  RouteRecord_Domain : DomainRecord;
  RouteRecord_Host : string;
  RouteRecord_Path : string;
  RouteRecord_Protocol : string;
  RouteRecord_Destinations : list DestinationRecord;
  RouteRecord_CreatedAt : string;
  RouteRecord_UpdatedAt : string
}.

Definition RouteRecord_zero : RouteRecord :=
  {| RouteRecord_GUID := ""; RouteRecord_SpaceGUID := "";
     RouteRecord_Domain := DomainRecord_zero;
     RouteRecord_Host := ""; RouteRecord_Path := ""; RouteRecord_Protocol := "";
     RouteRecord_Destinations := [];
     RouteRecord_CreatedAt := ""; RouteRecord_UpdatedAt := "" |}.

Record DestinationMessage : Type := {
  DestinationMessage_AppGUID : string;
  DestinationMessage_ProcessType : string;
  DestinationMessage_Port : Z;
  DestinationMessage_Protocol : string
}.

Record AddDestinationsToRouteMessage : Type := {
  AddDestinationsToRouteMessage_RouteGUID : string;
  AddDestinationsToRouteMessage_SpaceGUID : string;
  AddDestinationsToRouteMessage_ExistingDestinations : list DestinationRecord;
  AddDestinationsToRouteMessage_NewDestinations : list DestinationMessage
}.

Record CreateRouteMessage : Type := {
  CreateRouteMessage_Host : string;
  CreateRouteMessage_Path : string;
  CreateRouteMessage_SpaceGUID : string;
  CreateRouteMessage_DomainGUID : string
}.

(** The helpers of the repository tests. *)
Definition initializeDestinationListMessage (routeGUID spaceGUID : string)
  (existingDestinations : list DestinationRecord)
  (addDestinations : list DestinationMessage) : AddDestinationsToRouteMessage :=
  {| AddDestinationsToRouteMessage_RouteGUID := routeGUID;
     AddDestinationsToRouteMessage_SpaceGUID := spaceGUID;
     AddDestinationsToRouteMessage_ExistingDestinations := existingDestinations;
     AddDestinationsToRouteMessage_NewDestinations := addDestinations |}.

Definition buildCreateRouteMessage (routeHost routePath domainGUID spaceGUID : string)
  : CreateRouteMessage :=
  {| CreateRouteMessage_Host := routeHost;
     CreateRouteMessage_Path := routePath;
     CreateRouteMessage_SpaceGUID := spaceGUID;
     CreateRouteMessage_DomainGUID := domainGUID |}.

(** The key under which the destinations of a route form a set:
    (AppGUID, ProcessType, Port, Protocol). *)
Definition DestinationKey : Type := (string * string * Z * string)%type.

Definition key_eqb (a b : DestinationKey) : bool :=
  let '(a1, a2, a3, a4) := a in
  let '(b1, b2, b3, b4) := b in
  (a1 =? b1) && (a2 =? b2) && (a3 =? b3)%Z && (a4 =? b4).

Definition keyOfMessage (d : DestinationMessage) : DestinationKey :=
  (DestinationMessage_AppGUID d, DestinationMessage_ProcessType d,
   DestinationMessage_Port d, DestinationMessage_Protocol d).

Definition keyOfRecord (d : DestinationRecord) : DestinationKey :=
  (DestinationRecord_AppGUID d, DestinationRecord_ProcessType d,
   DestinationRecord_Port d, DestinationRecord_Protocol d).

Definition keyOfDestination (d : Destination) : DestinationKey :=
  (LocalObjectReference_Name (Destination_AppRef d), Destination_ProcessType d,
   Destination_Port d, Destination_Protocol d).

Definition hasKey (k : DestinationKey) (keys : list DestinationKey) : bool :=
  existsb (key_eqb k) keys.

Definition destinationRecordToCFDestination (d : DestinationRecord) : Destination :=
  {| Destination_GUID := DestinationRecord_GUID d;
     Destination_Port := DestinationRecord_Port d;
     Destination_AppRef := {| LocalObjectReference_Name := DestinationRecord_AppGUID d |};
     Destination_ProcessType := DestinationRecord_ProcessType d;
     Destination_Protocol := DestinationRecord_Protocol d |}.

Definition cfDestinationToDestinationRecord (d : Destination) : DestinationRecord :=
  {| DestinationRecord_GUID := Destination_GUID d;
     DestinationRecord_AppGUID := LocalObjectReference_Name (Destination_AppRef d);
     DestinationRecord_ProcessType := Destination_ProcessType d;
     DestinationRecord_Port := Destination_Port d;
     DestinationRecord_Protocol := Destination_Protocol d |}.

(** Modelled from the spec: step 1 of the merge, "de-duplicate the
    requested additions by the key; later duplicates in the same request
    are dropped silently".  [seen] holds the keys met so far. *)
Fixpoint dedupDestinations (seen : list DestinationKey)
  (requested : list DestinationMessage) : list DestinationMessage :=
  match requested with
  | [] => []
  | d :: rest =>
      if hasKey (keyOfMessage d) seen
      then dedupDestinations seen rest
      else d :: dedupDestinations (keyOfMessage d :: seen) rest
  end.

(** Modelled from the spec: step 2 of the merge, "drop any requested
    addition whose key already exists in the current set". *)
Definition dropExisting (existing : list DestinationRecord)
  (requested : list DestinationMessage) : list DestinationMessage :=
  filter (fun d => negb (hasKey (keyOfMessage d) (map keyOfRecord existing)))
         requested.

(** The state the route operations run against: the route objects of the
    store in the order the store lists them, the store's clock, and the
    number of identifiers drawn from [uuid.NewString] so far. *)
Record World : Type := {
  World_routes : list CFRoute;
  World_now : Time;
  World_uuids : nat
}.

(** Modelled from the spec: an object is addressed by its namespace and
    its name, unique within the namespace. *)
Definition hasName (namespace name : string) (o : CFRoute) : bool :=
  (ObjectMeta_Namespace (CFRoute_ObjectMeta o) =? namespace)
  && (ObjectMeta_Name (CFRoute_ObjectMeta o) =? name).

(** Modelled from the spec: "an equivalent object already exists".  Two
    route objects denote the same route when they agree on namespace,
    host, path and domain, the fields of a create message. *)
Definition sameRoute (a b : CFRoute) : bool :=
  (ObjectMeta_Namespace (CFRoute_ObjectMeta a)
     =? ObjectMeta_Namespace (CFRoute_ObjectMeta b))
  && (CFRouteSpec_Host (CFRoute_Spec a) =? CFRouteSpec_Host (CFRoute_Spec b))
  && (CFRouteSpec_Path (CFRoute_Spec a) =? CFRouteSpec_Path (CFRoute_Spec b))
  && (LocalObjectReference_Name (CFRouteSpec_DomainRef (CFRoute_Spec a))
        =? LocalObjectReference_Name (CFRouteSpec_DomainRef (CFRoute_Spec b))).

(** Modelled from the spec: a patch replaces the one object it
    addresses and leaves the listing order. *)
Fixpoint replaceFirst (p : CFRoute -> bool) (o' : CFRoute) (l : list CFRoute)
  : list CFRoute :=
  match l with
  | [] => []
  | o :: rest => if p o then o' :: rest else o :: replaceFirst p o' rest
  end.

(** Modelled from the spec: the resource-store protocol on route
    objects.  [create] refuses an object without a namespace, and
    answers "already exists" when an object of the same name or denoting
    the same route is stored; [patch] is conditional on the version last
    observed and validates the destinations it is asked to store.
    [list(kind) -> []object] is the listing itself. *)
Definition storeList (w : World) : list CFRoute := World_routes w.

(** Modelled from the spec: [get(kind, namespace, name) -> object |
    NotFound]. *)
Definition storeGet (w : World) (namespace name : string) : CFRoute + error :=
  match find (hasName namespace name) (World_routes w) with
  | Some o => inl o
  | None => inr (StatusError StatusReasonNotFound "not found")
  end.

(** Modelled from the spec: [create(object) -> object | AlreadyExists |
    ValidationError].  The stored object gets the store's time as its
    creation timestamp and its first version. *)
Definition storeCreate (w : World) (o : CFRoute) : (CFRoute + error) * World :=
  if ObjectMeta_Namespace (CFRoute_ObjectMeta o) =? "" then
    (inr (errorString "an empty namespace may not be set during creation"), w)
  else if existsb
            (fun e => hasName (ObjectMeta_Namespace (CFRoute_ObjectMeta o))
                              (ObjectMeta_Name (CFRoute_ObjectMeta o)) e
                      || sameRoute o e)
            (World_routes w) then
    (inr (StatusError StatusReasonAlreadyExists "already exists"), w)
  else
    let stored :=
      {| CFRoute_ObjectMeta :=
           {| ObjectMeta_Name := ObjectMeta_Name (CFRoute_ObjectMeta o);
              ObjectMeta_Namespace := ObjectMeta_Namespace (CFRoute_ObjectMeta o);
              ObjectMeta_UID := ObjectMeta_UID (CFRoute_ObjectMeta o);
              ObjectMeta_ResourceVersion := 1;
              ObjectMeta_CreationTimestamp := World_now w |};
         CFRoute_Spec := CFRoute_Spec o |} in
    (inl stored,
     {| World_routes := World_routes w ++ [stored];
        World_now := World_now w;
        World_uuids := World_uuids w |}).

(** Modelled from the spec: "schema/field validation failures surfaced
    by the store on write".  The schema of a route object admits one
    protocol for a destination. *)
Definition StatusReasonInvalid : StatusReason := "Invalid".

Definition supportedProtocol (protocol : string) : bool := protocol =? "http1".

Definition doubleQuoted (s : string) : string :=
  String (ascii_of_nat 34) s ++ String (ascii_of_nat 34) EmptyString.

(** Modelled from the spec: the text of the validation failure, the one
    the tests of [AddDestinationsToRoute] expect for a destination of
    an unsupported protocol. *)
Definition unsupportedProtocolText (protocol : string) : string :=
  "Unsupported value: " ++ doubleQuoted protocol
  ++ ": supported values: " ++ doubleQuoted "http1".

(** Modelled from the spec: the validation of the destinations of a
    route object on write; the failure names the first offending
    value. *)
Definition validateDestinations (destinations : list Destination) : option error :=
  match find (fun d => negb (supportedProtocol (Destination_Protocol d)))
             destinations with
  | Some d =>
      Some (StatusError StatusReasonInvalid
                        (unsupportedProtocolText (Destination_Protocol d)))
  | None => None
  end.

(** Modelled from the spec: [patch(object, expectedVersion) -> object |
    Conflict], with the validation failure of a write.  The store looks
    the object up, compares the version, validates the patched object
    and only then stores it: a refused patch leaves the store as it
    was. *)
Definition storePatch (w : World) (o : CFRoute) (expectedVersion : nat)
  : (CFRoute + error) * World :=
  let namespace := ObjectMeta_Namespace (CFRoute_ObjectMeta o) in
  let name := ObjectMeta_Name (CFRoute_ObjectMeta o) in
  match find (hasName namespace name) (World_routes w) with
  | None => (inr (StatusError StatusReasonNotFound "not found"), w)
  | Some current =>
      if Nat.eqb (ObjectMeta_ResourceVersion (CFRoute_ObjectMeta current))
                 expectedVersion
      then
        match validateDestinations (CFRouteSpec_Destinations (CFRoute_Spec o)) with
        | Some err => (inr err, w)
        | None =>
            let patched :=
              {| CFRoute_ObjectMeta :=
                   {| ObjectMeta_Name := name;
                      ObjectMeta_Namespace := namespace;
                      ObjectMeta_UID := ObjectMeta_UID (CFRoute_ObjectMeta current);
                      ObjectMeta_ResourceVersion := S expectedVersion;
                      ObjectMeta_CreationTimestamp :=
                        ObjectMeta_CreationTimestamp (CFRoute_ObjectMeta current) |};
                 CFRoute_Spec := CFRoute_Spec o |} in
            (inl patched,
             {| World_routes :=
                  replaceFirst (hasName namespace name) patched (World_routes w);
                World_now := World_now w;
                World_uuids := World_uuids w |})
        end
      else (inr (StatusError StatusReasonConflict "conflict"), w)
  end.

(** Modelled from the spec: the Error Classifier applied to a failure of
    the store; the reasons "not found" and "unauthorized" collapse into
    [PermissionDeniedOrNotFoundError], as [GetDomain] does, and every
    other error is passed on. *)
Definition classifyStoreError (resourceType : string) (err : error) : error :=
  match err with
  | StatusError reason _ =>
      if (reason =? StatusReasonNotFound) || (reason =? StatusReasonUnauthorized)
      then PermissionDeniedOrNotFoundError (Some err) resourceType
      else err
  | _ => err
  end.

Section RouteRepository.

Variable formatTimestamp : Time -> string.
Variable getTimeLastUpdatedTimestamp : ObjectMeta -> string * option error.

(** [uuid_NewString n] is the identifier that the [n]-th call of
    [uuid.NewString] returns. *)
Variable uuid_NewString : nat -> string.

(** Modelled from the spec: the record mapper for routes.  The fields
    are those that the tests of the repository compare with the
    object. *)
Definition cfRouteToRouteRecord (cfRoute : CFRoute) : RouteRecord :=
  let '(updatedAtTime, _) :=
    getTimeLastUpdatedTimestamp (CFRoute_ObjectMeta cfRoute) in
  {| RouteRecord_GUID := ObjectMeta_Name (CFRoute_ObjectMeta cfRoute);
     RouteRecord_SpaceGUID := ObjectMeta_Namespace (CFRoute_ObjectMeta cfRoute);
     RouteRecord_Domain :=
       {| DomainRecord_Name := "";
          DomainRecord_GUID :=
            LocalObjectReference_Name (CFRouteSpec_DomainRef (CFRoute_Spec cfRoute));
          DomainRecord_Labels := [];
          DomainRecord_Annotations := [];
          DomainRecord_CreatedAt := "";
          DomainRecord_UpdatedAt := "" |};
     RouteRecord_Host := CFRouteSpec_Host (CFRoute_Spec cfRoute);
     RouteRecord_Path := CFRouteSpec_Path (CFRoute_Spec cfRoute);
     RouteRecord_Protocol := CFRouteSpec_Protocol (CFRoute_Spec cfRoute);
     RouteRecord_Destinations :=
       map cfDestinationToDestinationRecord
           (CFRouteSpec_Destinations (CFRoute_Spec cfRoute));
     RouteRecord_CreatedAt :=
       formatTimestamp (ObjectMeta_CreationTimestamp (CFRoute_ObjectMeta cfRoute));
     RouteRecord_UpdatedAt := updatedAtTime |}.

(** Modelled from the spec: get-by-identifier with uniqueness
    enforcement.  The errors are the ones the tests of [GetRoute]
    expect. *)
Definition returnRoute (routes : list CFRoute) : RouteRecord * option error :=
  match routes with
  | [] => (RouteRecord_zero, Some (PermissionDeniedOrNotFoundError None ""))
  | [only] => (cfRouteToRouteRecord only, None)
  | _ :: _ :: _ => (RouteRecord_zero, Some (errors_New "duplicate route GUID exists"))
  end.

(** Modelled from the spec: the objects that match the identifier, as
    [filterPackagesByMetadataName] for packages. *)
Definition filterRoutesByMetadataName (routes : list CFRoute) (name : string)
  : list CFRoute :=
  filter (fun r => ObjectMeta_Name (CFRoute_ObjectMeta r) =? name) routes.

(** Modelled from the spec: [GetRoute] lists the routes of every
    namespace and keeps those named by the identifier. *)
Definition GetRoute (w : World) (authInfo : Info) (routeGUID : string)
  : RouteRecord * option error :=
  returnRoute (filterRoutesByMetadataName (storeList w) routeGUID).

(** Modelled from the spec: the object a create message describes,
    named by [guid]. *)
Definition toCFRoute (message : CreateRouteMessage) (guid : string) : CFRoute :=
  {| CFRoute_ObjectMeta :=
       {| ObjectMeta_Name := guid;
          ObjectMeta_Namespace := CreateRouteMessage_SpaceGUID message;
          ObjectMeta_UID := "";
          ObjectMeta_ResourceVersion := 0;
          ObjectMeta_CreationTimestamp := 0%Z |};
     CFRoute_Spec :=
       {| CFRouteSpec_Host := CreateRouteMessage_Host message;
          CFRouteSpec_Path := CreateRouteMessage_Path message;
          CFRouteSpec_Protocol := "";
          CFRouteSpec_DomainRef :=
            {| LocalObjectReference_Name := CreateRouteMessage_DomainGUID message |};
          CFRouteSpec_Destinations := [] |} |}.

(** Modelled from the spec: one call of [uuid.NewString]. *)
Definition drawUUID (w : World) : string * World :=
  (uuid_NewString (World_uuids w),
   {| World_routes := World_routes w;
      World_now := World_now w;
      World_uuids := S (World_uuids w) |}).

(** Modelled from the spec: [create(message) -> Record]; the object
    is named by a fresh identifier and a failure of the store is
    returned classified. *)
Definition CreateRoute (w : World) (authInfo : Info) (message : CreateRouteMessage)
  : (RouteRecord * option error) * World :=
  let '(guid, w1) := drawUUID w in
  match storeCreate w1 (toCFRoute message guid) with
  | (inr err, w2) => ((RouteRecord_zero, Some (classifyStoreError "Route" err)), w2)
  | (inl created, w2) => ((cfRouteToRouteRecord created, None), w2)
  end.

(** Modelled from the spec: the create "fails specifically because an
    equivalent object already exists". *)
Definition isAlreadyExists (err : error) : bool :=
  match err with
  | StatusError reason _ => reason =? StatusReasonAlreadyExists
  | _ => false
  end.

(** Modelled from the spec: get-or-create, "attempt create; if create
    fails specifically because an equivalent object already exists,
    re-fetch and return the existing record instead of propagating the
    conflict". *)
Definition GetOrCreateRoute (w : World) (authInfo : Info)
  (message : CreateRouteMessage) : (RouteRecord * option error) * World :=
  match CreateRoute w authInfo message with
  | ((record, None), w1) => ((record, None), w1)
  | ((_, Some err), w1) =>
      if isAlreadyExists err then
        match find (sameRoute (toCFRoute message "")) (storeList w1) with
        | Some existing => ((cfRouteToRouteRecord existing, None), w1)
        | None =>
            ((RouteRecord_zero,
              Some (PermissionDeniedOrNotFoundError None "Route")), w1)
        end
      else ((RouteRecord_zero, Some err), w1)
  end.

(** Modelled from the spec: step 3 of the merge, "assign each
    surviving new entry a fresh unique identifier"; [n] identifiers
    have been drawn before. *)
Fixpoint assignGUIDs (n : nat) (surviving : list DestinationMessage)
  : list Destination :=
  match surviving with
  | [] => []
  | d :: rest =>
      {| Destination_GUID := uuid_NewString n;
         Destination_Port := DestinationMessage_Port d;
         Destination_AppRef :=
           {| LocalObjectReference_Name := DestinationMessage_AppGUID d |};
         Destination_ProcessType := DestinationMessage_ProcessType d;
         Destination_Protocol := DestinationMessage_Protocol d |}
      :: assignGUIDs (S n) rest
  end.

(** Modelled from the spec: the requested additions that survive steps
    1 and 2 of merge-without-duplication. *)
Definition survivingDestinations (existing : list DestinationRecord)
  (requested : list DestinationMessage) : list DestinationMessage :=
  dropExisting existing (dedupDestinations [] requested).

(** Modelled from the spec: steps 1 to 3 of merge-without-duplication;
    the result is the union, the current destinations first. *)
Definition mergeDestinations (n : nat) (existing : list DestinationRecord)
  (requested : list DestinationMessage) : list Destination :=
  map destinationRecordToCFDestination existing
  ++ assignGUIDs n (survivingDestinations existing requested).

(** Modelled from the spec: [AddDestinationsToRoute], steps 4 and 5:
    the union is applied as one patch conditional on the version of
    the object last observed, and the record of the patched object is
    returned.  A patch that the store refuses, with a conflict or a
    validation failure, is returned as the classified error with the
    empty record. *)
Definition AddDestinationsToRoute (w : World) (authInfo : Info)
  (message : AddDestinationsToRouteMessage)
  : (RouteRecord * option error) * World :=
  match storeGet w (AddDestinationsToRouteMessage_SpaceGUID message)
                   (AddDestinationsToRouteMessage_RouteGUID message) with
  | inr err => ((RouteRecord_zero, Some (classifyStoreError "Route" err)), w)
  | inl observed =>
      let existing := AddDestinationsToRouteMessage_ExistingDestinations message in
      let requested := AddDestinationsToRouteMessage_NewDestinations message in
      let merged := mergeDestinations (World_uuids w) existing requested in
      let w1 :=
        {| World_routes := World_routes w;
           World_now := World_now w;
           World_uuids :=
             World_uuids w + List.length (survivingDestinations existing requested) |} in
      let cfRoute :=
        {| CFRoute_ObjectMeta := CFRoute_ObjectMeta observed;
           CFRoute_Spec :=
             {| CFRouteSpec_Host := CFRouteSpec_Host (CFRoute_Spec observed);
                CFRouteSpec_Path := CFRouteSpec_Path (CFRoute_Spec observed);
                CFRouteSpec_Protocol := CFRouteSpec_Protocol (CFRoute_Spec observed);
                CFRouteSpec_DomainRef := CFRouteSpec_DomainRef (CFRoute_Spec observed);
                CFRouteSpec_Destinations := merged |} |} in
      match storePatch w1 cfRoute
              (ObjectMeta_ResourceVersion (CFRoute_ObjectMeta observed)) with
      | (inr err, w2) =>
          ((RouteRecord_zero, Some (classifyStoreError "Route" err)), w2)
      | (inl patched, w2) => ((cfRouteToRouteRecord patched, None), w2)
      end
  end.

End RouteRepository.

End repositories.

Import repositories.

(** ** Sample environment and objects

    Concrete stand-ins for the functions of other packages, and the
    objects on which the properties below are exercised. *)

(** A rendering of instants: the decimal number of seconds. *)
Definition sampleFormat (t : Time) : string :=
  NilZero.string_of_int (Z.to_int t).

Definition sampleLastUpdated (meta : ObjectMeta) : string * option error :=
  (sampleFormat (ObjectMeta_CreationTimestamp meta), None).

Definition sampleUUID (n : nat) : string :=
  "guid-" ++ NilZero.string_of_uint (Nat.to_uint n).

Definition asciiToLower (c : ascii) : ascii :=
  let n := nat_of_ascii c in
  if (65 <=? n)%nat && (n <=? 90)%nat then ascii_of_nat (n + 32) else c.

Fixpoint sampleToLower (s : string) : string :=
  match s with
  | EmptyString => EmptyString
  | String c rest => String (asciiToLower c) (sampleToLower rest)
  end.

Definition sampleScheme (info : Info) : string :=
  if nonEmpty (Info_CertData info) then "ClientCert"
  else if Info_Token info =? "" then "Basic"
  else "Bearer".

(** A decoder that accepts the data that start with a dash and takes
    them whole as one block. *)
Definition samplePemDecode (data : list Byte.byte)
  : option (list Byte.byte) * list Byte.byte :=
  match data with
  | Byte.x2d :: _ => (Some data, [])
  | _ => (None, data)
  end.

Definition sampleNewWithWatch (config : Config) (_ : unit) : Config + error :=
  inl config.

Definition sampleFromK8sError (err : error) (_ : string) : error := err.

Definition sampleFactory : UnprivilegedClientFactory unit :=
  NewUnprivilegedClientFactory unit
    {| Config_Host := "https://store"; Config_BearerToken := "service-token";
       Config_CertData := []; Config_KeyData := [] |} tt.

Definition mkMeta (name namespace : string) (created : Time) : ObjectMeta :=
  {| ObjectMeta_Name := name;
     ObjectMeta_Namespace := namespace;
     ObjectMeta_UID := name;
     ObjectMeta_ResourceVersion := 1;
     ObjectMeta_CreationTimestamp := created |}.

Definition mkDomain (guid name : string) (created : Time) : CFDomain :=
  {| CFDomain_ObjectMeta := mkMeta guid "" created;
     CFDomain_Spec := {| CFDomainSpec_Name := name |} |}.

Definition mkPackage (guid namespace appGUID image : string) (created : Time)
  : CFPackage :=
  {| CFPackage_ObjectMeta := mkMeta guid namespace created;
     CFPackage_Spec :=
       {| CFPackageSpec_Type := "bits";
          CFPackageSpec_AppRef := {| LocalObjectReference_Name := appGUID |};
          CFPackageSpec_Source :=
            {| PackageSource_Registry :=
                 {| Registry_Image := image; Registry_ImagePullSecrets := [] |} |} |} |}.

(** A client over fixed collections; [Get] answers with the given
    status reason when no domain has the name. *)
Definition sampleClient (domains : list CFDomain) (packages : list CFPackage)
  (missing : StatusReason) : Client :=
  {| Client_GetCFDomain :=
       fun key =>
         match find (fun d => ObjectMeta_Name (CFDomain_ObjectMeta d)
                              =? NamespacedName_Name key) domains with
         | Some d => inl d
         | None => inr (StatusError missing "store failure")
         end;
     Client_ListCFDomain := inl domains;
     Client_ListCFPackage := inl packages |}.

Definition noAuth : Info := {| Info_Token := ""; Info_CertData := [] |}.

Definition certOnly : Info :=
  {| Info_Token := ""; Info_CertData := [Byte.x2d; Byte.x2d] |}.

(** ** Vocabulary of the properties *)

Definition CFDomain_eq_dec (a b : CFDomain) : {a = b} + {a <> b}.
Proof. repeat decide equality. Defined.

Definition DomainRecord_eq_dec (a b : DomainRecord) : {a = b} + {a <> b}.
Proof. repeat decide equality. Defined.

Definition domainCreated (d : CFDomain) : Time :=
  ObjectMeta_CreationTimestamp (CFDomain_ObjectMeta d).

Definition packageCreated (p : CFPackage) : Time :=
  ObjectMeta_CreationTimestamp (CFPackage_ObjectMeta p).

(** A domain passes the filter of a message: the list of names is empty
    or holds the domain's name. *)
Definition domainMatches (message : ListDomainsMessage) (d : CFDomain) : bool :=
  negb (nonEmpty (ListDomainsMessage_Names message))
  || existsb (fun name => CFDomainSpec_Name (CFDomain_Spec d) =? name)
             (ListDomainsMessage_Names message).

(** A package record passes the filters of a message: each list is
    empty or holds the record's field. *)
Definition packageMatches (message : ListPackagesMessage) (p : PackageRecord)
  : bool :=
  (negb (nonEmpty (ListPackagesMessage_AppGUIDs message))
   || existsb (fun appGUID => PackageRecord_AppGUID p =? appGUID)
              (ListPackagesMessage_AppGUIDs message))
  && (negb (nonEmpty (ListPackagesMessage_States message))
      || existsb (fun state => PackageRecord_State p =? state)
                 (ListPackagesMessage_States message)).

(** The message asks for the descending order. *)
Definition descendingRequested (message : ListPackagesMessage) : bool :=
  (ListPackagesMessage_SortBy message =? "created_at")
  && ListPackagesMessage_DescendingOrder message.

(** ** Sample collections *)

Definition sampleDomains : list CFDomain :=
  [mkDomain "d2" "example.com" 7%Z;
   mkDomain "d1" "example.com" 3%Z;
   mkDomain "d3" "example.org" 1%Z].

(** Two domains created at the same instant. *)
Definition domainA : CFDomain := mkDomain "a" "example.org" 5%Z.
Definition domainB : CFDomain := mkDomain "b" "example.com" 5%Z.

Definition packageP1 : CFPackage := mkPackage "p1" "space-1" "a1" "" 1%Z.
Definition packageP2 : CFPackage := mkPackage "p2" "space-1" "a1" "registry/image" 2%Z.
Definition packageP3 : CFPackage := mkPackage "p3" "space-2" "a2" "registry/image" 3%Z.

(** Two packages of the same name in two namespaces. *)
Definition packageQ1 : CFPackage := mkPackage "q" "space-1" "a1" "" 1%Z.
Definition packageQ2 : CFPackage := mkPackage "q" "space-2" "a2" "" 2%Z.

Definition samplePackages : list CFPackage := [packageP1; packageP2; packageP3].

(** Two packages created at the same instant. *)
Definition packageTA : CFPackage := mkPackage "a" "space-1" "a1" "" 5%Z.
Definition packageTB : CFPackage := mkPackage "b" "space-1" "a1" "" 5%Z.

Definition sampleDomainRepo (items : list CFDomain) : DomainRepo :=
  NewDomainRepo (sampleClient items [] StatusReasonNotFound).

Definition samplePackageRepo (items : list CFPackage) : PackageRepo :=
  NewPackageRepo (sampleClient [] items StatusReasonNotFound).

Definition noDomainFilter : ListDomainsMessage :=
  {| ListDomainsMessage_Names := [] |}.

(** No filter, default order. *)
Definition noPackageFilter : ListPackagesMessage :=
  {| ListPackagesMessage_AppGUIDs := [];
     ListPackagesMessage_SortBy := "";
     ListPackagesMessage_DescendingOrder := false;
     ListPackagesMessage_States := [] |}.

(** No filter, descending order requested. *)
Definition noPackageFilterDescending : ListPackagesMessage :=
  {| ListPackagesMessage_AppGUIDs := [];
     ListPackagesMessage_SortBy := "created_at";
     ListPackagesMessage_DescendingOrder := true;
     ListPackagesMessage_States := [] |}.

(** The scenario of the specification: packages of application "a1"
    in state "READY". *)
Definition readyPackagesOfA1 : ListPackagesMessage :=
  {| ListPackagesMessage_AppGUIDs := ["a1"];
     ListPackagesMessage_SortBy := "";
     ListPackagesMessage_DescendingOrder := false;
     ListPackagesMessage_States := ["READY"] |}.

(** ** Sample routes *)

Definition mkRoute (guid namespace host path domainGUID : string)
  (destinations : list Destination) (created : Time) : CFRoute :=
  {| CFRoute_ObjectMeta := mkMeta guid namespace created;
     CFRoute_Spec :=
       {| CFRouteSpec_Host := host;
          CFRouteSpec_Path := path;
          CFRouteSpec_Protocol := "http";
          CFRouteSpec_DomainRef := {| LocalObjectReference_Name := domainGUID |};
          CFRouteSpec_Destinations := destinations |} |}.

Definition webDestination : Destination :=
  {| Destination_GUID := "destination-guid";
     Destination_Port := 8000%Z;
     Destination_AppRef := {| LocalObjectReference_Name := "some-app-guid" |};
     Destination_ProcessType := "web";
     Destination_Protocol := "http1" |}.

Definition route1 : CFRoute :=
  mkRoute "route-1" "default" "my-subdomain-1" "" "domain-guid" [webDestination] 4%Z.

Definition route2 : CFRoute :=
  mkRoute "route-2" "default" "my-subdomain-2" "" "domain-guid" [] 5%Z.

(** A route of another namespace named as [route1]. *)
Definition route1A : CFRoute :=
  mkRoute "route-1" "other" "my-subdomain-1" "" "domain-guid" [] 6%Z.

Definition sampleWorld (routes : list CFRoute) : World :=
  {| World_routes := routes; World_now := 10%Z; World_uuids := 0 |}.

Definition workerMessage : DestinationMessage :=
  {| DestinationMessage_AppGUID := "app-guid-2";
     DestinationMessage_ProcessType := "worker";
     DestinationMessage_Port := 9000%Z;
     DestinationMessage_Protocol := "http1" |}.

Definition webMessage : DestinationMessage :=
  {| DestinationMessage_AppGUID := "some-app-guid";
     DestinationMessage_ProcessType := "web";
     DestinationMessage_Port := 8000%Z;
     DestinationMessage_Protocol := "http1" |}.

(** A request on [route1] that repeats the destination of the route and
    names a new one twice. *)
Definition sampleAddDestinations : AddDestinationsToRouteMessage :=
  initializeDestinationListMessage "route-1" "default"
    [cfDestinationToDestinationRecord webDestination]
    [webMessage; workerMessage; workerMessage].

(** Every destination of the message, existing or requested, has a
    protocol that the schema of a route admits. *)
Definition supportedDestinations (message : AddDestinationsToRouteMessage) : bool :=
  forallb (fun d => supportedProtocol (DestinationRecord_Protocol d))
          (AddDestinationsToRouteMessage_ExistingDestinations message)
  && forallb (fun d => supportedProtocol (DestinationMessage_Protocol d))
             (AddDestinationsToRouteMessage_NewDestinations message).

(** The protocol of a destination is the last component of its key. *)
Definition keyProtocol (k : DestinationKey) : string := snd k.

(** The request of the repository test for an invalid protocol, on
    [route2], a route without destinations. *)
Definition badProtocolMessage : DestinationMessage :=
  {| DestinationMessage_AppGUID := "app-guid-3";
     DestinationMessage_ProcessType := "web";
     DestinationMessage_Port := 8080%Z;
     DestinationMessage_Protocol := "bad-protocol" |}.

Definition sampleBadProtocol : AddDestinationsToRouteMessage :=
  initializeDestinationListMessage "route-2" "default" [] [badProtocolMessage].

Definition sampleCreateRoute : CreateRouteMessage :=
  buildCreateRouteMessage "test-route-host" "/test/route/path" "domain-guid"
                          "default".

(** * The action that reads the logs of an application (package [actions]) *)

Module actions.

(** The fields of [repositories.AppRecord] and [repositories.BuildRecord]
    that the action and its tests use, [repositories.LogRecord],
    [repositories.RuntimeLogsMessage] and [payloads.LogRead]. *)
Record AppRecord : Type := {
  AppRecord_GUID : string;
  AppRecord_Revision : string;
  AppRecord_SpaceGUID : string
}.

Record BuildRecord : Type := {
  BuildRecord_GUID : string;
  BuildRecord_AppGUID : string
}.

Record LogRecord : Type := {
  LogRecord_Message : string;
  LogRecord_Timestamp : Z
}.

Record RuntimeLogsMessage : Type := {
  RuntimeLogsMessage_SpaceGUID : string;
  RuntimeLogsMessage_AppGUID : string;
  RuntimeLogsMessage_AppRevision : string;
  RuntimeLogsMessage_Limit : Z
}.

Record LogRead : Type := {
  LogRead_StartTime : option Z;
  LogRead_EndTime : option Z;
  LogRead_EnvelopeTypes : list string;
  LogRead_Limit : option Z;
  LogRead_Descending : option bool
}.

(** The repository interfaces, the methods [Invoke] calls. *)
Record CFAppRepository : Type := {
  GetApp : Info -> string -> AppRecord * option error
}.

Record CFBuildRepository : Type := {
  GetLatestBuildByAppGUID : Info -> string -> string -> BuildRecord * option error;
  GetBuildLogs : Info -> string -> string -> list LogRecord * option error
}.

Record PodRepository : Type := {
  GetRuntimeLogsForApp : Info -> RuntimeLogsMessage -> list LogRecord * option error
}.

(** What [Invoke] does besides returning: the calls to the
    repositories with their arguments, and the lines it logs with
    [logger.Error] (error, message, keys and values). *)
Inductive Event : Type :=
| Called_GetApp (authInfo : Info) (appGUID : string)
| Called_GetLatestBuildByAppGUID (authInfo : Info) (spaceGUID appGUID : string)
| Called_GetBuildLogs (authInfo : Info) (spaceGUID buildGUID : string)
| Called_GetRuntimeLogsForApp (authInfo : Info) (message : RuntimeLogsMessage)
| Logged_Error (err : error) (msg : string) (keysAndValues : list string).

Definition isRepositoryCall (e : Event) : bool :=
  match e with
  | Logged_Error _ _ _ => false
  | _ => true
  end.

Record ReadAppLogs : Type := {
  ReadAppLogs_appRepo : CFAppRepository;
  ReadAppLogs_buildRepo : CFBuildRepository;
  ReadAppLogs_podRepo : PodRepository
}.

Definition NewReadAppLogs (appRepo : CFAppRepository) (buildRepo : CFBuildRepository)
  (podRepo : PodRepository) : ReadAppLogs :=
  {| ReadAppLogs_appRepo := appRepo;
     ReadAppLogs_buildRepo := buildRepo;
     ReadAppLogs_podRepo := podRepo |}.

Definition defaultLogLimit : Z := 100%Z.

Section Invoke.

(** [apierrors.ForbiddenAsNotFound]. *)
Variable ForbiddenAsNotFound : error -> error.

Definition Invoke (a : ReadAppLogs) (authInfo : Info) (appGUID : string)
  (read : LogRead) : (list LogRecord * option error) * list Event :=
  let '(app, err) := GetApp (ReadAppLogs_appRepo a) authInfo appGUID in
  let t1 := [Called_GetApp authInfo appGUID] in
  match err with
  | Some err =>
      (([], Some (ForbiddenAsNotFound err)),
       t1 ++ [Logged_Error err "Failed to fetch app from Kubernetes"
                           ["AppGUID"; appGUID]])
  | None =>
      let '(build, err) :=
        GetLatestBuildByAppGUID (ReadAppLogs_buildRepo a) authInfo
          (AppRecord_SpaceGUID app) appGUID in
      let t2 :=
        t1 ++ [Called_GetLatestBuildByAppGUID authInfo (AppRecord_SpaceGUID app)
                                             appGUID] in
      match err with
      | Some err =>
          (([], Some (ForbiddenAsNotFound err)),
           t2 ++ [Logged_Error err
                    "Failed to fetch latest app CFBuild from Kubernetes"
                    ["AppGUID"; appGUID]])
      | None =>
          let '(buildLogs, err) :=
            GetBuildLogs (ReadAppLogs_buildRepo a) authInfo
              (AppRecord_SpaceGUID app) (BuildRecord_GUID build) in
          let t3 :=
            t2 ++ [Called_GetBuildLogs authInfo (AppRecord_SpaceGUID app)
                                       (BuildRecord_GUID build)] in
          match err with
          | Some err =>
              (([], Some err),
               t3 ++ [Logged_Error err "Failed to fetch build logs"
                        ["AppGUID"; appGUID; "BuildGUID"; BuildRecord_GUID build]])
          | None =>
              let logLimit :=
                match LogRead_Limit read with
                | Some limit => limit
                | None => defaultLogLimit
                end in
              let message :=
                {| RuntimeLogsMessage_SpaceGUID := AppRecord_SpaceGUID app;
                   RuntimeLogsMessage_AppGUID := AppRecord_GUID app;
                   RuntimeLogsMessage_AppRevision := AppRecord_Revision app;
                   RuntimeLogsMessage_Limit := logLimit |} in
              let '(runtimeLogs, err) :=
                GetRuntimeLogsForApp (ReadAppLogs_podRepo a) authInfo message in
              let t4 := t3 ++ [Called_GetRuntimeLogsForApp authInfo message] in
              match err with
              | Some err =>
                  (([], Some err),
                   t4 ++ [Logged_Error err
                            "Failed to fetch app runtime logs from Kubernetes"
                            ["AppGUID"; appGUID]])
              | None => ((buildLogs ++ runtimeLogs, None), t4)
              end
          end
      end
  end.

End Invoke.

End actions.

(** * The space manifest handler (package [apis]) *)

Module apis.

Definition SpaceManifestApplyEndpoint : string :=
  "/v3/spaces/{spaceGUID}/actions/apply_manifest".
Definition SpaceManifestDiffEndpoint : string :=
  "/v3/spaces/{spaceGUID}/manifest_diff".

(** An [http.ResponseWriter]: the header map, the status once
    [WriteHeader] has set it, and the chunks written to the body. *)
Record ResponseWriter : Type := {
  ResponseWriter_Header : list (string * string);
  ResponseWriter_Status : option nat;
  ResponseWriter_Body : list string
}.

Definition emptyResponse : ResponseWriter :=
  {| ResponseWriter_Header := [];
     ResponseWriter_Status := None;
     ResponseWriter_Body := [] |}.

(** [m[key]] on a map of strings: the value, or the empty string. *)
Fixpoint lookup (m : list (string * string)) (key : string) : string :=
  match m with
  | [] => ""
  | (k, v) :: rest => if k =? key then v else lookup rest key
  end.

(** [w.Header().Set(key, value)]. *)
Definition Header_Set (w : ResponseWriter) (key value : string) : ResponseWriter :=
  {| ResponseWriter_Header :=
       (key, value)
       :: filter (fun kv => negb (fst kv =? key)) (ResponseWriter_Header w);
     ResponseWriter_Status := ResponseWriter_Status w;
     ResponseWriter_Body := ResponseWriter_Body w |}.

Definition StatusOK : nat := 200.
Definition StatusAccepted : nat := 202.
Definition StatusBadRequest : nat := 400.

(** [w.WriteHeader(status)]; a status already written stays. *)
Definition WriteHeader (w : ResponseWriter) (status : nat) : ResponseWriter :=
  {| ResponseWriter_Header := ResponseWriter_Header w;
     ResponseWriter_Status :=
       match ResponseWriter_Status w with
       | Some written => Some written
       | None => Some status
       end;
     ResponseWriter_Body := ResponseWriter_Body w |}.

(** [w.Write(data)]; the first write sets the status 200 when none was
    written. *)
Definition Write (w : ResponseWriter) (data : string) : ResponseWriter :=
  {| ResponseWriter_Header := ResponseWriter_Header w;
     ResponseWriter_Status :=
       match ResponseWriter_Status w with
       | Some written => Some written
       | None => Some StatusOK
       end;
     ResponseWriter_Body := ResponseWriter_Body w ++ [data] |}.

(** An [*http.Request]: the route variables ([mux.Vars]), the header and
    the body. *)
Record Request : Type := {
  Request_Vars : list (string * string);
  Request_Header : list (string * string);
  Request_Body : string
}.

Record SpaceRecord : Type := {
  SpaceRecord_GUID : string;
  SpaceRecord_Name : string
}.

Definition quote : string := String (ascii_of_nat 34) EmptyString.

(** The body of the answer to a manifest diff: an object with the key
    "diff" and an empty array. *)
Definition emptyDiff : string := "{" ++ quote ++ "diff" ++ quote ++ ":[]}".

Section SpaceManifestHandler.

(** [payloads.Manifest], the client a [ClientBuilder] returns, and the
    body of an error response. *)
Variables Manifest ClientT ErrorResponse : Type.

Record requestMalformedError : Type := {
  requestMalformedError_httpStatus : nat;
  requestMalformedError_errorResponse : ErrorResponse
}.

(** What the handlers do besides writing the response: the calls to the
    collaborators of the handler and the lines logged with
    [logger.Error]. *)
Inductive Event : Type :=
| Called_buildClient (config : Config) (authorization : string)
| Called_applyManifestAction (c : ClientT) (spaceGUID : string) (manifest : Manifest)
| Called_FetchSpaces
| Called_ServeHTTP
| Logged_Error (err : error) (msg : string).

(** The YAML decoder run on the body ([KnownFields(false)]),
    [validatePayload], [newMessageParseError], the text logged for a
    body that does not parse, and the writers of error responses. *)
Variable yaml_Decode : string -> Manifest + error.
Variable validatePayload : Manifest -> option requestMalformedError.
Variable newMessageParseError : ErrorResponse.
Variable parseFailureText : error -> string.
Variable writeRequestMalformedErrorResponse :
  ResponseWriter -> requestMalformedError -> ResponseWriter.
Variable writeUnknownErrorResponse : ResponseWriter -> ResponseWriter.
Variable writeNotFoundErrorResponse : ResponseWriter -> string -> ResponseWriter.

Record SpaceManifestHandler : Type := {
  SpaceManifestHandler_serverURL : string;
  SpaceManifestHandler_applyManifestAction :
    ClientT -> string -> Manifest -> option error;
  SpaceManifestHandler_FetchSpaces :
    list string -> list string -> list SpaceRecord * option error;
  SpaceManifestHandler_buildClient : Config -> string -> ClientT * option error;
  SpaceManifestHandler_k8sConfig : Config
}.

(** The decoded manifest, or the error to answer with. *)
Definition decodeAndValidateYAMLPayload (r : Request)
  : (Manifest + requestMalformedError) * list Event :=
  match yaml_Decode (Request_Body r) with
  | inr err =>
      (inr {| requestMalformedError_httpStatus := StatusBadRequest;
              requestMalformedError_errorResponse := newMessageParseError |},
       [Logged_Error err (parseFailureText err)])
  | inl object =>
      match validatePayload object with
      | Some rme => (inr rme, [])
      | None => (inl object, [])
      end
  end.

Definition applyManifestHandler (h : SpaceManifestHandler) (w : ResponseWriter)
  (r : Request) : ResponseWriter * list Event :=
  let spaceGUID := lookup (Request_Vars r) "spaceGUID" in
  match decodeAndValidateYAMLPayload r with
  | (inr rme, t0) =>
      (writeRequestMalformedErrorResponse
         (Header_Set w "Content-Type" "application/json") rme,
       t0)
  | (inl manifest, t0) =>
      let authorization := lookup (Request_Header r) "Authorization" in
      let '(client, err) :=
        SpaceManifestHandler_buildClient h (SpaceManifestHandler_k8sConfig h)
                                         authorization in
      let t1 :=
        t0 ++ [Called_buildClient (SpaceManifestHandler_k8sConfig h) authorization] in
      match err with
      | Some err =>
          (writeUnknownErrorResponse
             (Header_Set w "Content-Type" "application/json"),
           t1 ++ [Logged_Error err "Unable to create Kubernetes client"])
      | None =>
          let t2 := t1 ++ [Called_applyManifestAction client spaceGUID manifest] in
          match SpaceManifestHandler_applyManifestAction h client spaceGUID manifest
          with
          | Some err =>
              (writeUnknownErrorResponse
                 (Header_Set w "Content-Type" "application/json"),
               t2 ++ [Logged_Error err "error applying the manifest"])
          | None =>
              (WriteHeader
                 (Header_Set w "Location"
                    (SpaceManifestHandler_serverURL h
                     ++ "/v3/jobs/sync-space.apply_manifest-" ++ spaceGUID))
                 StatusAccepted,
               t2)
          end
      end
  end.

Definition diffManifestHandler (h : SpaceManifestHandler) (w : ResponseWriter)
  (r : Request) : ResponseWriter * list Event :=
  (Write (WriteHeader (Header_Set w "Content-Type" "application/json")
                      StatusAccepted)
         emptyDiff,
   []).

(** The loop of [validateSpaceVisible]. *)
Definition spaceNotFound (spaces : list SpaceRecord) (spaceGUID : string) : bool :=
  negb (existsb (fun space => SpaceRecord_GUID space =? spaceGUID) spaces).

Definition validateSpaceVisible (h : SpaceManifestHandler)
  (hf : ResponseWriter -> Request -> ResponseWriter * list Event)
  (w : ResponseWriter) (r : Request) : ResponseWriter * list Event :=
  let spaceGUID := lookup (Request_Vars r) "spaceGUID" in
  let w := Header_Set w "Content-Type" "application/json" in
  let '(spaces, err) := SpaceManifestHandler_FetchSpaces h [] [] in
  match err with
  | Some err =>
      (writeUnknownErrorResponse w,
       [Called_FetchSpaces; Logged_Error err "Failed to list spaces"])
  | None =>
      if spaceNotFound spaces spaceGUID then
        (writeNotFoundErrorResponse w "Space", [Called_FetchSpaces])
      else
        let '(w', t) := hf w r in
        (w', [Called_FetchSpaces; Called_ServeHTTP] ++ t)
  end.

End SpaceManifestHandler.

End apis.

(** * Vocabulary and samples of the further properties *)

Definition CFPackage_eq_dec (a b : CFPackage) : {a = b} + {a <> b}.
Proof. repeat decide equality. Defined.

Definition packageImage (p : CFPackage) : string :=
  Registry_Image (PackageSource_Registry (CFPackageSpec_Source (CFPackage_Spec p))).

Definition packageName (p : CFPackage) : string :=
  ObjectMeta_Name (CFPackage_ObjectMeta p).

(** A client whose [Get] is refused by the store. *)
Definition forbiddenClient : Client :=
  sampleClient [] [] "Forbidden".

(** A client whose listings fail. *)
Definition failingClient : Client :=
  {| Client_GetCFDomain := fun _ => inr (errorString "connection refused");
     Client_ListCFDomain := inr (errorString "connection refused");
     Client_ListCFPackage := inr (errorString "connection refused") |}.

Definition statesMessage (states : list string) : ListPackagesMessage :=
  {| ListPackagesMessage_AppGUIDs := [];
     ListPackagesMessage_SortBy := "";
     ListPackagesMessage_DescendingOrder := false;
     ListPackagesMessage_States := states |}.

Definition appsMessage (appGUIDs : list string) : ListPackagesMessage :=
  {| ListPackagesMessage_AppGUIDs := appGUIDs;
     ListPackagesMessage_SortBy := "";
     ListPackagesMessage_DescendingOrder := false;
     ListPackagesMessage_States := [] |}.

(** A store that answers every patch with "not found", naming the
    object it was asked to patch. *)
Definition samplePatchNotFound (_ : Client) (cfPackage _ : CFPackage)
  : CFPackage + error :=
  inr (StatusError StatusReasonNotFound (packageName cfPackage)).

(** The namespace and the pull secrets of a package object. *)
Definition packageNamespace (p : CFPackage) : string :=
  ObjectMeta_Namespace (CFPackage_ObjectMeta p).

Definition packagePullSecrets (p : CFPackage) : list string :=
  map LocalObjectReference_Name
      (Registry_ImagePullSecrets
         (PackageSource_Registry (CFPackageSpec_Source (CFPackage_Spec p)))).

Definition sampleUpdateSource : UpdatePackageSourceMessage :=
  {| UpdatePackageSourceMessage_GUID := "p1";
     UpdatePackageSourceMessage_SpaceGUID := "space-1";
     UpdatePackageSourceMessage_ImageRef := "registry/image";
     UpdatePackageSourceMessage_RegistrySecretName := "registry-secret" |}.

(** The configuration a client is constructed from. *)
Definition callConfig (c : Call) : Config :=
  match c with
  | Call_NewWithWatch config => config
  end.

Definition k8sCallConfig (c : K8sCall) : Config :=
  match c with
  | Call_NewForConfig config => config
  end.

Definition bearerInfo : Info :=
  {| Info_Token := "a-token"; Info_CertData := [] |}.

(** A configuration that carries credentials of its own. *)
Definition privilegedConfig : Config :=
  {| Config_Host := "https://store";
     Config_BearerToken := "service-token";
     Config_CertData := [Byte.x2d];
     Config_KeyData := [Byte.x2d] |}.

Definition sampleNewForConfig (config : Config) : Config + error := inl config.

(** ** Samples for the log action *)

Definition sampleApp : actions.AppRecord :=
  {| actions.AppRecord_GUID := "test-app-guid";
     actions.AppRecord_Revision := "1";
     actions.AppRecord_SpaceGUID := "test-space-guid" |}.

Definition sampleBuild : actions.BuildRecord :=
  {| actions.BuildRecord_GUID := "test-build-guid";
     actions.BuildRecord_AppGUID := "test-app-guid" |}.

Definition sampleBuildLogs : list actions.LogRecord :=
  [ {| actions.LogRecord_Message := "BuildMessage1"; actions.LogRecord_Timestamp := 1%Z |};
    {| actions.LogRecord_Message := "BuildMessage2"; actions.LogRecord_Timestamp := 2%Z |} ].

Definition sampleAppLogs : list actions.LogRecord :=
  [ {| actions.LogRecord_Message := "AppMessage1"; actions.LogRecord_Timestamp := 3%Z |};
    {| actions.LogRecord_Message := "AppMessage2"; actions.LogRecord_Timestamp := 4%Z |} ].

(** The repositories of the tests of the action: each answers with a
    fixed record and the given error. *)
Definition sampleReadAppLogs (getAppErr getBuildErr buildLogsErr runtimeLogsErr : option error)
  : actions.ReadAppLogs :=
  actions.NewReadAppLogs
    {| actions.GetApp := fun _ _ => (sampleApp, getAppErr) |}
    {| actions.GetLatestBuildByAppGUID := fun _ _ _ => (sampleBuild, getBuildErr);
       actions.GetBuildLogs := fun _ _ _ => (sampleBuildLogs, buildLogsErr) |}
    {| actions.GetRuntimeLogsForApp := fun _ _ => (sampleAppLogs, runtimeLogsErr) |}.

Definition sampleLogRead (limit : option Z) : actions.LogRead :=
  {| actions.LogRead_StartTime := None;
     actions.LogRead_EndTime := None;
     actions.LogRead_EnvelopeTypes := [];
     actions.LogRead_Limit := limit;
     actions.LogRead_Descending := None |}.

(** A conversion that leaves every error as it is. *)
Definition sampleForbiddenAsNotFound (err : error) : error := err.

(** The log limit of a request for runtime logs. *)
Definition logLimitOf (read : actions.LogRead) : Z :=
  match actions.LogRead_Limit read with
  | Some limit => limit
  | None => actions.defaultLogLimit
  end.

Definition isLogged (e : actions.Event) : bool := negb (actions.isRepositoryCall e).

(** The call requests logs, of a build or of the running application. *)
Definition isLogFetch (e : actions.Event) : bool :=
  match e with
  | actions.Called_GetBuildLogs _ _ _ => true
  | actions.Called_GetRuntimeLogsForApp _ _ => true
  | _ => false
  end.

(** ** Samples for the space manifest handler *)

(** A manifest is its text; a body parses when it is not empty. *)
Definition sampleYamlDecode (body : string) : string + error :=
  if body =? "" then inr (errorString "EOF") else inl body.

Definition sampleValidatePayload (_ : string)
  : option (apis.requestMalformedError string) := None.

Definition sampleWriteError (status : nat) (w : apis.ResponseWriter)
  : apis.ResponseWriter :=
  apis.WriteHeader w status.

Definition sampleHandler (actionErr : option error) (spaces : list apis.SpaceRecord)
  : apis.SpaceManifestHandler string unit :=
  {| apis.SpaceManifestHandler_serverURL := "https://api.example.org";
     apis.SpaceManifestHandler_applyManifestAction := fun _ _ _ => actionErr;
     apis.SpaceManifestHandler_FetchSpaces := fun _ _ => (spaces, None);
     apis.SpaceManifestHandler_buildClient := fun _ _ => (tt, None);
     apis.SpaceManifestHandler_k8sConfig := privilegedConfig |}.

Definition sampleRequest (body : string) : apis.Request :=
  {| apis.Request_Vars := [("spaceGUID", "space-1")];
     apis.Request_Header := [("Authorization", "bearer a-token")];
     apis.Request_Body := body |}.

Definition sampleSpace : apis.SpaceRecord :=
  {| apis.SpaceRecord_GUID := "space-1"; apis.SpaceRecord_Name := "my-space" |}.

(** The handlers of the sample with their collaborators. *)
Definition sampleApplyManifestHandler :=
  apis.applyManifestHandler string unit string
    sampleYamlDecode sampleValidatePayload "parse error"
    (fun _ => "Unable to parse the YAML body")
    (fun w rme => apis.WriteHeader w (apis.requestMalformedError_httpStatus string rme))
    (sampleWriteError 500).

Definition sampleValidateSpaceVisible :=
  apis.validateSpaceVisible string unit
    (sampleWriteError 500) (fun w _ => sampleWriteError 404 w).

Definition isApplyManifest {Manifest ClientT : Type}
  (e : apis.Event Manifest ClientT) : bool :=
  match e with
  | apis.Called_applyManifestAction _ _ _ _ _ => true
  | _ => false
  end.

Definition isServeHTTP {Manifest ClientT : Type}
  (e : apis.Event Manifest ClientT) : bool :=
  match e with
  | apis.Called_ServeHTTP _ _ => true
  | _ => false
  end.

(** * Properties *)

(** ** [sort.Slice] returns a sorted permutation *)

Section InsertionSort.

Context {A : Type}.
Variable less : A -> A -> bool.

Lemma siftDown_Permutation (x : A) (revp : list A) :
  Permutation (x :: revp) (siftDown less x revp).
Proof.
  induction revp as [|y r IH]; simpl.
  - reflexivity.
  - destruct (less x y).
    + eapply perm_trans; [apply perm_swap|].
      apply perm_skip. exact IH.
    + reflexivity.
Qed.

Lemma fold_siftDown_Permutation (data acc : list A) :
  Permutation (data ++ acc)
              (fold_left (fun revp x => siftDown less x revp) data acc).
Proof.
  revert acc.
  induction data as [|x l IH]; intros acc; simpl.
  - reflexivity.
  - eapply perm_trans; [|apply IH].
    eapply perm_trans; [apply Permutation_middle|].
    apply Permutation_app_head, siftDown_Permutation.
Qed.

Lemma insertionSort_Permutation (data : list A) :
  Permutation data (insertionSort_func less data).
Proof.
  unfold insertionSort_func.
  eapply perm_trans; [|apply Permutation_rev].
  rewrite <- (app_nil_r data) at 1.
  apply fold_siftDown_Permutation.
Qed.

(** [R a b]: [a] may stand before [b] in the processed prefix read
    from its end, that is after [b] in the slice. *)
Variable R : A -> A -> Prop.
Hypothesis R_trans : forall a b c, R a b -> R b c -> R a c.
Hypothesis less_false : forall x y, less x y = false -> R x y.
Hypothesis less_true : forall x y, less x y = true -> R y x.

Lemma siftDown_StronglySorted (x : A) (revp : list A) :
  StronglySorted R revp -> StronglySorted R (siftDown less x revp).
Proof.
  induction revp as [|y r IH]; intros Hs; simpl.
  - constructor; constructor.
  - apply StronglySorted_inv in Hs as [Hr Hy].
    destruct (less x y) eqn:E.
    + constructor; [now apply IH|].
      eapply Permutation_Forall; [apply siftDown_Permutation|].
      constructor; [now apply less_true | exact Hy].
    + constructor; [now constructor|].
      constructor; [now apply less_false|].
      eapply Forall_impl; [|exact Hy].
      intros z Hz. eapply R_trans; [apply less_false; exact E | exact Hz].
Qed.

Lemma fold_siftDown_StronglySorted (data acc : list A) :
  StronglySorted R acc ->
  StronglySorted R (fold_left (fun revp x => siftDown less x revp) data acc).
Proof.
  revert acc.
  induction data as [|x l IH]; intros acc Hacc; simpl.
  - exact Hacc.
  - apply IH, siftDown_StronglySorted, Hacc.
Qed.

End InsertionSort.

Lemma StronglySorted_snoc {A : Type} (S : A -> A -> Prop) (l : list A) (a : A) :
  StronglySorted S l -> Forall (fun x => S x a) l -> StronglySorted S (l ++ [a]).
Proof.
  induction l as [|b l IH]; intros Hs Hall; simpl.
  - constructor; constructor.
  - apply StronglySorted_inv in Hs as [Hl Hb].
    inversion Hall as [|? ? Hba Hla]; subst.
    constructor.
    + now apply IH.
    + apply Forall_app. split; [exact Hb|]. now constructor.
Qed.

Lemma StronglySorted_rev {A : Type} (R : A -> A -> Prop) (l : list A) :
  StronglySorted R l -> StronglySorted (fun a b => R b a) (rev l).
Proof.
  induction l as [|a l IH]; intros Hs; simpl.
  - constructor.
  - apply StronglySorted_inv in Hs as [Hl Ha].
    apply StronglySorted_snoc; [now apply IH|].
    apply Forall_rev. exact Ha.
Qed.

Lemma sort_Slice_Permutation {A : Type} (less : A -> A -> bool) (x : list A) :
  Permutation x (sort_Slice x less).
Proof. apply insertionSort_Permutation. Qed.

(** With [less] the strict order of the instants [ts], the sorted slice
    is in ascending order of [ts]. *)
Lemma sort_Slice_ascending {A : Type} (ts : A -> Time) (x : list A) :
  StronglySorted (fun a b => (ts a <= ts b)%Z)
                 (sort_Slice x (fun a b => Before (ts a) (ts b))).
Proof.
  unfold sort_Slice, insertionSort_func.
  apply (StronglySorted_rev (fun a b => (ts b <= ts a)%Z)).
  apply fold_siftDown_StronglySorted; unfold Before.
  - intros a b c; lia.
  - intros a b H; apply Z.ltb_ge in H; exact H.
  - intros a b H; apply Z.ltb_lt in H; lia.
  - constructor.
Qed.

(** With [less] the negation of that order, the sorted slice is in
    descending order of [ts]. *)
Lemma sort_Slice_descending {A : Type} (ts : A -> Time) (x : list A) :
  StronglySorted (fun a b => (ts b <= ts a)%Z)
                 (sort_Slice x (fun a b => negb (Before (ts a) (ts b)))).
Proof.
  unfold sort_Slice, insertionSort_func.
  apply (StronglySorted_rev (fun a b => (ts a <= ts b)%Z)).
  apply fold_siftDown_StronglySorted; unfold Before.
  - intros a b c; lia.
  - intros a b H; apply negb_false_iff, Z.ltb_lt in H; lia.
  - intros a b H; apply negb_true_iff, Z.ltb_ge in H; exact H.
  - constructor.
Qed.

(** ** The domain repository: errors of [GetDomain] *)

Section DomainErrors.

Variable formatTimestamp : Time -> string.
Variable getTimeLastUpdatedTimestamp : ObjectMeta -> string * option error.

Let GetDomain := GetDomain formatTimestamp getTimeLastUpdatedTimestamp.

(** C1.  When the store call of [GetDomain] fails with a status error
    whose reason is "not found" or "unauthorized", [GetDomain] returns
    the empty record and a [PermissionDeniedOrNotFoundError] for the
    resource type "Domain" (wrapping the store's error); hence any
    other such failure for the same identifier, whichever of the two
    reasons it carries, yields the same record and an error of the
    same kind, [PermissionDeniedOrNotFound]. *)
Theorem GetDomain_collapses_not_found_and_unauthorized :
  forall (r : DomainRepo) (authInfo : Info) (domainGUID : string)
         (reason : StatusReason) (message : string),
    Client_GetCFDomain (DomainRepo_privilegedClient r)
      {| NamespacedName_Namespace := ""; NamespacedName_Name := domainGUID |}
    = inr (StatusError reason message) ->
    reason = StatusReasonNotFound \/ reason = StatusReasonUnauthorized ->
    GetDomain r authInfo domainGUID
    = (DomainRecord_zero,
       Some (PermissionDeniedOrNotFoundError
               (Some (StatusError reason message)) "Domain"))
    /\ option_map errorKind (snd (GetDomain r authInfo domainGUID))
       = Some PermissionDeniedOrNotFound
    /\ forall (r' : DomainRepo) (authInfo' : Info)
              (reason' : StatusReason) (message' : string),
         Client_GetCFDomain (DomainRepo_privilegedClient r')
           {| NamespacedName_Namespace := ""; NamespacedName_Name := domainGUID |}
         = inr (StatusError reason' message') ->
         reason' = StatusReasonNotFound \/ reason' = StatusReasonUnauthorized ->
         fst (GetDomain r' authInfo' domainGUID)
         = fst (GetDomain r authInfo domainGUID)
         /\ option_map errorKind (snd (GetDomain r' authInfo' domainGUID))
            = option_map errorKind (snd (GetDomain r authInfo domainGUID)).
Proof.
  assert (Hone : forall r authInfo domainGUID reason message,
    Client_GetCFDomain (DomainRepo_privilegedClient r)
      {| NamespacedName_Namespace := ""; NamespacedName_Name := domainGUID |}
    = inr (StatusError reason message) ->
    reason = StatusReasonNotFound \/ reason = StatusReasonUnauthorized ->
    GetDomain r authInfo domainGUID
    = (DomainRecord_zero,
       Some (PermissionDeniedOrNotFoundError
               (Some (StatusError reason message)) "Domain"))).
  { intros r authInfo domainGUID reason message Hget Hreason.
    unfold GetDomain, repositories.GetDomain. rewrite Hget.
    destruct Hreason as [-> | ->]; reflexivity. }
  intros r authInfo domainGUID reason message Hget Hreason.
  pose proof (Hone _ authInfo _ _ _ Hget Hreason) as E.
  split; [exact E|]. split; [rewrite E; reflexivity|].
  intros r' authInfo' reason' message' Hget' Hreason'.
  rewrite (Hone _ authInfo' _ _ _ Hget' Hreason'), E. split; reflexivity.
Qed.

End DomainErrors.

Lemma GetDomain_collapses_not_found_and_unauthorized_witness :
  let r := NewDomainRepo (sampleClient [] [] StatusReasonUnauthorized) in
  GetDomain sampleFormat sampleLastUpdated r noAuth "domain-guid"
  = (DomainRecord_zero,
     Some (PermissionDeniedOrNotFoundError
             (Some (StatusError StatusReasonUnauthorized "store failure")) "Domain")).
Proof.
  intro r.
  apply (GetDomain_collapses_not_found_and_unauthorized
           sampleFormat sampleLastUpdated r noAuth "domain-guid"
           StatusReasonUnauthorized "store failure").
  - reflexivity.
  - right; reflexivity.
Defined.

(** ** The unprivileged client factory *)

Section ClientFactoryProperties.

Variables RESTMapper WithWatch Block : Type.
Variable Scheme : Info -> string.
Variables BearerScheme CertScheme : string.
Variable ToLower : string -> string.
Variable pem_Decode : list Byte.byte -> option Block * list Byte.byte.
Variable pem_EncodeToMemory : Block -> list Byte.byte.
Variable NewWithWatch : Config -> RESTMapper -> WithWatch + error.
Variable FromK8sError : error -> string -> error.

Let BuildClient :=
  BuildClient RESTMapper WithWatch Block Scheme BearerScheme CertScheme
              ToLower pem_Decode pem_EncodeToMemory NewWithWatch FromK8sError.

(** C4.  When the lower-cased scheme of the caller's [Info] is neither
    the bearer scheme nor the certificate scheme, [BuildClient]
    returns no client and a [NotAuthenticatedError], whose kind is
    [NotAuthenticated] and not [Unknown], and it makes no call to the
    store: no client is constructed. *)
Theorem BuildClient_unsupported_scheme_not_authenticated :
  forall (f : UnprivilegedClientFactory RESTMapper) (authInfo : Info),
    ToLower (Scheme authInfo) <> BearerScheme ->
    ToLower (Scheme authInfo) <> CertScheme ->
    BuildClient f authInfo
    = ((None,
        Some (NotAuthenticatedError
                (errorString "unsupported Authorization header scheme"))),
       [])
    /\ (forall err, snd (fst (BuildClient f authInfo)) = Some err ->
                    errorKind err = NotAuthenticated /\ errorKind err <> Unknown).
Proof.
  intros f authInfo Hb Hc.
  assert (E : BuildClient f authInfo
              = ((None,
                  Some (NotAuthenticatedError
                          (errorString "unsupported Authorization header scheme"))),
                 [])).
  { unfold BuildClient, repositories.BuildClient, configureCredentials.
    apply String.eqb_neq in Hb, Hc. rewrite Hb, Hc. reflexivity. }
  split; [exact E|].
  intros err Herr. rewrite E in Herr. simpl in Herr.
  injection Herr as <-. simpl. split; [reflexivity | discriminate].
Qed.

(** C6.  When the scheme is the certificate scheme and the certificate
    block, or the key block read from the rest of the data, fails to
    decode, [BuildClient] returns no client and the plain error of the
    failed decoding, whose kind is [Unknown], and it makes no call to
    the store: no client, authenticated or not, is constructed. *)
Theorem BuildClient_malformed_pem_fails_before_any_call :
  forall (f : UnprivilegedClientFactory RESTMapper) (authInfo : Info),
    CertScheme <> BearerScheme ->
    ToLower (Scheme authInfo) = CertScheme ->
    fst (pem_Decode (Info_CertData authInfo)) = None
    \/ fst (pem_Decode (snd (pem_Decode (Info_CertData authInfo)))) = None ->
    exists err,
      BuildClient f authInfo = ((None, Some err), [])
      /\ errorKind err = Unknown
      /\ (err = errorString "failed to decode cert PEM"
          \/ err = errorString "failed to decode key PEM").
Proof.
  intros f authInfo Hne Hs Hbad.
  unfold BuildClient, repositories.BuildClient, configureCredentials.
  rewrite Hs. apply String.eqb_neq in Hne. rewrite Hne, String.eqb_refl.
  destruct (pem_Decode (Info_CertData authInfo)) as [[certBlock|] rst] eqn:Ecert;
    simpl in Hbad.
  - destruct Hbad as [Hbad | Hbad]; [discriminate|].
    destruct (pem_Decode rst) as [[keyBlock|] rst'] eqn:Ekey;
      simpl in Hbad; [discriminate|].
    eexists. split; [reflexivity|]. split; [reflexivity | right; reflexivity].
  - eexists. split; [reflexivity|]. split; [reflexivity | left; reflexivity].
Qed.

End ClientFactoryProperties.

Lemma BuildClient_unsupported_scheme_not_authenticated_witness :
  sampleToLower (sampleScheme noAuth) <> "bearer"
  /\ sampleToLower (sampleScheme noAuth) <> "clientcert"
  /\ BuildClient unit Config (list Byte.byte) sampleScheme "bearer" "clientcert"
       sampleToLower samplePemDecode (fun b => b) sampleNewWithWatch
       sampleFromK8sError sampleFactory noAuth
     = ((None,
         Some (NotAuthenticatedError
                 (errorString "unsupported Authorization header scheme"))),
        []).
Proof.
  assert (Hb : sampleToLower (sampleScheme noAuth) <> "bearer")
    by (vm_compute; discriminate).
  assert (Hc : sampleToLower (sampleScheme noAuth) <> "clientcert")
    by (vm_compute; discriminate).
  split; [exact Hb|]. split; [exact Hc|].
  apply (BuildClient_unsupported_scheme_not_authenticated
           unit Config (list Byte.byte) sampleScheme "bearer" "clientcert"
           sampleToLower samplePemDecode (fun b => b) sampleNewWithWatch
           sampleFromK8sError sampleFactory noAuth Hb Hc).
Defined.

Lemma BuildClient_malformed_pem_fails_before_any_call_witness :
  exists err,
    BuildClient unit Config (list Byte.byte) sampleScheme "bearer" "clientcert"
      sampleToLower samplePemDecode (fun b => b) sampleNewWithWatch
      sampleFromK8sError sampleFactory certOnly
    = ((None, Some err), [])
    /\ errorKind err = Unknown
    /\ (err = errorString "failed to decode cert PEM"
        \/ err = errorString "failed to decode key PEM").
Proof.
  apply (BuildClient_malformed_pem_fails_before_any_call
           unit Config (list Byte.byte) sampleScheme "bearer" "clientcert"
           sampleToLower samplePemDecode (fun b => b) sampleNewWithWatch
           sampleFromK8sError sampleFactory certOnly).
  - discriminate.
  - reflexivity.
  - right; reflexivity.
Defined.

(** ** Filtering and ordering of domains *)

Lemma nonEmpty_true {A : Type} (l : list A) : l <> [] -> nonEmpty l = true.
Proof. destruct l; [congruence | reflexivity]. Qed.

Lemma applyDomainListFilterAndOrder_ascending domainList message :
  StronglySorted (fun a b => (domainCreated a <= domainCreated b)%Z)
                 (applyDomainListFilterAndOrder domainList message).
Proof.
  unfold applyDomainListFilterAndOrder.
  apply (sort_Slice_ascending domainCreated).
Qed.

(** The filter loop appends a domain once for every entry of the list of
    names that equals its name. *)
Lemma count_occ_name_loop (d d0 : CFDomain) (names : list string) :
  count_occ CFDomain_eq_dec
    (flat_map (fun name => if CFDomainSpec_Name (CFDomain_Spec d) =? name
                           then [d] else []) names) d0
  = if CFDomain_eq_dec d d0
    then count_occ string_dec names (CFDomainSpec_Name (CFDomain_Spec d))
    else 0.
Proof.
  induction names as [|n names IH]; simpl.
  - now destruct (CFDomain_eq_dec d d0).
  - rewrite count_occ_app, IH.
    destruct (String.eqb_spec (CFDomainSpec_Name (CFDomain_Spec d)) n) as [E|E];
      simpl;
      destruct (CFDomain_eq_dec d d0);
      destruct (string_dec n (CFDomainSpec_Name (CFDomain_Spec d)));
      try lia; congruence.
Qed.

Lemma count_occ_domain_loop (domainList : list CFDomain) (names : list string)
  (d0 : CFDomain) :
  count_occ CFDomain_eq_dec
    (flat_map
       (fun domain =>
          flat_map (fun name => if CFDomainSpec_Name (CFDomain_Spec domain) =? name
                                then [domain] else []) names)
       domainList) d0
  = count_occ string_dec names (CFDomainSpec_Name (CFDomain_Spec d0))
    * count_occ CFDomain_eq_dec domainList d0.
Proof.
  induction domainList as [|d l IH]; simpl.
  - lia.
  - rewrite count_occ_app, IH, count_occ_name_loop.
    destruct (CFDomain_eq_dec d d0) as [->|]; lia.
Qed.

Lemma count_occ_applyDomainListFilterAndOrder domainList message d0 :
  ListDomainsMessage_Names message <> [] ->
  count_occ CFDomain_eq_dec (applyDomainListFilterAndOrder domainList message) d0
  = count_occ string_dec (ListDomainsMessage_Names message)
                         (CFDomainSpec_Name (CFDomain_Spec d0))
    * count_occ CFDomain_eq_dec domainList d0.
Proof.
  intros Hne. unfold applyDomainListFilterAndOrder.
  rewrite (nonEmpty_true _ Hne).
  rewrite <- count_occ_domain_loop.
  symmetry. apply Permutation_count_occ, sort_Slice_Permutation.
Qed.

Lemma count_occ_map_le {A B : Type}
  (decA : forall x y : A, {x = y} + {x <> y})
  (decB : forall x y : B, {x = y} + {x <> y})
  (f : A -> B) (l : list A) (x : A) :
  count_occ decA l x <= count_occ decB (map f l) (f x).
Proof.
  induction l as [|a l IH]; simpl; [lia|].
  destruct (decA a x) as [E|E]; destruct (decB (f a) (f x)) as [E'|E'];
    try lia; congruence.
Qed.

Lemma single_name_loop (domainList : list CFDomain) (domainName : string) :
  flat_map
    (fun domain =>
       flat_map (fun name => if CFDomainSpec_Name (CFDomain_Spec domain) =? name
                             then [domain] else []) [domainName])
    domainList
  = filter (fun d => CFDomainSpec_Name (CFDomain_Spec d) =? domainName) domainList.
Proof.
  induction domainList as [|d l IH]; simpl in *; [reflexivity|].
  rewrite IH, app_nil_r.
  now destruct (CFDomainSpec_Name (CFDomain_Spec d) =? domainName).
Qed.

Lemma unmatched_name_inner_loop (d : CFDomain) (names : list string) :
  existsb (fun name => CFDomainSpec_Name (CFDomain_Spec d) =? name) names = false ->
  flat_map (fun name => if CFDomainSpec_Name (CFDomain_Spec d) =? name
                        then [d] else []) names
  = [].
Proof.
  induction names as [|n names IHn]; simpl; intros H; [reflexivity|].
  apply orb_false_iff in H as [Hn Hrest].
  rewrite Hn. simpl. now apply IHn.
Qed.

Lemma unmatched_name_loop (domainList : list CFDomain) (names : list string) :
  (forall d, In d domainList ->
             existsb (fun name => CFDomainSpec_Name (CFDomain_Spec d) =? name) names
             = false) ->
  flat_map
    (fun domain =>
       flat_map (fun name => if CFDomainSpec_Name (CFDomain_Spec domain) =? name
                             then [domain] else []) names)
    domainList
  = [].
Proof.
  induction domainList as [|d l IH]; intros H; simpl; [reflexivity|].
  rewrite IH by (intros d' Hd'; apply H; now right).
  rewrite app_nil_r.
  apply unmatched_name_inner_loop, H. now left.
Qed.

Section DomainListing.

Variable formatTimestamp : Time -> string.
Variable getTimeLastUpdatedTimestamp : ObjectMeta -> string * option error.

Let cfDomainToDomainRecord :=
  cfDomainToDomainRecord formatTimestamp getTimeLastUpdatedTimestamp.
Let ListDomains := ListDomains formatTimestamp getTimeLastUpdatedTimestamp.
Let GetDomainByName := GetDomainByName formatTimestamp getTimeLastUpdatedTimestamp.

Lemma ListDomains_listed r authInfo message items :
  Client_ListCFDomain (DomainRepo_privilegedClient r) = inl items ->
  ListDomains r authInfo message
  = (map cfDomainToDomainRecord (applyDomainListFilterAndOrder items message),
     None).
Proof.
  intros H. unfold ListDomains, repositories.ListDomains. rewrite H. reflexivity.
Qed.

(** C9.  When the store lists two or more domains carrying the
    requested name, [GetDomainByName] succeeds: it returns, without
    error, the record of a listed domain of that name whose creation
    time is the earliest among the listed domains of that name. *)
Theorem GetDomainByName_returns_earliest_of_duplicates :
  forall (r : DomainRepo) (authInfo : Info) (domainName : string)
         (items : list CFDomain),
    Client_ListCFDomain (DomainRepo_privilegedClient r) = inl items ->
    2 <= List.length
           (filter (fun d => CFDomainSpec_Name (CFDomain_Spec d) =? domainName)
                   items) ->
    exists d,
      In d items
      /\ CFDomainSpec_Name (CFDomain_Spec d) = domainName
      /\ (forall d', In d' items ->
                     CFDomainSpec_Name (CFDomain_Spec d') = domainName ->
                     (domainCreated d <= domainCreated d')%Z)
      /\ GetDomainByName r authInfo domainName = (cfDomainToDomainRecord d, None).
Proof.
  intros r authInfo domainName items Hlist Htwo.
  unfold GetDomainByName, repositories.GetDomainByName.
  fold ListDomains. rewrite (ListDomains_listed _ _ _ _ Hlist).
  pose proof (applyDomainListFilterAndOrder_ascending items
                {| ListDomainsMessage_Names := [domainName] |}) as Hsorted.
  assert (Hperm :
    Permutation
      (filter (fun d => CFDomainSpec_Name (CFDomain_Spec d) =? domainName) items)
      (applyDomainListFilterAndOrder items
         {| ListDomainsMessage_Names := [domainName] |})).
  { unfold applyDomainListFilterAndOrder. simpl nonEmpty. cbv iota.
    cbn [ListDomainsMessage_Names].
    rewrite single_name_loop. apply sort_Slice_Permutation. }
  destruct (applyDomainListFilterAndOrder items
              {| ListDomainsMessage_Names := [domainName] |})
    as [|d rest] eqn:E.
  - apply Permutation_length in Hperm. simpl in Hperm. lia.
  - simpl. exists d.
    assert (Hd : In d (filter (fun d => CFDomainSpec_Name (CFDomain_Spec d)
                                        =? domainName) items)).
    { eapply Permutation_in; [apply Permutation_sym, Hperm | now left]. }
    apply filter_In in Hd as [Hin Hname]. apply String.eqb_eq in Hname.
    split; [exact Hin|]. split; [exact Hname|]. split; [|reflexivity].
    intros d' Hin' Hname'.
    assert (Hd' : In d' (d :: rest)).
    { eapply Permutation_in; [apply Hperm|].
      apply filter_In. split; [exact Hin'|]. now apply String.eqb_eq. }
    apply StronglySorted_inv in Hsorted as [_ Hall].
    destruct Hd' as [<- | Hd']; [lia|].
    rewrite Forall_forall in Hall. now apply Hall.
Qed.

(** C10.  When the list of names of the message is not empty, the
    list that [ListDomains] returns is the list of the records of
    store objects in which every listed domain occurs once for every
    entry of the list of names equal to its name (times its number of
    occurrences in the store's listing): a name given [n] times makes
    each domain of that name appear [n] times, and the record of such
    a domain occurs at least as often among the returned records. *)
Theorem ListDomains_repeats_domain_per_matching_name :
  forall (r : DomainRepo) (authInfo : Info) (message : ListDomainsMessage)
         (items : list CFDomain),
    Client_ListCFDomain (DomainRepo_privilegedClient r) = inl items ->
    ListDomainsMessage_Names message <> [] ->
    exists objs,
      ListDomains r authInfo message = (map cfDomainToDomainRecord objs, None)
      /\ (forall d,
            count_occ CFDomain_eq_dec objs d
            = count_occ string_dec (ListDomainsMessage_Names message)
                                   (CFDomainSpec_Name (CFDomain_Spec d))
              * count_occ CFDomain_eq_dec items d)
      /\ (forall d,
            count_occ string_dec (ListDomainsMessage_Names message)
                                 (CFDomainSpec_Name (CFDomain_Spec d))
            * count_occ CFDomain_eq_dec items d
            <= count_occ DomainRecord_eq_dec
                         (fst (ListDomains r authInfo message))
                         (cfDomainToDomainRecord d)).
Proof.
  intros r authInfo message items Hlist Hne.
  exists (applyDomainListFilterAndOrder items message).
  rewrite (ListDomains_listed _ _ _ _ Hlist).
  split; [reflexivity|]. split.
  - intros d. now apply count_occ_applyDomainListFilterAndOrder.
  - intros d. simpl fst.
    rewrite <- (count_occ_applyDomainListFilterAndOrder items message d Hne).
    apply count_occ_map_le.
Qed.

End DomainListing.

Lemma GetDomainByName_returns_earliest_of_duplicates_witness :
  let r := NewDomainRepo (sampleClient sampleDomains [] StatusReasonNotFound) in
  exists d,
    In d sampleDomains
    /\ CFDomainSpec_Name (CFDomain_Spec d) = "example.com"
    /\ (forall d',
          In d' sampleDomains ->
          CFDomainSpec_Name (CFDomain_Spec d') = "example.com" ->
          (domainCreated d <= domainCreated d')%Z)
    /\ GetDomainByName sampleFormat sampleLastUpdated r noAuth "example.com"
       = (cfDomainToDomainRecord sampleFormat sampleLastUpdated d, None).
Proof.
  intro r.
  apply (GetDomainByName_returns_earliest_of_duplicates
           sampleFormat sampleLastUpdated r noAuth "example.com").
  - reflexivity.
  - simpl. lia.
Defined.

Lemma ListDomains_repeats_domain_per_matching_name_witness :
  let r := NewDomainRepo (sampleClient sampleDomains [] StatusReasonNotFound) in
  let message :=
    {| ListDomainsMessage_Names := ["example.com"; "example.com"] |} in
  exists objs,
    ListDomains sampleFormat sampleLastUpdated r noAuth message
    = (map (cfDomainToDomainRecord sampleFormat sampleLastUpdated) objs, None)
    /\ (forall d,
          count_occ CFDomain_eq_dec objs d
          = count_occ string_dec (ListDomainsMessage_Names message)
                                 (CFDomainSpec_Name (CFDomain_Spec d))
            * count_occ CFDomain_eq_dec sampleDomains d)
    /\ (forall d,
          count_occ string_dec (ListDomainsMessage_Names message)
                               (CFDomainSpec_Name (CFDomain_Spec d))
          * count_occ CFDomain_eq_dec sampleDomains d
          <= count_occ DomainRecord_eq_dec
                       (fst (ListDomains sampleFormat sampleLastUpdated r noAuth
                                         message))
                       (cfDomainToDomainRecord sampleFormat sampleLastUpdated d)).
Proof.
  intros r message.
  apply (ListDomains_repeats_domain_per_matching_name
           sampleFormat sampleLastUpdated r noAuth message sampleDomains).
  - reflexivity.
  - discriminate.
Defined.

(** ** Filtering and ordering of packages *)

Lemma filter_map_commute {A B : Type} (f : B -> bool) (g : A -> B) (l : list A) :
  filter f (map g l) = map g (filter (fun x => f (g x)) l).
Proof.
  induction l as [|a l IH]; simpl; [reflexivity|].
  rewrite IH. now destruct (f (g a)).
Qed.

Lemma filter_andb {A : Type} (f g : A -> bool) (l : list A) :
  filter g (filter f l) = filter (fun x => f x && g x) l.
Proof.
  induction l as [|a l IH]; simpl; [reflexivity|].
  destruct (f a); simpl; [destruct (g a)|]; now rewrite IH.
Qed.

Lemma filter_all {A : Type} (l : list A) : filter (fun _ => true) l = l.
Proof. induction l as [|a l IH]; simpl; [reflexivity | now rewrite IH]. Qed.

Lemma filter_none {A : Type} (f : A -> bool) (l : list A) :
  (forall x, In x l -> f x = false) -> filter f l = [].
Proof.
  induction l as [|a l IH]; intros H; simpl; [reflexivity|].
  rewrite (H a (or_introl eq_refl)). apply IH. intros x Hx. apply H. now right.
Qed.

Lemma StronglySorted_filter {A : Type} (R : A -> A -> Prop) (f : A -> bool)
  (l : list A) :
  StronglySorted R l -> StronglySorted R (filter f l).
Proof.
  induction l as [|a l IH]; intros Hs; simpl; [constructor|].
  apply StronglySorted_inv in Hs as [Hl Ha].
  destruct (f a); [|now apply IH].
  constructor; [now apply IH|].
  rewrite Forall_forall in *. intros x Hx. apply Ha.
  apply filter_In in Hx. tauto.
Qed.

(** The two loops of [applyPackageFilter] keep the records that pass
    both filters, in their order. *)
Lemma applyPackageFilter_filter packages message :
  applyPackageFilter packages message = filter (packageMatches message) packages.
Proof.
  unfold applyPackageFilter, packageMatches.
  destruct (nonEmpty (ListPackagesMessage_AppGUIDs message));
    destruct (nonEmpty (ListPackagesMessage_States message)); simpl.
  - apply filter_andb.
  - apply filter_ext. intros a. now rewrite andb_true_r.
  - reflexivity.
  - symmetry. apply filter_all.
Qed.

Lemma orderPackages_Permutation packages message :
  Permutation packages (orderPackages packages message).
Proof. apply sort_Slice_Permutation. Qed.

Lemma orderPackages_sorted packages message :
  if descendingRequested message
  then StronglySorted (fun a b => (packageCreated b <= packageCreated a)%Z)
                      (orderPackages packages message)
  else StronglySorted (fun a b => (packageCreated a <= packageCreated b)%Z)
                      (orderPackages packages message).
Proof.
  unfold orderPackages, descendingRequested.
  destruct ((ListPackagesMessage_SortBy message =? "created_at")
            && ListPackagesMessage_DescendingOrder message).
  - apply (sort_Slice_descending packageCreated).
  - apply (sort_Slice_ascending packageCreated).
Qed.

Section Listing.

Variable formatTimestamp : Time -> string.
Variable getTimeLastUpdatedTimestamp : ObjectMeta -> string * option error.

Let cfDomainToDomainRecord :=
  cfDomainToDomainRecord formatTimestamp getTimeLastUpdatedTimestamp.
Let cfPackageToPackageRecord :=
  cfPackageToPackageRecord formatTimestamp getTimeLastUpdatedTimestamp.
Let ListDomains := ListDomains formatTimestamp getTimeLastUpdatedTimestamp.
Let ListPackages := ListPackages formatTimestamp getTimeLastUpdatedTimestamp.

Lemma ListPackages_listed r authInfo message items :
  Client_ListCFPackage (PackageRepo_privilegedClient r) = inl items ->
  ListPackages r authInfo message
  = (map cfPackageToPackageRecord
         (filter (fun p => packageMatches message (cfPackageToPackageRecord p))
                 (orderPackages items message)),
     None).
Proof.
  intros H. unfold ListPackages, repositories.ListPackages. rewrite H.
  unfold convertToPackageRecords.
  rewrite applyPackageFilter_filter, filter_map_commute. reflexivity.
Qed.

(** C2, as amended.  [ListDomains] returns the records of listed
    objects in ascending order of creation time.  [ListPackages]
    returns the records of listed objects in ascending order of
    creation time, and in descending order exactly when the message
    asks for it ([SortBy] is "created_at" and [DescendingOrder] is
    set).  Creation time is the only sort key: nothing orders two
    objects created at the same instant by their identifier.  The
    result is determined by the listing the store returns and the
    message, so a repeated call on an unchanged listing returns the
    same records in the same order. *)
Theorem list_operations_order_by_creation_time_only :
  forall (dr : DomainRepo) (pr : PackageRepo) (authInfo : Info)
         (dmessage : ListDomainsMessage) (pmessage : ListPackagesMessage)
         (ditems : list CFDomain) (pitems : list CFPackage),
    Client_ListCFDomain (DomainRepo_privilegedClient dr) = inl ditems ->
    Client_ListCFPackage (PackageRepo_privilegedClient pr) = inl pitems ->
    (exists objs,
        ListDomains dr authInfo dmessage = (map cfDomainToDomainRecord objs, None)
        /\ (forall d, In d objs -> In d ditems)
        /\ StronglySorted (fun a b => (domainCreated a <= domainCreated b)%Z) objs)
    /\ (exists objs,
           ListPackages pr authInfo pmessage
           = (map cfPackageToPackageRecord objs, None)
           /\ (forall p, In p objs -> In p pitems)
           /\ (if descendingRequested pmessage
               then StronglySorted
                      (fun a b => (packageCreated b <= packageCreated a)%Z) objs
               else StronglySorted
                      (fun a b => (packageCreated a <= packageCreated b)%Z) objs))
    /\ (forall (dr' : DomainRepo) (authInfo' : Info),
           Client_ListCFDomain (DomainRepo_privilegedClient dr') = inl ditems ->
           ListDomains dr' authInfo' dmessage = ListDomains dr authInfo dmessage)
    /\ (forall (pr' : PackageRepo) (authInfo' : Info),
           Client_ListCFPackage (PackageRepo_privilegedClient pr') = inl pitems ->
           ListPackages pr' authInfo' pmessage = ListPackages pr authInfo pmessage).
Proof.
  intros dr pr authInfo dmessage pmessage ditems pitems Hd Hp.
  split; [|split; [|split]].
  - exists (applyDomainListFilterAndOrder ditems dmessage).
    split; [now apply ListDomains_listed|].
    split; [|apply applyDomainListFilterAndOrder_ascending].
    intros d Hin.
    unfold applyDomainListFilterAndOrder in Hin.
    apply (Permutation_in _ (Permutation_sym (sort_Slice_Permutation _ _))) in Hin.
    destruct (nonEmpty (ListDomainsMessage_Names dmessage)); [|exact Hin].
    apply in_flat_map in Hin as [d' [Hd' Hin]].
    apply in_flat_map in Hin as [n [_ Hin]].
    destruct (CFDomainSpec_Name (CFDomain_Spec d') =? n); simpl in Hin;
      [|contradiction].
    destruct Hin as [<- | []]. exact Hd'.
  - exists (filter (fun p => packageMatches pmessage (cfPackageToPackageRecord p))
                   (orderPackages pitems pmessage)).
    split; [now apply ListPackages_listed|]. split.
    + intros p Hin. apply filter_In in Hin as [Hin _].
      eapply Permutation_in;
        [apply Permutation_sym, orderPackages_Permutation | exact Hin].
    + pose proof (orderPackages_sorted pitems pmessage) as Hs.
      destruct (descendingRequested pmessage);
        now apply StronglySorted_filter.
  - intros dr' authInfo' Hd'. unfold ListDomains.
    now rewrite (ListDomains_listed _ _ _ _ _ _ Hd'), (ListDomains_listed _ _ _ _ _ _ Hd).
  - intros pr' authInfo' Hp'.
    now rewrite (ListPackages_listed _ _ _ _ Hp'), (ListPackages_listed _ _ _ _ Hp).
Qed.

(** C7, as amended.  With an empty filter set the list operations
    return the records of the whole listing, ordered by creation time:
    ascending for [ListDomains]; for [ListPackages] ascending unless
    the message asks for the descending order, and descending then.
    With a filter set that no listed object passes they return the
    empty list and no error. *)
Theorem list_operations_empty_and_unmatched_filters :
  forall (dr : DomainRepo) (pr : PackageRepo) (authInfo : Info)
         (dmessage : ListDomainsMessage) (pmessage : ListPackagesMessage)
         (ditems : list CFDomain) (pitems : list CFPackage),
    Client_ListCFDomain (DomainRepo_privilegedClient dr) = inl ditems ->
    Client_ListCFPackage (PackageRepo_privilegedClient pr) = inl pitems ->
    (ListDomainsMessage_Names dmessage = [] ->
     exists objs,
       ListDomains dr authInfo dmessage = (map cfDomainToDomainRecord objs, None)
       /\ Permutation ditems objs
       /\ StronglySorted (fun a b => (domainCreated a <= domainCreated b)%Z) objs)
    /\ (ListPackagesMessage_AppGUIDs pmessage = [] ->
        ListPackagesMessage_States pmessage = [] ->
        exists objs,
          ListPackages pr authInfo pmessage
          = (map cfPackageToPackageRecord objs, None)
          /\ Permutation pitems objs
          /\ (if descendingRequested pmessage
              then StronglySorted
                     (fun a b => (packageCreated b <= packageCreated a)%Z) objs
              else StronglySorted
                     (fun a b => (packageCreated a <= packageCreated b)%Z) objs))
    /\ ((forall d, In d ditems -> domainMatches dmessage d = false) ->
        ListDomains dr authInfo dmessage = ([], None))
    /\ ((forall p, In p pitems ->
                   packageMatches pmessage (cfPackageToPackageRecord p) = false) ->
        ListPackages pr authInfo pmessage = ([], None)).
Proof.
  intros dr pr authInfo dmessage pmessage ditems pitems Hd Hp.
  split; [|split; [|split]].
  - intros Hnames.
    exists (applyDomainListFilterAndOrder ditems dmessage).
    split; [now apply ListDomains_listed|].
    split; [|apply applyDomainListFilterAndOrder_ascending].
    unfold applyDomainListFilterAndOrder. rewrite Hnames. simpl.
    apply sort_Slice_Permutation.
  - intros Happs Hstates.
    exists (orderPackages pitems pmessage).
    split; [|split; [apply orderPackages_Permutation | apply orderPackages_sorted]].
    rewrite (ListPackages_listed _ _ _ _ Hp). f_equal. f_equal.
    rewrite (filter_ext _ (fun _ => true)); [apply filter_all|].
    intros p. unfold packageMatches. now rewrite Happs, Hstates.
  - intros Hnone. unfold ListDomains.
    rewrite (ListDomains_listed _ _ _ _ _ _ Hd).
    unfold applyDomainListFilterAndOrder.
    destruct ditems as [|d0 ditems'].
    + now destruct (nonEmpty (ListDomainsMessage_Names dmessage)).
    + assert (Hne : nonEmpty (ListDomainsMessage_Names dmessage) = true).
      { specialize (Hnone d0 (or_introl eq_refl)). unfold domainMatches in Hnone.
        apply orb_false_iff in Hnone as [Hn _].
        now apply negb_false_iff in Hn. }
      rewrite Hne, unmatched_name_loop; [reflexivity|].
      intros d Hin. specialize (Hnone d Hin). unfold domainMatches in Hnone.
      now apply orb_false_iff in Hnone as [_ Hn].
  - intros Hnone.
    rewrite (ListPackages_listed _ _ _ _ Hp), filter_none; [reflexivity|].
    intros p Hin. apply Hnone.
    eapply Permutation_in;
      [apply Permutation_sym, orderPackages_Permutation | exact Hin].
Qed.

End Listing.

Lemma list_operations_order_by_creation_time_only_witness :
  exists objs,
    ListPackages sampleFormat sampleLastUpdated (samplePackageRepo samplePackages)
                 noAuth noPackageFilterDescending
    = (map (cfPackageToPackageRecord sampleFormat sampleLastUpdated) objs, None)
    /\ (forall p, In p objs -> In p samplePackages)
    /\ StronglySorted (fun a b => (packageCreated b <= packageCreated a)%Z) objs.
Proof.
  destruct (list_operations_order_by_creation_time_only
              sampleFormat sampleLastUpdated
              (sampleDomainRepo sampleDomains) (samplePackageRepo samplePackages)
              noAuth noDomainFilter noPackageFilterDescending
              sampleDomains samplePackages eq_refl eq_refl)
    as [_ [H _]].
  exact H.
Defined.

(** C2, counterexample.  Two domains, and two packages, created at the
    same instant come back in the order of the store's listing, whichever
    it is: with the identifier "b" before "a" for one listing and "a"
    before "b" for the other.  No order of the identifiers decides. *)
Lemma list_operations_ties_not_ordered_by_identifier :
  domainCreated domainA = domainCreated domainB
  /\ map DomainRecord_GUID
         (fst (ListDomains sampleFormat sampleLastUpdated
                 (sampleDomainRepo [domainB; domainA]) noAuth noDomainFilter))
     = ["b"; "a"]
  /\ map DomainRecord_GUID
         (fst (ListDomains sampleFormat sampleLastUpdated
                 (sampleDomainRepo [domainA; domainB]) noAuth noDomainFilter))
     = ["a"; "b"]
  /\ packageCreated packageTA = packageCreated packageTB
  /\ map PackageRecord_GUID
         (fst (ListPackages sampleFormat sampleLastUpdated
                 (samplePackageRepo [packageTB; packageTA]) noAuth noPackageFilter))
     = ["b"; "a"]
  /\ map PackageRecord_GUID
         (fst (ListPackages sampleFormat sampleLastUpdated
                 (samplePackageRepo [packageTA; packageTB]) noAuth noPackageFilter))
     = ["a"; "b"].
Proof. repeat split; reflexivity. Qed.

Lemma list_operations_empty_and_unmatched_filters_witness :
  exists objs,
    ListPackages sampleFormat sampleLastUpdated (samplePackageRepo samplePackages)
                 noAuth noPackageFilterDescending
    = (map (cfPackageToPackageRecord sampleFormat sampleLastUpdated) objs, None)
    /\ Permutation samplePackages objs
    /\ StronglySorted (fun a b => (packageCreated b <= packageCreated a)%Z) objs.
Proof.
  destruct (list_operations_empty_and_unmatched_filters
              sampleFormat sampleLastUpdated
              (sampleDomainRepo sampleDomains) (samplePackageRepo samplePackages)
              noAuth noDomainFilter noPackageFilterDescending
              sampleDomains samplePackages eq_refl eq_refl)
    as [_ [H _]].
  exact (H eq_refl eq_refl).
Defined.

(** C7, counterexample.  The filter set of the message is empty and the
    message asks for the descending order: [ListPackages] returns the
    whole collection with the package created last first, which is not
    the ascending order of creation time. *)
Lemma ListPackages_empty_filter_descending_not_ascending :
  ListPackagesMessage_AppGUIDs noPackageFilterDescending = []
  /\ ListPackagesMessage_States noPackageFilterDescending = []
  /\ map PackageRecord_GUID
         (fst (ListPackages sampleFormat sampleLastUpdated
                 (samplePackageRepo [packageP1; packageP2; packageP3]) noAuth
                 noPackageFilterDescending))
     = ["p3"; "p2"; "p1"]
  /\ (packageCreated packageP1 < packageCreated packageP2)%Z
  /\ (packageCreated packageP2 < packageCreated packageP3)%Z.
Proof. repeat split; reflexivity. Qed.

(** The scenario of the specification: of three packages, the one that
    belongs to the application and is ready is returned. *)
Example ListPackages_ready_packages_of_a1 :
  map PackageRecord_GUID
      (fst (ListPackages sampleFormat sampleLastUpdated
              (samplePackageRepo samplePackages) noAuth readyPackagesOfA1))
  = ["p2"].
Proof. reflexivity. Qed.

(** ** Get by identifier rejects duplicates *)

Section GetByIdentifier.

Variable formatTimestamp : Time -> string.
Variable getTimeLastUpdatedTimestamp : ObjectMeta -> string * option error.

Let GetPackage := GetPackage formatTimestamp getTimeLastUpdatedTimestamp.
Let GetRoute := GetRoute formatTimestamp getTimeLastUpdatedTimestamp.

(** C5.  When more than one listed package carries the requested
    identifier, [GetPackage] returns the empty record and the error
    "duplicate packages exist"; when more than one route of the store
    carries it, [GetRoute] returns the empty record and the error
    "duplicate route GUID exists".  Neither error is of the
    permission-denied-or-not-found kind, and no record of a matching
    object is returned. *)
Theorem get_by_identifier_fails_on_duplicates :
  (forall (r : PackageRepo) (authInfo : Info) (guid : string)
          (items : list CFPackage),
      Client_ListCFPackage (PackageRepo_privilegedClient r) = inl items ->
      2 <= List.length (filterPackagesByMetadataName items guid) ->
      exists err,
        GetPackage r authInfo guid = (PackageRecord_zero, Some err)
        /\ err = errors_New "duplicate packages exist"
        /\ errorKind err <> PermissionDeniedOrNotFound)
  /\ (forall (w : World) (authInfo : Info) (guid : string),
         2 <= List.length (filterRoutesByMetadataName (storeList w) guid) ->
         exists err,
           GetRoute w authInfo guid = (RouteRecord_zero, Some err)
           /\ err = errors_New "duplicate route GUID exists"
           /\ errorKind err <> PermissionDeniedOrNotFound).
Proof.
  split.
  - intros r authInfo guid items Hlist Htwo.
    unfold GetPackage, repositories.GetPackage. rewrite Hlist.
    destruct (filterPackagesByMetadataName items guid) as [|p [|q rest]];
      simpl in Htwo; try lia.
    eexists. split; [reflexivity|]. split; [reflexivity | discriminate].
  - intros w authInfo guid Htwo.
    unfold GetRoute, repositories.GetRoute.
    destruct (filterRoutesByMetadataName (storeList w) guid) as [|p [|q rest]];
      simpl in Htwo; try lia.
    eexists. split; [reflexivity|]. split; [reflexivity | discriminate].
Qed.

End GetByIdentifier.

Lemma get_by_identifier_fails_on_duplicates_witness :
  (exists err,
      GetPackage sampleFormat sampleLastUpdated
        (samplePackageRepo [packageQ1; packageP1; packageQ2]) noAuth "q"
      = (PackageRecord_zero, Some err)
      /\ err = errors_New "duplicate packages exist"
      /\ errorKind err <> PermissionDeniedOrNotFound)
  /\ (exists err,
         GetRoute sampleFormat sampleLastUpdated
           (sampleWorld [route1; route2; route1A]) noAuth "route-1"
         = (RouteRecord_zero, Some err)
         /\ err = errors_New "duplicate route GUID exists"
         /\ errorKind err <> PermissionDeniedOrNotFound).
Proof.
  destruct (get_by_identifier_fails_on_duplicates sampleFormat sampleLastUpdated)
    as [Hp Hr].
  split.
  - apply (Hp (samplePackageRepo [packageQ1; packageP1; packageQ2]) noAuth "q"
              [packageQ1; packageP1; packageQ2]).
    + reflexivity.
    + simpl. lia.
  - apply (Hr (sampleWorld [route1; route2; route1A]) noAuth "route-1").
    simpl. lia.
Defined.

(** ** Merging destinations without duplicates *)

Lemma key_eqb_eq (a b : DestinationKey) : key_eqb a b = true <-> a = b.
Proof.
  destruct a as [[[a1 a2] a3] a4], b as [[[b1 b2] b3] b4]. simpl.
  rewrite !andb_true_iff, !String.eqb_eq, Z.eqb_eq.
  split.
  - intros [[[-> ->] ->] ->]. reflexivity.
  - intros E. injection E as -> -> -> ->. auto.
Qed.

Lemma hasKey_In (k : DestinationKey) (keys : list DestinationKey) :
  hasKey k keys = true <-> In k keys.
Proof.
  unfold hasKey. rewrite existsb_exists. split.
  - intros [x [Hx E]]. apply key_eqb_eq in E. now subst.
  - intros H. exists k. split; [exact H | now apply key_eqb_eq].
Qed.

Lemma hasKey_not_In (k : DestinationKey) (keys : list DestinationKey) :
  hasKey k keys = false <-> ~ In k keys.
Proof.
  rewrite <- hasKey_In. destruct (hasKey k keys); split; congruence.
Qed.

Lemma dedupDestinations_keys (requested : list DestinationMessage) :
  forall (seen : list DestinationKey) (k : DestinationKey),
    In k (map keyOfMessage (dedupDestinations seen requested))
    <-> In k (map keyOfMessage requested) /\ ~ In k seen.
Proof.
  induction requested as [|d rest IH]; intros seen k; simpl.
  - tauto.
  - destruct (hasKey (keyOfMessage d) seen) eqn:E.
    + apply hasKey_In in E. rewrite IH. split.
      * tauto.
      * intros [[<- | H] Hn]; [contradiction | tauto].
    + apply hasKey_not_In in E. simpl. rewrite IH. simpl. split.
      * intros [<- | [H Hn]]; [tauto|]. split; [tauto|]. tauto.
      * intros [[<- | H] Hn]; [tauto|].
        destruct (hasKey k [keyOfMessage d]) eqn:Ek.
        -- apply hasKey_In in Ek. destruct Ek as [Ek | []]. now left.
        -- apply hasKey_not_In in Ek. right. split; [exact H|].
           intros [Hk | Hk]; [apply Ek; now left | contradiction].
Qed.

Lemma dedupDestinations_NoDup (requested : list DestinationMessage) :
  forall seen : list DestinationKey,
    NoDup (map keyOfMessage (dedupDestinations seen requested)).
Proof.
  induction requested as [|d rest IH]; intros seen; simpl.
  - constructor.
  - destruct (hasKey (keyOfMessage d) seen); [apply IH|].
    simpl. constructor; [|apply IH].
    rewrite dedupDestinations_keys. intros [_ Hn]. apply Hn. now left.
Qed.

(** Dropping requested additions keeps their keys distinct. *)
Lemma dropExisting_NoDup existing (requested : list DestinationMessage) :
  NoDup (map keyOfMessage requested) ->
  NoDup (map keyOfMessage (dropExisting existing requested)).
Proof.
  unfold dropExisting.
  induction requested as [|d rest IH]; simpl; intros Hnd; [constructor|].
  apply NoDup_cons_iff in Hnd as [Hfresh Hrest].
  destruct (negb (hasKey (keyOfMessage d) (map keyOfRecord existing)));
    [|now apply IH].
  simpl. apply NoDup_cons_iff. split; [|now apply IH].
  intros Hin. apply Hfresh.
  apply in_map_iff in Hin as [d' [Hkey Hin]].
  apply filter_In in Hin as [Hin _].
  apply in_map_iff. now exists d'.
Qed.

Lemma survivingDestinations_keys existing requested (k : DestinationKey) :
  In k (map keyOfMessage (survivingDestinations existing requested))
  <-> In k (map keyOfMessage requested) /\ ~ In k (map keyOfRecord existing).
Proof.
  unfold survivingDestinations, dropExisting.
  rewrite in_map_iff. split.
  - intros [d [<- Hd]]. apply filter_In in Hd as [Hd Hn].
    apply negb_true_iff, hasKey_not_In in Hn.
    split; [|exact Hn].
    apply (dedupDestinations_keys requested [] (keyOfMessage d)).
    now apply in_map.
  - intros [Hin Hn].
    assert (Hd : In k (map keyOfMessage (dedupDestinations [] requested))).
    { apply dedupDestinations_keys. split; [exact Hin | intros []]. }
    apply in_map_iff in Hd as [d [<- Hd]].
    exists d. split; [reflexivity|]. apply filter_In. split; [exact Hd|].
    now apply negb_true_iff, hasKey_not_In.
Qed.

Lemma survivingDestinations_NoDup existing requested :
  NoDup (map keyOfMessage (survivingDestinations existing requested)).
Proof.
  unfold survivingDestinations.
  apply dropExisting_NoDup, dedupDestinations_NoDup.
Qed.

(** Once the requested keys are all in the current set, nothing
    survives. *)
Lemma survivingDestinations_nil existing requested :
  (forall k, In k (map keyOfMessage requested) -> In k (map keyOfRecord existing)) ->
  survivingDestinations existing requested = [].
Proof.
  intros H.
  destruct (survivingDestinations existing requested) as [|d rest] eqn:E;
    [reflexivity|].
  assert (Hin : In (keyOfMessage d)
                   (map keyOfMessage (survivingDestinations existing requested))).
  { rewrite E. now left. }
  apply survivingDestinations_keys in Hin as [Hin Hn].
  exfalso. apply Hn, H, Hin.
Qed.

Lemma keyOfRecord_of_destination (d : Destination) :
  keyOfRecord (cfDestinationToDestinationRecord d) = keyOfDestination d.
Proof. reflexivity. Qed.

Lemma destination_record_roundtrip (l : list DestinationRecord) :
  map cfDestinationToDestinationRecord (map destinationRecordToCFDestination l) = l.
Proof.
  rewrite map_map. rewrite <- (map_id l) at 2.
  apply map_ext. now intros [].
Qed.

Lemma find_replaceFirst (p : CFRoute -> bool) (o o' : CFRoute) (l : list CFRoute) :
  find p l = Some o -> p o' = true -> find p (replaceFirst p o' l) = Some o'.
Proof.
  induction l as [|a l IH]; simpl; intros Hf Hp; [discriminate|].
  destruct (p a) eqn:E; simpl.
  - now rewrite Hp.
  - rewrite E. now apply IH.
Qed.

Lemma replaceFirst_length (p : CFRoute -> bool) (o' : CFRoute) (l : list CFRoute) :
  List.length (replaceFirst p o' l) = List.length l.
Proof.
  induction l as [|a l IH]; simpl; [reflexivity|].
  destruct (p a); simpl; [reflexivity | now rewrite IH].
Qed.

Lemma hasName_true namespace name (o : CFRoute) :
  hasName namespace name o = true ->
  ObjectMeta_Namespace (CFRoute_ObjectMeta o) = namespace
  /\ ObjectMeta_Name (CFRoute_ObjectMeta o) = name.
Proof.
  unfold hasName. rewrite andb_true_iff, !String.eqb_eq. tauto.
Qed.

Lemma storeGet_found (w : World) namespace name (o : CFRoute) :
  storeGet w namespace name = inl o ->
  find (hasName namespace name) (World_routes w) = Some o
  /\ ObjectMeta_Namespace (CFRoute_ObjectMeta o) = namespace
  /\ ObjectMeta_Name (CFRoute_ObjectMeta o) = name.
Proof.
  unfold storeGet.
  destruct (find (hasName namespace name) (World_routes w)) as [o'|] eqn:E;
    [|discriminate].
  intros H. injection H as <-. split; [reflexivity|].
  apply find_some in E as [_ E]. now apply hasName_true.
Qed.

(** The store accepts a list of destinations exactly when each has a
    supported protocol. *)
Lemma validateDestinations_None (destinations : list Destination) :
  validateDestinations destinations = None
  <-> forall d, In d destinations ->
                supportedProtocol (Destination_Protocol d) = true.
Proof.
  unfold validateDestinations. split.
  - destruct (find _ destinations) eqn:E; [discriminate|].
    intros _ d Hd. apply (find_none _ _ E) in Hd.
    now apply negb_false_iff in Hd.
  - intros H. destruct (find _ destinations) as [d|] eqn:E; [|reflexivity].
    apply find_some in E as [Hd Hn]. rewrite (H d Hd) in Hn. discriminate.
Qed.

(** A validation failure names the protocol of a destination that the
    schema does not admit. *)
Lemma validateDestinations_Some (destinations : list Destination) (err : error) :
  validateDestinations destinations = Some err ->
  exists d,
    In d destinations
    /\ supportedProtocol (Destination_Protocol d) = false
    /\ err = StatusError StatusReasonInvalid
                         (unsupportedProtocolText (Destination_Protocol d)).
Proof.
  unfold validateDestinations.
  destruct (find _ destinations) as [d|] eqn:E; [|discriminate].
  intros H. injection H as <-.
  apply find_some in E as [Hd Hn]. apply negb_true_iff in Hn.
  now exists d.
Qed.

(** A message is supported exactly when the protocol of every key of
    its destinations is. *)
Lemma supportedDestinations_keys (message : AddDestinationsToRouteMessage) :
  supportedDestinations message = true
  <-> forall k,
        In k (map keyOfRecord
                  (AddDestinationsToRouteMessage_ExistingDestinations message))
        \/ In k (map keyOfMessage
                     (AddDestinationsToRouteMessage_NewDestinations message)) ->
        supportedProtocol (keyProtocol k) = true.
Proof.
  unfold supportedDestinations.
  rewrite andb_true_iff, !forallb_forall. split.
  - intros [HE HN] k [Hk | Hk]; apply in_map_iff in Hk as [d [<- Hd]].
    + now apply HE.
    + now apply HN.
  - intros H. split; intros d Hd.
    + apply (H (keyOfRecord d)). left. now apply in_map.
    + apply (H (keyOfMessage d)). right. now apply in_map.
Qed.

Section RouteMerge.

Variable formatTimestamp : Time -> string.
Variable getTimeLastUpdatedTimestamp : ObjectMeta -> string * option error.
Variable uuid_NewString : nat -> string.

Let cfRouteToRouteRecord :=
  cfRouteToRouteRecord formatTimestamp getTimeLastUpdatedTimestamp.
Let assignGUIDs := assignGUIDs uuid_NewString.
Let mergeDestinations := mergeDestinations uuid_NewString.
Let AddDestinationsToRoute :=
  AddDestinationsToRoute formatTimestamp getTimeLastUpdatedTimestamp
                         uuid_NewString.

Lemma assignGUIDs_keys (surviving : list DestinationMessage) :
  forall n, map keyOfDestination (assignGUIDs n surviving)
            = map keyOfMessage surviving.
Proof.
  induction surviving as [|d rest IH]; intros n; simpl; [reflexivity|].
  f_equal. apply IH.
Qed.

Lemma assignGUIDs_length (surviving : list DestinationMessage) :
  forall n, List.length (assignGUIDs n surviving) = List.length surviving.
Proof.
  induction surviving as [|d rest IH]; intros n; simpl; [reflexivity|].
  f_equal. apply IH.
Qed.

Lemma mergeDestinations_records n existing requested :
  map cfDestinationToDestinationRecord (mergeDestinations n existing requested)
  = existing
    ++ map cfDestinationToDestinationRecord
           (assignGUIDs n (survivingDestinations existing requested)).
Proof.
  unfold mergeDestinations, repositories.mergeDestinations.
  now rewrite map_app, destination_record_roundtrip.
Qed.

Lemma mergeDestinations_keys n existing requested :
  map keyOfRecord
      (map cfDestinationToDestinationRecord
           (mergeDestinations n existing requested))
  = map keyOfRecord existing
    ++ map keyOfMessage (survivingDestinations existing requested).
Proof.
  rewrite mergeDestinations_records, map_app. f_equal.
  rewrite map_map.
  rewrite (map_ext _ keyOfDestination) by (intros; apply keyOfRecord_of_destination).
  apply assignGUIDs_keys.
Qed.

(** The destinations that [mergeDestinations] builds have the keys of
    the existing destinations and of the requested ones. *)
Lemma mergeDestinations_key_iff n existing requested (k : DestinationKey) :
  In k (map keyOfDestination (mergeDestinations n existing requested))
  <-> In k (map keyOfRecord existing) \/ In k (map keyOfMessage requested).
Proof.
  rewrite <- (map_ext _ _ keyOfRecord_of_destination), <- map_map.
  rewrite mergeDestinations_keys, in_app_iff, survivingDestinations_keys.
  split; [tauto|].
  intros [H | H]; [tauto|].
  destruct (hasKey k (map keyOfRecord existing)) eqn:Ek.
  - apply hasKey_In in Ek. tauto.
  - apply hasKey_not_In in Ek. tauto.
Qed.

(** The store accepts the merged destinations exactly when every
    destination of the message has a supported protocol. *)
Lemma mergeDestinations_validated n message :
  validateDestinations
    (mergeDestinations n
       (AddDestinationsToRouteMessage_ExistingDestinations message)
       (AddDestinationsToRouteMessage_NewDestinations message)) = None
  <-> supportedDestinations message = true.
Proof.
  rewrite validateDestinations_None, supportedDestinations_keys. split.
  - intros H k Hk. apply (mergeDestinations_key_iff n) in Hk.
    apply in_map_iff in Hk as [d [<- Hd]]. now apply H.
  - intros H d Hd.
    apply (H (keyOfDestination d)), (mergeDestinations_key_iff n).
    now apply in_map.
Qed.

(** The record and the state that [AddDestinationsToRoute] returns
    when the route is stored and the store accepts the destinations. *)
Lemma AddDestinationsToRoute_found w authInfo message observed :
  storeGet w (AddDestinationsToRouteMessage_SpaceGUID message)
             (AddDestinationsToRouteMessage_RouteGUID message) = inl observed ->
  supportedDestinations message = true ->
  exists patched w',
    AddDestinationsToRoute w authInfo message
    = ((cfRouteToRouteRecord patched, None), w')
    /\ storeGet w' (AddDestinationsToRouteMessage_SpaceGUID message)
                   (AddDestinationsToRouteMessage_RouteGUID message) = inl patched
    /\ CFRouteSpec_Destinations (CFRoute_Spec patched)
       = mergeDestinations (World_uuids w)
           (AddDestinationsToRouteMessage_ExistingDestinations message)
           (AddDestinationsToRouteMessage_NewDestinations message)
    /\ World_uuids w'
       = World_uuids w
         + List.length
             (survivingDestinations
                (AddDestinationsToRouteMessage_ExistingDestinations message)
                (AddDestinationsToRouteMessage_NewDestinations message))
    /\ List.length (World_routes w') = List.length (World_routes w).
Proof.
  intros Hget Hvalid.
  destruct (storeGet_found _ _ _ _ Hget) as [Hfind [Hns Hname]].
  apply (mergeDestinations_validated (World_uuids w)) in Hvalid.
  unfold AddDestinationsToRoute, repositories.AddDestinationsToRoute.
  rewrite Hget. unfold storePatch.
  cbn [CFRoute_ObjectMeta World_routes CFRoute_Spec CFRouteSpec_Destinations].
  rewrite Hns, Hname, Hfind, Nat.eqb_refl.
  unfold mergeDestinations in Hvalid. rewrite Hvalid.
  eexists. eexists. split; [reflexivity|].
  split; [|split; [reflexivity|split; [reflexivity|]]].
  - unfold storeGet. cbn [World_routes].
    erewrite find_replaceFirst; [reflexivity | exact Hfind |].
    unfold hasName. cbn [CFRoute_ObjectMeta ObjectMeta_Namespace ObjectMeta_Name].
    now rewrite !String.eqb_refl.
  - cbn [World_routes]. apply replaceFirst_length.
Qed.

(** A request with a destination of an unsupported protocol, existing
    or requested, is refused by the store: the call returns the
    validation failure of the store with the empty record, and the
    routes of the store are left as they were. *)
Lemma AddDestinationsToRoute_rejects_unsupported_protocol
  w authInfo message observed :
  storeGet w (AddDestinationsToRouteMessage_SpaceGUID message)
             (AddDestinationsToRouteMessage_RouteGUID message) = inl observed ->
  supportedDestinations message = false ->
  exists protocol w',
    AddDestinationsToRoute w authInfo message
    = ((RouteRecord_zero,
        Some (StatusError StatusReasonInvalid (unsupportedProtocolText protocol))),
       w')
    /\ supportedProtocol protocol = false
    /\ World_routes w' = World_routes w.
Proof.
  intros Hget Hinvalid.
  destruct (storeGet_found _ _ _ _ Hget) as [Hfind [Hns Hname]].
  unfold AddDestinationsToRoute, repositories.AddDestinationsToRoute.
  rewrite Hget. unfold storePatch.
  cbn [CFRoute_ObjectMeta World_routes CFRoute_Spec CFRouteSpec_Destinations].
  rewrite Hns, Hname, Hfind, Nat.eqb_refl.
  destruct (validateDestinations _) as [err|] eqn:Ev.
  - apply validateDestinations_Some in Ev as [d [_ [Hd ->]]].
    exists (Destination_Protocol d). eexists.
    split; [reflexivity|]. split; [exact Hd | reflexivity].
  - apply (mergeDestinations_validated (World_uuids w)) in Ev. congruence.
Qed.

Lemma cf_destination_roundtrip (l : list Destination) :
  map destinationRecordToCFDestination (map cfDestinationToDestinationRecord l) = l.
Proof.
  rewrite map_map. rewrite <- (map_id l) at 2.
  apply map_ext. now intros [? ? [?] ? ?].
Qed.

Lemma cfRouteToRouteRecord_Destinations (cfRoute : CFRoute) :
  RouteRecord_Destinations (cfRouteToRouteRecord cfRoute)
  = map cfDestinationToDestinationRecord
        (CFRouteSpec_Destinations (CFRoute_Spec cfRoute)).
Proof.
  unfold cfRouteToRouteRecord, repositories.cfRouteToRouteRecord.
  now destruct (getTimeLastUpdatedTimestamp (CFRoute_ObjectMeta cfRoute)).
Qed.

(** The destinations of a record returned for a supported request are
    supported, so that the record can be sent as the existing set of a
    later request. *)
Lemma supportedDestinations_of_result n message :
  supportedDestinations message = true ->
  supportedDestinations
    (initializeDestinationListMessage
       (AddDestinationsToRouteMessage_RouteGUID message)
       (AddDestinationsToRouteMessage_SpaceGUID message)
       (map cfDestinationToDestinationRecord
            (mergeDestinations n
               (AddDestinationsToRouteMessage_ExistingDestinations message)
               (AddDestinationsToRouteMessage_NewDestinations message)))
       (AddDestinationsToRouteMessage_NewDestinations message)) = true.
Proof.
  rewrite !supportedDestinations_keys. intros H k.
  cbn [initializeDestinationListMessage
         AddDestinationsToRouteMessage_ExistingDestinations
         AddDestinationsToRouteMessage_NewDestinations].
  rewrite map_map, (map_ext _ _ keyOfRecord_of_destination).
  rewrite mergeDestinations_key_iff. intros [Hk | Hk]; apply H; tauto.
Qed.

(** C3.  For a stored route and a message whose destinations all have
    a protocol the store supports, [AddDestinationsToRoute] with the
    existing destinations [E] and the requested list [N] succeeds; the
    destinations of the returned record are those of the patched
    object, they are [E] followed by one new entry for every key of
    [N] that is not a key of [E], each such key once: a key is in the
    result exactly when it is a key of [E] or of [N], and the result
    has no two entries of the same key when [E] has none.

    Running the merge a second time is covered in both readings of
    "the same input".  When the second request carries the
    destinations of the first result as its existing set and the same
    requested list, as a caller that reads the route again sends it,
    the call succeeds, draws no new identifier, and returns and stores
    the same destinations.  When the very same message is sent again,
    with the existing set [E] of the first request, the call succeeds
    and the destinations returned and stored have the same keys in the
    same order, hence the same number of entries; the entries of [E]
    are unchanged, and the entries for [N] are built again, with
    identifiers drawn anew. *)
Theorem AddDestinationsToRoute_merges_without_duplicates :
  forall (w : World) (authInfo : Info) (message : AddDestinationsToRouteMessage)
         (observed : CFRoute),
    storeGet w (AddDestinationsToRouteMessage_SpaceGUID message)
               (AddDestinationsToRouteMessage_RouteGUID message) = inl observed ->
    supportedDestinations message = true ->
    exists record w' patched,
      AddDestinationsToRoute w authInfo message = ((record, None), w')
      /\ storeGet w' (AddDestinationsToRouteMessage_SpaceGUID message)
                     (AddDestinationsToRouteMessage_RouteGUID message)
         = inl patched
      /\ map cfDestinationToDestinationRecord
             (CFRouteSpec_Destinations (CFRoute_Spec patched))
         = RouteRecord_Destinations record
      /\ (exists added,
             RouteRecord_Destinations record
             = AddDestinationsToRouteMessage_ExistingDestinations message ++ added
             /\ map keyOfRecord added
                = map keyOfMessage
                    (survivingDestinations
                       (AddDestinationsToRouteMessage_ExistingDestinations message)
                       (AddDestinationsToRouteMessage_NewDestinations message)))
      /\ (forall k,
             In k (map keyOfRecord (RouteRecord_Destinations record))
             <-> In k (map keyOfRecord
                         (AddDestinationsToRouteMessage_ExistingDestinations message))
                 \/ In k (map keyOfMessage
                            (AddDestinationsToRouteMessage_NewDestinations message)))
      /\ (NoDup (map keyOfRecord
                   (AddDestinationsToRouteMessage_ExistingDestinations message)) ->
          NoDup (map keyOfRecord (RouteRecord_Destinations record)))
      /\ (forall authInfo' : Info,
             exists record' w'' patched',
               AddDestinationsToRoute w' authInfo'
                 (initializeDestinationListMessage
                    (AddDestinationsToRouteMessage_RouteGUID message)
                    (AddDestinationsToRouteMessage_SpaceGUID message)
                    (RouteRecord_Destinations record)
                    (AddDestinationsToRouteMessage_NewDestinations message))
               = ((record', None), w'')
               /\ RouteRecord_Destinations record'
                  = RouteRecord_Destinations record
               /\ World_uuids w'' = World_uuids w'
               /\ storeGet w'' (AddDestinationsToRouteMessage_SpaceGUID message)
                               (AddDestinationsToRouteMessage_RouteGUID message)
                  = inl patched'
               /\ CFRouteSpec_Destinations (CFRoute_Spec patched')
                  = CFRouteSpec_Destinations (CFRoute_Spec patched))
      /\ (forall authInfo' : Info,
             exists record' w'' patched',
               AddDestinationsToRoute w' authInfo' message = ((record', None), w'')
               /\ map keyOfRecord (RouteRecord_Destinations record')
                  = map keyOfRecord (RouteRecord_Destinations record)
               /\ RouteRecord_Destinations record'
                  = AddDestinationsToRouteMessage_ExistingDestinations message
                    ++ map cfDestinationToDestinationRecord
                         (assignGUIDs (World_uuids w')
                            (survivingDestinations
                               (AddDestinationsToRouteMessage_ExistingDestinations
                                  message)
                               (AddDestinationsToRouteMessage_NewDestinations
                                  message)))
               /\ World_uuids w'
                  = World_uuids w
                    + List.length
                        (survivingDestinations
                           (AddDestinationsToRouteMessage_ExistingDestinations message)
                           (AddDestinationsToRouteMessage_NewDestinations message))
               /\ storeGet w'' (AddDestinationsToRouteMessage_SpaceGUID message)
                               (AddDestinationsToRouteMessage_RouteGUID message)
                  = inl patched'
               /\ map cfDestinationToDestinationRecord
                      (CFRouteSpec_Destinations (CFRoute_Spec patched'))
                  = RouteRecord_Destinations record').
Proof.
  intros w authInfo message observed Hget Hvalid.
  destruct (AddDestinationsToRoute_found w authInfo message observed Hget Hvalid)
    as [patched [w' [Hrun [Hget' [Hdest [Huuid Hlen]]]]]].
  set (E := AddDestinationsToRouteMessage_ExistingDestinations message) in *.
  set (N := AddDestinationsToRouteMessage_NewDestinations message) in *.
  assert (Hrec : RouteRecord_Destinations (cfRouteToRouteRecord patched)
                 = map cfDestinationToDestinationRecord
                       (mergeDestinations (World_uuids w) E N)).
  { now rewrite cfRouteToRouteRecord_Destinations, Hdest. }
  assert (Hkeys : forall k,
             In k (map keyOfRecord
                       (RouteRecord_Destinations (cfRouteToRouteRecord patched)))
             <-> In k (map keyOfRecord E) \/ In k (map keyOfMessage N)).
  { intros k. rewrite Hrec, map_map, (map_ext _ _ keyOfRecord_of_destination).
    apply mergeDestinations_key_iff. }
  exists (cfRouteToRouteRecord patched), w', patched.
  split; [exact Hrun|]. split; [exact Hget'|].
  split; [now rewrite cfRouteToRouteRecord_Destinations|].
  split; [|split; [exact Hkeys|split; [|split]]].
  - exists (map cfDestinationToDestinationRecord
                (assignGUIDs (World_uuids w) (survivingDestinations E N))).
    split; [now rewrite Hrec, mergeDestinations_records|].
    rewrite map_map.
    rewrite (map_ext _ keyOfDestination)
      by (intros; apply keyOfRecord_of_destination).
    apply assignGUIDs_keys.
  - intros Hnd. rewrite Hrec, mergeDestinations_keys.
    apply NoDup_app; [exact Hnd | apply survivingDestinations_NoDup|].
    intros k Hin Hin'. apply survivingDestinations_keys in Hin'. tauto.
  - intros authInfo'.
    set (message' :=
           initializeDestinationListMessage
             (AddDestinationsToRouteMessage_RouteGUID message)
             (AddDestinationsToRouteMessage_SpaceGUID message)
             (RouteRecord_Destinations (cfRouteToRouteRecord patched)) N).
    assert (Hvalid' : supportedDestinations message' = true).
    { unfold message'. rewrite Hrec.
      apply (supportedDestinations_of_result (World_uuids w) message Hvalid). }
    destruct (AddDestinationsToRoute_found w' authInfo' message' patched Hget'
                                           Hvalid')
      as [patched' [w'' [Hrun' [Hget'' [Hdest' [Huuid' _]]]]]].
    cbn [message' initializeDestinationListMessage
           AddDestinationsToRouteMessage_ExistingDestinations
           AddDestinationsToRouteMessage_NewDestinations
           AddDestinationsToRouteMessage_SpaceGUID
           AddDestinationsToRouteMessage_RouteGUID] in Hget'', Hdest', Huuid'.
    assert (Hnil : survivingDestinations
                     (RouteRecord_Destinations (cfRouteToRouteRecord patched)) N
                   = []).
    { apply survivingDestinations_nil. intros k Hk. apply Hkeys. now right. }
    assert (Hsame : CFRouteSpec_Destinations (CFRoute_Spec patched')
                    = CFRouteSpec_Destinations (CFRoute_Spec patched)).
    { rewrite Hdest'. unfold mergeDestinations, repositories.mergeDestinations.
      rewrite Hnil. simpl. rewrite app_nil_r.
      rewrite cfRouteToRouteRecord_Destinations. apply cf_destination_roundtrip. }
    exists (cfRouteToRouteRecord patched'), w'', patched'.
    split; [exact Hrun'|].
    split; [now rewrite !cfRouteToRouteRecord_Destinations, Hsame|].
    split; [rewrite Huuid', Hnil; simpl; lia|].
    split; [exact Hget'' | exact Hsame].
  - intros authInfo'.
    destruct (AddDestinationsToRoute_found w' authInfo' message patched Hget'
                                           Hvalid)
      as [patched' [w'' [Hrun' [Hget'' [Hdest' _]]]]].
    fold E N in Hdest'.
    assert (Hrec' : RouteRecord_Destinations (cfRouteToRouteRecord patched')
                    = map cfDestinationToDestinationRecord
                          (mergeDestinations (World_uuids w') E N)).
    { now rewrite cfRouteToRouteRecord_Destinations, Hdest'. }
    exists (cfRouteToRouteRecord patched'), w'', patched'.
    split; [exact Hrun'|].
    split; [now rewrite Hrec', Hrec, !mergeDestinations_keys|].
    split; [now rewrite Hrec', mergeDestinations_records|].
    split; [exact Huuid|].
    split; [exact Hget'' | now rewrite cfRouteToRouteRecord_Destinations].
Qed.

End RouteMerge.

Lemma AddDestinationsToRoute_merges_without_duplicates_witness :
  exists record w' patched,
    AddDestinationsToRoute sampleFormat sampleLastUpdated sampleUUID
      (sampleWorld [route1; route2]) noAuth sampleAddDestinations
    = ((record, None), w')
    /\ storeGet w' "default" "route-1" = inl patched
    /\ map cfDestinationToDestinationRecord
           (CFRouteSpec_Destinations (CFRoute_Spec patched))
       = RouteRecord_Destinations record.
Proof.
  destruct (AddDestinationsToRoute_merges_without_duplicates
              sampleFormat sampleLastUpdated sampleUUID
              (sampleWorld [route1; route2]) noAuth sampleAddDestinations
              route1 eq_refl eq_refl)
    as [record [w' [patched [Hrun [Hget [Hdest _]]]]]].
  exists record, w', patched. repeat split; assumption.
Defined.

(** The request of the witness adds one destination to the one the
    route has. *)
Example AddDestinationsToRoute_sample_keys :
  map keyOfRecord
      (RouteRecord_Destinations
         (fst (fst (AddDestinationsToRoute sampleFormat sampleLastUpdated sampleUUID
                      (sampleWorld [route1; route2]) noAuth sampleAddDestinations))))
  = [("some-app-guid", "web", 8000%Z, "http1");
     ("app-guid-2", "worker", 9000%Z, "http1")].
Proof. reflexivity. Qed.

(** The same request sent a second time as it is: the destinations
    keep their keys, the one of the route keeps its identifier, and the
    added one is built again with the next identifier. *)
Example AddDestinationsToRoute_sample_sent_again :
  let '(first, w1) :=
    AddDestinationsToRoute sampleFormat sampleLastUpdated sampleUUID
      (sampleWorld [route1; route2]) noAuth sampleAddDestinations in
  let '(second, _) :=
    AddDestinationsToRoute sampleFormat sampleLastUpdated sampleUUID
      w1 noAuth sampleAddDestinations in
  map DestinationRecord_GUID (RouteRecord_Destinations (fst first))
  = ["destination-guid"; "guid-0"]
  /\ map DestinationRecord_GUID (RouteRecord_Destinations (fst second))
     = ["destination-guid"; "guid-1"]
  /\ map keyOfRecord (RouteRecord_Destinations (fst second))
     = map keyOfRecord (RouteRecord_Destinations (fst first)).
Proof. repeat split. Qed.

(** The scenario of the repository test for an invalid protocol: the
    call fails with the text the test expects, and nothing is
    stored. *)
Example AddDestinationsToRoute_bad_protocol :
  AddDestinationsToRoute sampleFormat sampleLastUpdated sampleUUID
    (sampleWorld [route1; route2]) noAuth sampleBadProtocol
  = ((RouteRecord_zero,
      Some (StatusError StatusReasonInvalid
                        (unsupportedProtocolText "bad-protocol"))),
     {| World_routes := [route1; route2];
        World_now := 10%Z;
        World_uuids := 1 |}).
Proof. reflexivity. Qed.

(** ** Get or create a route *)

Lemma find_app_last (p : CFRoute -> bool) (l : list CFRoute) (x : CFRoute) :
  existsb p l = false -> p x = true -> find p (l ++ [x]) = Some x.
Proof.
  induction l as [|a l IH]; simpl; intros Hl Hx.
  - now rewrite Hx.
  - apply orb_false_iff in Hl as [Ha Hl]. rewrite Ha. now apply IH.
Qed.

Lemma find_existsb (p : CFRoute -> bool) (l : list CFRoute) (x : CFRoute) :
  find p l = Some x -> existsb p l = true.
Proof.
  intros H. apply find_some in H as [Hin Hp].
  apply existsb_exists. now exists x.
Qed.

Lemma existsb_orb_r (p q : CFRoute -> bool) (l : list CFRoute) :
  existsb q l = true -> existsb (fun e => p e || q e) l = true.
Proof.
  rewrite !existsb_exists. intros [x [Hin Hq]].
  exists x. split; [exact Hin|]. rewrite Hq. apply orb_true_r.
Qed.

Lemma existsb_orb_false_r (p q : CFRoute -> bool) (l : list CFRoute) :
  existsb (fun e => p e || q e) l = false -> existsb q l = false.
Proof.
  induction l as [|a l IH]; simpl; [reflexivity|].
  rewrite !orb_false_iff. intros [[_ Hq] Hl]. split; [exact Hq | now apply IH].
Qed.

Section GetOrCreate.

Variable formatTimestamp : Time -> string.
Variable getTimeLastUpdatedTimestamp : ObjectMeta -> string * option error.
Variable uuid_NewString : nat -> string.

Let cfRouteToRouteRecord :=
  cfRouteToRouteRecord formatTimestamp getTimeLastUpdatedTimestamp.
Let CreateRoute :=
  CreateRoute formatTimestamp getTimeLastUpdatedTimestamp uuid_NewString.
Let GetOrCreateRoute :=
  GetOrCreateRoute formatTimestamp getTimeLastUpdatedTimestamp uuid_NewString.

(** Whether two objects denote the same route does not depend on the
    name of the first. *)
Lemma sameRoute_toCFRoute message guid guid' (e : CFRoute) :
  sameRoute (toCFRoute message guid) e = sameRoute (toCFRoute message guid') e.
Proof. reflexivity. Qed.

(** [create] on an object that denotes a stored route: the store answers
    "already exists" and stores nothing. *)
Lemma CreateRoute_already_exists w authInfo message :
  CreateRouteMessage_SpaceGUID message <> "" ->
  existsb (sameRoute (toCFRoute message "")) (World_routes w) = true ->
  CreateRoute w authInfo message
  = ((RouteRecord_zero,
      Some (StatusError StatusReasonAlreadyExists "already exists")),
     {| World_routes := World_routes w;
        World_now := World_now w;
        World_uuids := S (World_uuids w) |}).
Proof.
  intros Hns Hex.
  unfold CreateRoute, repositories.CreateRoute, drawUUID, storeCreate.
  cbn [toCFRoute CFRoute_ObjectMeta ObjectMeta_Namespace ObjectMeta_Name
       World_routes].
  apply String.eqb_neq in Hns. rewrite Hns.
  rewrite existsb_orb_r; [reflexivity|].
  exact Hex.
Qed.

(** A successful [GetOrCreateRoute] returns the record of the first
    stored object that denotes the route of the message, in the state it
    leaves. *)
Lemma GetOrCreateRoute_success w authInfo message record w1 :
  GetOrCreateRoute w authInfo message = ((record, None), w1) ->
  CreateRouteMessage_SpaceGUID message <> ""
  /\ exists stored,
       find (sameRoute (toCFRoute message "")) (World_routes w1) = Some stored
       /\ record = cfRouteToRouteRecord stored.
Proof.
  unfold GetOrCreateRoute, repositories.GetOrCreateRoute, repositories.CreateRoute,
    drawUUID, storeCreate.
  cbn [toCFRoute CFRoute_ObjectMeta ObjectMeta_Namespace ObjectMeta_Name
       World_routes CFRoute_Spec].
  destruct (String.eqb_spec (CreateRouteMessage_SpaceGUID message) "") as [Ens|Ens].
  - simpl. discriminate.
  - destruct (existsb _ (World_routes w)) eqn:Eex.
    + cbn [classifyStoreError]. simpl String.eqb.
      cbn [orb isAlreadyExists]. rewrite String.eqb_refl.
      unfold storeList. cbn [World_routes].
      destruct (find (sameRoute (toCFRoute message "")) (World_routes w))
        as [existing|] eqn:Ef; [|discriminate].
      intros H. injection H as <- <-. split; [exact Ens|].
      exists existing. split; [exact Ef | reflexivity].
    + intros H. injection H as <- <-. split; [exact Ens|].
      eexists. split; [|reflexivity].
      cbn [World_routes]. apply find_app_last.
      * apply existsb_orb_false_r in Eex. exact Eex.
      * unfold sameRoute.
        cbn [toCFRoute CFRoute_ObjectMeta ObjectMeta_Namespace CFRoute_Spec
             CFRouteSpec_Host CFRouteSpec_Path CFRouteSpec_DomainRef
             LocalObjectReference_Name].
        now rewrite !String.eqb_refl.
Qed.

(** The conversion: when a stored object denotes the route of the
    message, the failed create is followed by a re-fetch. *)
Lemma GetOrCreateRoute_existing w authInfo message existing :
  CreateRouteMessage_SpaceGUID message <> "" ->
  find (sameRoute (toCFRoute message "")) (World_routes w) = Some existing ->
  GetOrCreateRoute w authInfo message
  = ((cfRouteToRouteRecord existing, None),
     {| World_routes := World_routes w;
        World_now := World_now w;
        World_uuids := S (World_uuids w) |}).
Proof.
  intros Hns Hfind.
  unfold GetOrCreateRoute, repositories.GetOrCreateRoute.
  change (repositories.CreateRoute formatTimestamp getTimeLastUpdatedTimestamp
            uuid_NewString w authInfo message)
    with (CreateRoute w authInfo message).
  rewrite (CreateRoute_already_exists w authInfo message Hns
             (find_existsb _ _ _ Hfind)).
  cbn [isAlreadyExists]. rewrite String.eqb_refl.
  unfold storeList. cbn [World_routes]. rewrite Hfind. reflexivity.
Qed.

(** [create] on an object that denotes no stored route and whose fresh
    name is not taken: the object is stored, and its record returned. *)
Lemma GetOrCreateRoute_creates w authInfo message :
  CreateRouteMessage_SpaceGUID message <> "" ->
  existsb (hasName (CreateRouteMessage_SpaceGUID message)
                   (uuid_NewString (World_uuids w))) (World_routes w) = false ->
  find (sameRoute (toCFRoute message "")) (World_routes w) = None ->
  exists record w1, GetOrCreateRoute w authInfo message = ((record, None), w1).
Proof.
  intros Hns Hname Hfind.
  unfold GetOrCreateRoute, repositories.GetOrCreateRoute, repositories.CreateRoute,
    drawUUID, storeCreate.
  cbn [toCFRoute CFRoute_ObjectMeta ObjectMeta_Namespace ObjectMeta_Name
       World_routes CFRoute_Spec].
  apply String.eqb_neq in Hns. rewrite Hns.
  assert (Hex : existsb
                  (fun e =>
                     hasName (CreateRouteMessage_SpaceGUID message)
                             (uuid_NewString (World_uuids w)) e
                     || sameRoute (toCFRoute message (uuid_NewString (World_uuids w))) e)
                  (World_routes w) = false).
  { clear Hns. induction (World_routes w) as [|a l IH]; simpl in *; [reflexivity|].
    apply orb_false_iff in Hname as [Ha Hl].
    change (sameRoute (toCFRoute message (uuid_NewString (World_uuids w))) a)
      with (sameRoute (toCFRoute message "") a).
    destruct (sameRoute (toCFRoute message "") a); [discriminate|].
    rewrite Ha. simpl. now apply IH. }
  rewrite Hex. eexists. eexists. reflexivity.
Qed.

(** C8.  For a message with a namespace, when the identifier drawn for
    the new object names no stored route of the namespace, two
    [GetOrCreateRoute] calls in sequence with the same message both
    succeed and return the same record, hence the same GUID, and the
    second call leaves the routes of the store as the first left them.
    Moreover, whenever a stored object denotes the route of the message,
    the create fails with "already exists" and [GetOrCreateRoute]
    returns, without error, the record of that object and stores
    nothing. *)
Theorem GetOrCreateRoute_idempotent :
  forall (w : World) (authInfo : Info) (message : CreateRouteMessage),
    CreateRouteMessage_SpaceGUID message <> "" ->
    existsb (hasName (CreateRouteMessage_SpaceGUID message)
                     (uuid_NewString (World_uuids w))) (World_routes w) = false ->
    (exists record w1 w2,
        GetOrCreateRoute w authInfo message = ((record, None), w1)
        /\ GetOrCreateRoute w1 authInfo message = ((record, None), w2)
        /\ World_routes w2 = World_routes w1)
    /\ (forall existing,
           find (sameRoute (toCFRoute message "")) (World_routes w) = Some existing ->
           exists err w',
             CreateRoute w authInfo message = ((RouteRecord_zero, Some err), w')
             /\ isAlreadyExists err = true
             /\ GetOrCreateRoute w authInfo message
                = ((cfRouteToRouteRecord existing, None), w')
             /\ World_routes w' = World_routes w).
Proof.
  intros w authInfo message Hns Hname. split.
  - assert (Hfirst : exists record w1,
               GetOrCreateRoute w authInfo message = ((record, None), w1)).
    { destruct (find (sameRoute (toCFRoute message "")) (World_routes w))
        as [existing|] eqn:Ef.
      - eexists. eexists. now apply GetOrCreateRoute_existing with (existing := existing).
      - now apply GetOrCreateRoute_creates. }
    destruct Hfirst as [record [w1 Hrun]].
    destruct (GetOrCreateRoute_success _ _ _ _ _ Hrun) as [_ [stored [Hf ->]]].
    exists (cfRouteToRouteRecord stored), w1. eexists.
    split; [exact Hrun|].
    split; [now apply GetOrCreateRoute_existing | reflexivity].
  - intros existing Hfind.
    eexists. eexists.
    split; [apply CreateRoute_already_exists;
            [exact Hns | now apply find_existsb with (x := existing)]|].
    split; [reflexivity|].
    split; [now apply GetOrCreateRoute_existing | reflexivity].
Qed.

End GetOrCreate.

Lemma GetOrCreateRoute_idempotent_witness :
  exists record w1 w2,
    GetOrCreateRoute sampleFormat sampleLastUpdated sampleUUID
      (sampleWorld [route1; route2]) noAuth sampleCreateRoute
    = ((record, None), w1)
    /\ GetOrCreateRoute sampleFormat sampleLastUpdated sampleUUID
         w1 noAuth sampleCreateRoute
       = ((record, None), w2)
    /\ World_routes w2 = World_routes w1.
Proof.
  refine (proj1 (GetOrCreateRoute_idempotent
                   sampleFormat sampleLastUpdated sampleUUID
                   (sampleWorld [route1; route2]) noAuth sampleCreateRoute _ _)).
  - discriminate.
  - reflexivity.
Defined.

(** The scenario of the tests: a route created first is the one a later
    get-or-create returns, and the store holds one more route than at
    the start. *)
Example GetOrCreateRoute_after_CreateRoute :
  let '(created, w1) :=
    CreateRoute sampleFormat sampleLastUpdated sampleUUID
      (sampleWorld [route1; route2]) noAuth sampleCreateRoute in
  let '(returned, w2) :=
    GetOrCreateRoute sampleFormat sampleLastUpdated sampleUUID
      w1 noAuth sampleCreateRoute in
  returned = created
  /\ snd created = None
  /\ RouteRecord_GUID (fst created) = "guid-0"
  /\ List.length (World_routes w2) = 3.
Proof. repeat split; reflexivity. Qed.

(** * Further properties of the domain and package repositories *)

(** A list sorted by instants is determined by its elements, when
    elements of equal instants are equal. *)
Lemma sorted_Permutation_unique {A : Type} (ts : A -> Time) (l1 : list A) :
  forall l2 : list A,
    (forall a b, In a l1 -> In b l1 -> ts a = ts b -> a = b) ->
    StronglySorted (fun a b => (ts a <= ts b)%Z) l1 ->
    StronglySorted (fun a b => (ts a <= ts b)%Z) l2 ->
    Permutation l1 l2 ->
    l1 = l2.
Proof.
  induction l1 as [|a l1 IH]; intros l2 Hinj H1 H2 Hp.
  - now apply Permutation_nil in Hp.
  - destruct l2 as [|b l2].
    + apply Permutation_sym, Permutation_nil in Hp. discriminate.
    + apply StronglySorted_inv in H1 as [H1 Ha].
      apply StronglySorted_inv in H2 as [H2 Hb].
      rewrite Forall_forall in Ha, Hb.
      assert (Hab : a = b).
      { assert (Hina : In a (b :: l2))
          by (eapply Permutation_in; [exact Hp | now left]).
        assert (Hinb : In b (a :: l1))
          by (eapply Permutation_in; [apply Permutation_sym, Hp | now left]).
        destruct Hina as [E | Hina]; [now symmetry|].
        destruct Hinb as [E | Hinb]; [exact E|].
        apply Hinj; [now left | now right|].
        specialize (Ha b Hinb). specialize (Hb a Hina). lia. }
      subst b. f_equal.
      apply IH; [|exact H1 | exact H2 | now apply Permutation_cons_inv in Hp].
      intros x y Hx Hy. apply Hinj; now right.
Qed.

Lemma in_name_loop (domainList : list CFDomain) (names : list string) (d : CFDomain) :
  In d (flat_map
          (fun domain =>
             flat_map (fun name => if CFDomainSpec_Name (CFDomain_Spec domain) =? name
                                   then [domain] else []) names)
          domainList)
  <-> In d domainList
      /\ existsb (fun name => CFDomainSpec_Name (CFDomain_Spec d) =? name) names = true.
Proof.
  rewrite in_flat_map. split.
  - intros [d' [Hd' Hin]]. apply in_flat_map in Hin as [n [Hn Hin]].
    destruct (CFDomainSpec_Name (CFDomain_Spec d') =? n) eqn:E;
      simpl in Hin; [|contradiction].
    destruct Hin as [<- | []]. split; [exact Hd'|].
    apply existsb_exists. now exists n.
  - intros [Hd Hex]. apply existsb_exists in Hex as [n [Hn E]].
    exists d. split; [exact Hd|]. apply in_flat_map. exists n.
    split; [exact Hn|]. rewrite E. now left.
Qed.

Lemma in_applyDomainListFilterAndOrder domainList message (d : CFDomain) :
  In d (applyDomainListFilterAndOrder domainList message)
  <-> In d domainList /\ domainMatches message d = true.
Proof.
  unfold applyDomainListFilterAndOrder, domainMatches.
  split.
  - intros Hin.
    apply (Permutation_in _ (Permutation_sym (sort_Slice_Permutation _ _))) in Hin.
    destruct (nonEmpty (ListDomainsMessage_Names message)); simpl.
    + now apply in_name_loop in Hin.
    + now split.
  - intros [Hin Hm].
    apply (Permutation_in _ (sort_Slice_Permutation _ _)).
    destruct (nonEmpty (ListDomainsMessage_Names message)); simpl in Hm.
    + apply in_name_loop. now split.
    + exact Hin.
Qed.

Section DomainRepositoryMore.

Variable formatTimestamp : Time -> string.
Variable getTimeLastUpdatedTimestamp : ObjectMeta -> string * option error.

Let cfDomainToDomainRecord :=
  cfDomainToDomainRecord formatTimestamp getTimeLastUpdatedTimestamp.
Let GetDomain := GetDomain formatTimestamp getTimeLastUpdatedTimestamp.
Let ListDomains := ListDomains formatTimestamp getTimeLastUpdatedTimestamp.
Let GetDomainByName := GetDomainByName formatTimestamp getTimeLastUpdatedTimestamp.
Let GetDefaultDomain := GetDefaultDomain formatTimestamp getTimeLastUpdatedTimestamp.

Lemma cfDomainToDomainRecord_fields (d : CFDomain) :
  DomainRecord_Name (cfDomainToDomainRecord d) = CFDomainSpec_Name (CFDomain_Spec d)
  /\ DomainRecord_GUID (cfDomainToDomainRecord d)
     = ObjectMeta_Name (CFDomain_ObjectMeta d).
Proof.
  unfold cfDomainToDomainRecord, repositories.cfDomainToDomainRecord.
  now destruct (getTimeLastUpdatedTimestamp (CFDomain_ObjectMeta d)).
Qed.

(** X1.  A failure of the store call of [GetDomain] that is not a status
    error with the reason "not found" or "unauthorized" (a status error
    of another reason such as "Forbidden", or an error of another type)
    is returned as it is, with the empty record: it is not turned into
    a [PermissionDeniedOrNotFoundError]. *)
Theorem GetDomain_returns_other_failures_unchanged :
  forall (r : DomainRepo) (authInfo : Info) (domainGUID : string) (err : error),
    Client_GetCFDomain (DomainRepo_privilegedClient r)
      {| NamespacedName_Namespace := ""; NamespacedName_Name := domainGUID |}
    = inr err ->
    (forall reason message,
        err = StatusError reason message ->
        reason <> StatusReasonNotFound /\ reason <> StatusReasonUnauthorized) ->
    GetDomain r authInfo domainGUID = (DomainRecord_zero, Some err).
Proof.
  intros r authInfo domainGUID err Hget Hother.
  unfold GetDomain, repositories.GetDomain. rewrite Hget.
  destruct err as [s | s e | reason message | e t | c]; try reflexivity.
  destruct (Hother reason message eq_refl) as [Hn Hu].
  apply String.eqb_neq in Hn, Hu. now rewrite Hn, Hu.
Qed.

(** X2.  [GetDomain] returns no error exactly when the store call
    succeeds, and then the record carries the name of the stored object
    as its GUID and the name of its spec as its name. *)
Theorem GetDomain_succeeds_iff_store_get_succeeds :
  forall (r : DomainRepo) (authInfo : Info) (domainGUID : string),
    (snd (GetDomain r authInfo domainGUID) = None
     <-> exists domain,
           Client_GetCFDomain (DomainRepo_privilegedClient r)
             {| NamespacedName_Namespace := ""; NamespacedName_Name := domainGUID |}
           = inl domain)
    /\ (forall domain,
           Client_GetCFDomain (DomainRepo_privilegedClient r)
             {| NamespacedName_Namespace := ""; NamespacedName_Name := domainGUID |}
           = inl domain ->
           GetDomain r authInfo domainGUID = (cfDomainToDomainRecord domain, None)
           /\ DomainRecord_GUID (fst (GetDomain r authInfo domainGUID))
              = ObjectMeta_Name (CFDomain_ObjectMeta domain)
           /\ DomainRecord_Name (fst (GetDomain r authInfo domainGUID))
              = CFDomainSpec_Name (CFDomain_Spec domain)).
Proof.
  intros r authInfo domainGUID.
  unfold GetDomain, repositories.GetDomain.
  destruct (Client_GetCFDomain (DomainRepo_privilegedClient r) _)
    as [domain | err] eqn:E.
  - split.
    + split; [intros _; now exists domain | reflexivity].
    + intros domain' H. injection H as <-. simpl.
      destruct (cfDomainToDomainRecord_fields domain) as [Hn Hg].
      split; [reflexivity|]. split; [exact Hg | exact Hn].
  - split; [|intros domain H; discriminate].
    split; [|intros [domain H]; discriminate].
    destruct err as [s | s e | reason message | e t | c]; simpl; try discriminate.
    destruct ((reason =? StatusReasonNotFound)
              || (reason =? StatusReasonUnauthorized)); discriminate.
Qed.

(** X3.  The records [ListDomains] returns are exactly the records of
    the listed domains that pass the filter of the message: every
    listed domain when the list of names is empty, else those whose
    name is in the list. *)
Theorem ListDomains_returns_the_matching_domains :
  forall (r : DomainRepo) (authInfo : Info) (message : ListDomainsMessage)
         (items : list CFDomain) (record : DomainRecord),
    Client_ListCFDomain (DomainRepo_privilegedClient r) = inl items ->
    (In record (fst (ListDomains r authInfo message))
     <-> exists d, In d items
                   /\ domainMatches message d = true
                   /\ record = cfDomainToDomainRecord d).
Proof.
  intros r authInfo message items record Hlist.
  unfold ListDomains.
  rewrite (ListDomains_listed _ _ _ _ _ _ Hlist). simpl fst.
  rewrite in_map_iff. split.
  - intros [d [<- Hin]]. apply in_applyDomainListFilterAndOrder in Hin as [Hin Hm].
    now exists d.
  - intros [d [Hin [Hm ->]]]. exists d. split; [reflexivity|].
    apply in_applyDomainListFilterAndOrder. now split.
Qed.

(** X4.  When the store fails to list the domains, [ListDomains]
    returns the empty list and the store's error, and [GetDomainByName]
    and [GetDefaultDomain] return the empty record and the same error,
    unchanged. *)
Theorem domain_lookups_return_listing_failure_unchanged :
  forall (r : DomainRepo) (authInfo : Info) (message : ListDomainsMessage)
         (domainName : string) (err : error),
    Client_ListCFDomain (DomainRepo_privilegedClient r) = inr err ->
    ListDomains r authInfo message = ([], Some err)
    /\ GetDomainByName r authInfo domainName = (DomainRecord_zero, Some err)
    /\ GetDefaultDomain r authInfo = (DomainRecord_zero, Some err).
Proof.
  intros r authInfo message domainName err Hlist.
  unfold ListDomains, GetDomainByName, GetDefaultDomain,
    repositories.GetDomainByName, repositories.GetDefaultDomain,
    repositories.ListDomains.
  rewrite Hlist. repeat split; reflexivity.
Qed.

(** The answer of [GetDomainByName] and of [GetDefaultDomain] in terms
    of the ordered list. *)
Lemma GetDomainByName_listed r authInfo domainName items :
  Client_ListCFDomain (DomainRepo_privilegedClient r) = inl items ->
  GetDomainByName r authInfo domainName
  = match applyDomainListFilterAndOrder items
            {| ListDomainsMessage_Names := [domainName] |} with
    | [] => (DomainRecord_zero, Some (PermissionDeniedOrNotFoundError None "Domain"))
    | first :: _ => (cfDomainToDomainRecord first, None)
    end.
Proof.
  intros Hlist.
  unfold GetDomainByName, repositories.GetDomainByName.
  rewrite (ListDomains_listed _ _ _ _ _ _ Hlist).
  now destruct (applyDomainListFilterAndOrder items _).
Qed.

Lemma GetDefaultDomain_listed r authInfo items :
  Client_ListCFDomain (DomainRepo_privilegedClient r) = inl items ->
  GetDefaultDomain r authInfo
  = match applyDomainListFilterAndOrder items {| ListDomainsMessage_Names := [] |} with
    | [] => (DomainRecord_zero,
             Some (PermissionDeniedOrNotFoundError None "Default Domain"))
    | first :: _ => (cfDomainToDomainRecord first, None)
    end.
Proof.
  intros Hlist.
  unfold GetDefaultDomain, repositories.GetDefaultDomain.
  rewrite (ListDomains_listed _ _ _ _ _ _ Hlist).
  now destruct (applyDomainListFilterAndOrder items _).
Qed.

Lemma domainMatches_single_name domainName (d : CFDomain) :
  domainMatches {| ListDomainsMessage_Names := [domainName] |} d = true
  <-> CFDomainSpec_Name (CFDomain_Spec d) = domainName.
Proof.
  unfold domainMatches. simpl. rewrite orb_false_r. apply String.eqb_eq.
Qed.

(** X5.  When the store lists the domains, [GetDomainByName] succeeds
    exactly when some listed domain has the requested name, and the
    record it returns then carries that name; when no listed domain has
    it, the error is a [PermissionDeniedOrNotFoundError] for the
    resource type "Domain" that wraps no error. *)
Theorem GetDomainByName_succeeds_iff_name_listed :
  forall (r : DomainRepo) (authInfo : Info) (domainName : string)
         (items : list CFDomain),
    Client_ListCFDomain (DomainRepo_privilegedClient r) = inl items ->
    (snd (GetDomainByName r authInfo domainName) = None
     <-> exists d, In d items /\ CFDomainSpec_Name (CFDomain_Spec d) = domainName)
    /\ (snd (GetDomainByName r authInfo domainName) = None ->
        DomainRecord_Name (fst (GetDomainByName r authInfo domainName)) = domainName)
    /\ ((forall d, In d items -> CFDomainSpec_Name (CFDomain_Spec d) <> domainName) ->
        GetDomainByName r authInfo domainName
        = (DomainRecord_zero, Some (PermissionDeniedOrNotFoundError None "Domain"))).
Proof.
  intros r authInfo domainName items Hlist.
  rewrite (GetDomainByName_listed _ authInfo domainName _ Hlist).
  pose proof (in_applyDomainListFilterAndOrder items
                {| ListDomainsMessage_Names := [domainName] |}) as Hin.
  destruct (applyDomainListFilterAndOrder items
              {| ListDomainsMessage_Names := [domainName] |}) as [|first rest].
  - split; [|split].
    + split; [discriminate|].
      intros [d [Hd Hname]].
      destruct (proj2 (Hin d)) as [];
        split; [exact Hd | now apply domainMatches_single_name].
    + discriminate.
    + reflexivity.
  - destruct (proj1 (Hin first) (or_introl eq_refl)) as [Hf Hm].
    apply domainMatches_single_name in Hm.
    split; [|split].
    + split; [intros _; now exists first | reflexivity].
    + intros _. simpl.
      destruct (cfDomainToDomainRecord_fields first) as [Hn _].
      now rewrite Hn.
    + intros Hnone. exfalso. now apply (Hnone first).
Qed.

(** X6.  When the store lists the domains, [GetDefaultDomain] returns
    the record of a listed domain that no listed domain precedes in
    creation time; it fails exactly when no domain is listed, with a
    [PermissionDeniedOrNotFoundError] for the resource type
    "Default Domain". *)
Theorem GetDefaultDomain_returns_earliest_domain :
  forall (r : DomainRepo) (authInfo : Info) (items : list CFDomain),
    Client_ListCFDomain (DomainRepo_privilegedClient r) = inl items ->
    (items = [] ->
     GetDefaultDomain r authInfo
     = (DomainRecord_zero,
        Some (PermissionDeniedOrNotFoundError None "Default Domain")))
    /\ (items <> [] ->
        exists d,
          In d items
          /\ (forall d', In d' items -> (domainCreated d <= domainCreated d')%Z)
          /\ GetDefaultDomain r authInfo = (cfDomainToDomainRecord d, None)).
Proof.
  intros r authInfo items Hlist.
  rewrite (GetDefaultDomain_listed _ authInfo _ Hlist).
  pose proof (in_applyDomainListFilterAndOrder items
                {| ListDomainsMessage_Names := [] |}) as Hin.
  pose proof (applyDomainListFilterAndOrder_ascending items
                {| ListDomainsMessage_Names := [] |}) as Hsorted.
  split.
  - intros ->. reflexivity.
  - intros Hne.
    destruct (applyDomainListFilterAndOrder items
                {| ListDomainsMessage_Names := [] |}) as [|first rest].
    + destruct items as [|d0 items']; [congruence|].
      destruct (proj2 (Hin d0)) as []. split; [now left | reflexivity].
    + exists first.
      destruct (proj1 (Hin first) (or_introl eq_refl)) as [Hf _].
      split; [exact Hf|]. split; [|reflexivity].
      intros d' Hd'.
      apply StronglySorted_inv in Hsorted as [_ Hall].
      rewrite Forall_forall in Hall.
      destruct (proj2 (Hin d') (conj Hd' eq_refl)) as [<- | Hrest]; [lia|].
      now apply Hall.
Qed.

(** X7.  When listed domains created at the same instant are equal, the
    answer of [ListDomains] does not depend on the order in which the
    store lists the domains: two listings of the same objects give the
    same records in the same order. *)
Theorem ListDomains_independent_of_listing_order :
  forall (r r' : DomainRepo) (authInfo : Info) (message : ListDomainsMessage)
         (items items' : list CFDomain),
    Client_ListCFDomain (DomainRepo_privilegedClient r) = inl items ->
    Client_ListCFDomain (DomainRepo_privilegedClient r') = inl items' ->
    Permutation items items' ->
    (forall a b, In a items -> In b items ->
                 domainCreated a = domainCreated b -> a = b) ->
    ListDomains r authInfo message = ListDomains r' authInfo message.
Proof.
  intros r r' authInfo message items items' Hlist Hlist' Hperm Hinj.
  unfold ListDomains.
  rewrite (ListDomains_listed _ _ _ _ _ _ Hlist),
          (ListDomains_listed _ _ _ _ _ _ Hlist').
  f_equal. f_equal.
  apply (sorted_Permutation_unique domainCreated).
  - intros a b Ha Hb. apply in_applyDomainListFilterAndOrder in Ha as [Ha _].
    apply in_applyDomainListFilterAndOrder in Hb as [Hb _]. now apply Hinj.
  - apply applyDomainListFilterAndOrder_ascending.
  - apply applyDomainListFilterAndOrder_ascending.
  - unfold applyDomainListFilterAndOrder.
    eapply perm_trans; [apply Permutation_sym, sort_Slice_Permutation|].
    eapply perm_trans; [|apply sort_Slice_Permutation].
    destruct (nonEmpty (ListDomainsMessage_Names message)); [|exact Hperm].
    now apply Permutation_flat_map.
Qed.

End DomainRepositoryMore.

Lemma GetDomain_returns_other_failures_unchanged_witness :
  GetDomain sampleFormat sampleLastUpdated (NewDomainRepo forbiddenClient)
            noAuth "domain-guid"
  = (DomainRecord_zero, Some (StatusError "Forbidden" "store failure")).
Proof.
  apply (GetDomain_returns_other_failures_unchanged
           sampleFormat sampleLastUpdated (NewDomainRepo forbiddenClient)
           noAuth "domain-guid" (StatusError "Forbidden" "store failure")).
  - reflexivity.
  - intros reason message E. injection E as <- <-. split; discriminate.
Defined.

Lemma ListDomains_returns_the_matching_domains_witness :
  In (cfDomainToDomainRecord sampleFormat sampleLastUpdated domainA)
     (fst (ListDomains sampleFormat sampleLastUpdated
             (sampleDomainRepo [domainB; domainA]) noAuth
             {| ListDomainsMessage_Names := ["example.org"] |})).
Proof.
  apply (ListDomains_returns_the_matching_domains
           sampleFormat sampleLastUpdated
           (sampleDomainRepo [domainB; domainA]) noAuth
           {| ListDomainsMessage_Names := ["example.org"] |}
           [domainB; domainA] _ eq_refl).
  exists domainA. split; [right; now left|]. split; reflexivity.
Defined.

Lemma domain_lookups_return_listing_failure_unchanged_witness :
  ListDomains sampleFormat sampleLastUpdated (NewDomainRepo failingClient)
              noAuth noDomainFilter
  = ([], Some (errorString "connection refused"))
  /\ GetDomainByName sampleFormat sampleLastUpdated (NewDomainRepo failingClient)
                     noAuth "example.com"
     = (DomainRecord_zero, Some (errorString "connection refused"))
  /\ GetDefaultDomain sampleFormat sampleLastUpdated (NewDomainRepo failingClient)
                      noAuth
     = (DomainRecord_zero, Some (errorString "connection refused")).
Proof.
  apply (domain_lookups_return_listing_failure_unchanged
           sampleFormat sampleLastUpdated (NewDomainRepo failingClient)
           noAuth noDomainFilter "example.com" (errorString "connection refused")).
  reflexivity.
Defined.

Lemma GetDomainByName_succeeds_iff_name_listed_witness :
  GetDomainByName sampleFormat sampleLastUpdated (sampleDomainRepo sampleDomains)
                  noAuth "example.net"
  = (DomainRecord_zero, Some (PermissionDeniedOrNotFoundError None "Domain")).
Proof.
  destruct (GetDomainByName_succeeds_iff_name_listed
              sampleFormat sampleLastUpdated (sampleDomainRepo sampleDomains)
              noAuth "example.net" sampleDomains eq_refl) as [_ [_ H]].
  apply H. intros d [<- | [<- | [<- | []]]]; discriminate.
Defined.

Lemma GetDefaultDomain_returns_earliest_domain_witness :
  exists d,
    In d sampleDomains
    /\ (forall d', In d' sampleDomains -> (domainCreated d <= domainCreated d')%Z)
    /\ GetDefaultDomain sampleFormat sampleLastUpdated
         (sampleDomainRepo sampleDomains) noAuth
       = (cfDomainToDomainRecord sampleFormat sampleLastUpdated d, None).
Proof.
  destruct (GetDefaultDomain_returns_earliest_domain
              sampleFormat sampleLastUpdated (sampleDomainRepo sampleDomains)
              noAuth sampleDomains eq_refl) as [_ H].
  apply H. discriminate.
Defined.

Lemma ListDomains_independent_of_listing_order_witness :
  ListDomains sampleFormat sampleLastUpdated (sampleDomainRepo sampleDomains)
              noAuth noDomainFilter
  = ListDomains sampleFormat sampleLastUpdated
                (sampleDomainRepo (rev sampleDomains)) noAuth noDomainFilter.
Proof.
  apply (ListDomains_independent_of_listing_order
           sampleFormat sampleLastUpdated
           (sampleDomainRepo sampleDomains) (sampleDomainRepo (rev sampleDomains))
           noAuth noDomainFilter sampleDomains (rev sampleDomains)
           eq_refl eq_refl (Permutation_rev sampleDomains)).
  intros a b [<- | [<- | [<- | []]]] [<- | [<- | [<- | []]]] H;
    try reflexivity; discriminate H.
Defined.

Lemma GetDomain_succeeds_iff_store_get_succeeds_witness :
  GetDomain sampleFormat sampleLastUpdated (sampleDomainRepo sampleDomains)
            noAuth "d1"
  = (cfDomainToDomainRecord sampleFormat sampleLastUpdated
       (mkDomain "d1" "example.com" 3%Z), None)
  /\ DomainRecord_GUID
       (fst (GetDomain sampleFormat sampleLastUpdated
               (sampleDomainRepo sampleDomains) noAuth "d1"))
     = "d1"
  /\ DomainRecord_Name
       (fst (GetDomain sampleFormat sampleLastUpdated
               (sampleDomainRepo sampleDomains) noAuth "d1"))
     = "example.com".
Proof.
  destruct (GetDomain_succeeds_iff_store_get_succeeds
              sampleFormat sampleLastUpdated (sampleDomainRepo sampleDomains)
              noAuth "d1") as [_ H].
  apply (H (mkDomain "d1" "example.com" 3%Z)). reflexivity.
Defined.

(** ** The package repository *)

Lemma count_occ_filter {A : Type} (dec : forall x y : A, {x = y} + {x <> y})
  (keep : A -> bool) (l : list A) (x : A) :
  count_occ dec (filter keep l) x = if keep x then count_occ dec l x else 0.
Proof.
  induction l as [|a l IH]; simpl.
  - now destruct (keep x).
  - destruct (keep a) eqn:Ea; simpl; destruct (dec a x) as [E|E];
      rewrite IH; try reflexivity.
    + subst a. now rewrite Ea.
    + subst a. now rewrite Ea.
Qed.

Lemma existsb_same_members (x : string) (l1 l2 : list string) :
  (forall y, In y l1 <-> In y l2) ->
  existsb (fun y => x =? y) l1 = existsb (fun y => x =? y) l2.
Proof.
  intros H.
  destruct (existsb (fun y => x =? y) l1) eqn:E1;
    destruct (existsb (fun y => x =? y) l2) eqn:E2; try reflexivity.
  - apply existsb_exists in E1 as [y [Hy Exy]].
    assert (Hex : existsb (fun y => x =? y) l2 = true)
      by (apply existsb_exists; exists y; split; [now apply H | exact Exy]).
    congruence.
  - apply existsb_exists in E2 as [y [Hy Exy]].
    assert (Hex : existsb (fun y => x =? y) l1 = true)
      by (apply existsb_exists; exists y; split; [now apply H | exact Exy]).
    congruence.
Qed.

Lemma nonEmpty_same_members (l1 l2 : list string) :
  (forall y, In y l1 <-> In y l2) -> nonEmpty l1 = nonEmpty l2.
Proof.
  intros H. destruct l1 as [|a l1], l2 as [|b l2]; try reflexivity.
  - destruct (proj2 (H b) (or_introl eq_refl)).
  - destruct (proj1 (H a) (or_introl eq_refl)).
Qed.

Section PackageRepositoryMore.

Variable formatTimestamp : Time -> string.
Variable getTimeLastUpdatedTimestamp : ObjectMeta -> string * option error.

Let cfPackageToPackageRecord :=
  cfPackageToPackageRecord formatTimestamp getTimeLastUpdatedTimestamp.
Let GetPackage := GetPackage formatTimestamp getTimeLastUpdatedTimestamp.
Let ListPackages := ListPackages formatTimestamp getTimeLastUpdatedTimestamp.

Lemma cfPackageToPackageRecord_fields (p : CFPackage) :
  PackageRecord_GUID (cfPackageToPackageRecord p) = packageName p
  /\ PackageRecord_SpaceGUID (cfPackageToPackageRecord p)
     = ObjectMeta_Namespace (CFPackage_ObjectMeta p)
  /\ PackageRecord_AppGUID (cfPackageToPackageRecord p)
     = LocalObjectReference_Name (CFPackageSpec_AppRef (CFPackage_Spec p))
  /\ PackageRecord_State (cfPackageToPackageRecord p)
     = if packageImage p =? "" then PackageStateAwaitingUpload else PackageStateReady.
Proof.
  unfold cfPackageToPackageRecord, repositories.cfPackageToPackageRecord.
  now destruct (getTimeLastUpdatedTimestamp (CFPackage_ObjectMeta p)).
Qed.

(** X8.  When the store lists the packages, [GetPackage] succeeds
    exactly when one listed package, and no more, is named by the
    identifier; it then returns the record of that package, whose GUID
    is the identifier.  When no listed package is named by it, the
    error is a [PermissionDeniedOrNotFoundError] with no resource type
    and no wrapped error. *)
Theorem GetPackage_succeeds_iff_single_match :
  forall (r : PackageRepo) (authInfo : Info) (guid : string)
         (items : list CFPackage),
    Client_ListCFPackage (PackageRepo_privilegedClient r) = inl items ->
    (snd (GetPackage r authInfo guid) = None
     <-> List.length (filterPackagesByMetadataName items guid) = 1)
    /\ (forall p, filterPackagesByMetadataName items guid = [p] ->
                  GetPackage r authInfo guid = (cfPackageToPackageRecord p, None)
                  /\ In p items
                  /\ PackageRecord_GUID (fst (GetPackage r authInfo guid)) = guid)
    /\ (filterPackagesByMetadataName items guid = [] ->
        GetPackage r authInfo guid
        = (PackageRecord_zero, Some (PermissionDeniedOrNotFoundError None ""))).
Proof.
  intros r authInfo guid items Hlist.
  unfold GetPackage, repositories.GetPackage. rewrite Hlist.
  pose proof (fun p => proj1 (filter_In
                (fun app => ObjectMeta_Name (CFPackage_ObjectMeta app) =? guid)
                p items)) as Hin.
  fold (filterPackagesByMetadataName items guid) in Hin.
  destruct (filterPackagesByMetadataName items guid) as [|p [|q rest]]; simpl.
  - split; [split; discriminate|]. split; [discriminate | reflexivity].
  - split; [split; reflexivity|]. split; [|discriminate].
    intros p' E. injection E as <-.
    destruct (Hin p (or_introl eq_refl)) as [Hp Hname].
    apply String.eqb_eq in Hname.
    split; [reflexivity|]. split; [exact Hp|].
    change (PackageRecord_GUID (cfPackageToPackageRecord p) = guid).
    destruct (cfPackageToPackageRecord_fields p) as [Hg _].
    rewrite Hg. exact Hname.
  - split; [split; discriminate|]. split; discriminate.
Qed.

Lemma in_matching_ordered_packages message items (p : CFPackage) :
  In p (filter (fun p => packageMatches message (cfPackageToPackageRecord p))
               (orderPackages items message))
  <-> In p items /\ packageMatches message (cfPackageToPackageRecord p) = true.
Proof.
  rewrite filter_In. split; intros [Hin Hm]; (split; [|exact Hm]).
  - eapply Permutation_in;
      [apply Permutation_sym, orderPackages_Permutation | exact Hin].
  - eapply Permutation_in; [apply orderPackages_Permutation | exact Hin].
Qed.

Lemma in_ListPackages r authInfo message items (record : PackageRecord) :
  Client_ListCFPackage (PackageRepo_privilegedClient r) = inl items ->
  (In record (fst (ListPackages r authInfo message))
   <-> exists p, In p items
                 /\ packageMatches message (cfPackageToPackageRecord p) = true
                 /\ record = cfPackageToPackageRecord p).
Proof.
  intros Hlist. unfold ListPackages.
  rewrite (ListPackages_listed _ _ _ authInfo message _ Hlist). simpl fst.
  rewrite in_map_iff. split.
  - intros [p [<- Hin]]. apply in_matching_ordered_packages in Hin as [Hin Hm].
    now exists p.
  - intros [p [Hin [Hm ->]]]. exists p. split; [reflexivity|].
    apply in_matching_ordered_packages. now split.
Qed.

(** X9.  The records [ListPackages] returns are exactly the records of
    the listed packages that pass both filters of the message; in
    particular an empty list of application GUIDs or of states
    restricts nothing. *)
Theorem ListPackages_returns_the_matching_packages :
  forall (r : PackageRepo) (authInfo : Info) (message : ListPackagesMessage)
         (items : list CFPackage) (record : PackageRecord),
    Client_ListCFPackage (PackageRepo_privilegedClient r) = inl items ->
    (In record (fst (ListPackages r authInfo message))
     <-> exists p, In p items
                   /\ packageMatches message (cfPackageToPackageRecord p) = true
                   /\ record = cfPackageToPackageRecord p)
    /\ (ListPackagesMessage_AppGUIDs message = [] ->
        ListPackagesMessage_States message = [] ->
        forall p, In p items ->
                  In (cfPackageToPackageRecord p)
                     (fst (ListPackages r authInfo message))).
Proof.
  intros r authInfo message items record Hlist.
  split; [now apply in_ListPackages|].
  intros Happs Hstates p Hin.
  apply (in_ListPackages r authInfo message items _ Hlist).
  exists p. split; [exact Hin|]. split; [|reflexivity].
  unfold packageMatches. now rewrite Happs, Hstates.
Qed.

(** X10.  [ListPackages] returns the record of a listed package as many
    times as the store lists the package when the package passes the
    filters, and not at all otherwise, however often an entry is
    repeated in a filter; so it never returns more records than the
    store lists packages. *)
Theorem ListPackages_keeps_multiplicity :
  forall (r : PackageRepo) (authInfo : Info) (message : ListPackagesMessage)
         (items : list CFPackage),
    Client_ListCFPackage (PackageRepo_privilegedClient r) = inl items ->
    (exists objs,
        ListPackages r authInfo message = (map cfPackageToPackageRecord objs, None)
        /\ forall p,
             count_occ CFPackage_eq_dec objs p
             = if packageMatches message (cfPackageToPackageRecord p)
               then count_occ CFPackage_eq_dec items p
               else 0)
    /\ List.length (fst (ListPackages r authInfo message)) <= List.length items.
Proof.
  intros r authInfo message items Hlist.
  unfold ListPackages.
  rewrite (ListPackages_listed _ _ _ authInfo message _ Hlist).
  split.
  - eexists. split; [reflexivity|].
    intros p. rewrite count_occ_filter. unfold cfPackageToPackageRecord.
    destruct (packageMatches message _); [|reflexivity].
    symmetry. apply Permutation_count_occ, orderPackages_Permutation.
  - simpl fst. rewrite length_map.
    rewrite (Permutation_length (orderPackages_Permutation items message)).
    apply filter_length_le.
Qed.

Lemma packageMatches_same_sets (m1 m2 : ListPackagesMessage) (record : PackageRecord) :
  (forall g, In g (ListPackagesMessage_AppGUIDs m1)
             <-> In g (ListPackagesMessage_AppGUIDs m2)) ->
  (forall s, In s (ListPackagesMessage_States m1)
             <-> In s (ListPackagesMessage_States m2)) ->
  packageMatches m1 record = packageMatches m2 record.
Proof.
  intros Ha Hs. unfold packageMatches.
  rewrite (nonEmpty_same_members _ _ Ha), (nonEmpty_same_members _ _ Hs).
  rewrite (existsb_same_members (PackageRecord_AppGUID record) _ _ Ha).
  rewrite (existsb_same_members (PackageRecord_State record) _ _ Hs).
  reflexivity.
Qed.

(** X11.  The answer of [ListPackages] depends on the filters of the
    message only through the sets of their entries: two messages with
    the same sort options whose filters hold the same application GUIDs
    and the same states, in any order and any number of times, get the
    same answer. *)
Theorem ListPackages_depends_on_filter_sets :
  forall (r : PackageRepo) (authInfo : Info) (m1 m2 : ListPackagesMessage)
         (items : list CFPackage),
    Client_ListCFPackage (PackageRepo_privilegedClient r) = inl items ->
    (forall g, In g (ListPackagesMessage_AppGUIDs m1)
               <-> In g (ListPackagesMessage_AppGUIDs m2)) ->
    (forall s, In s (ListPackagesMessage_States m1)
               <-> In s (ListPackagesMessage_States m2)) ->
    ListPackagesMessage_SortBy m1 = ListPackagesMessage_SortBy m2 ->
    ListPackagesMessage_DescendingOrder m1 = ListPackagesMessage_DescendingOrder m2 ->
    ListPackages r authInfo m1 = ListPackages r authInfo m2.
Proof.
  intros r authInfo m1 m2 items Hlist Ha Hs Hsort Hdesc.
  unfold ListPackages.
  rewrite (ListPackages_listed _ _ _ authInfo m1 _ Hlist),
          (ListPackages_listed _ _ _ authInfo m2 _ Hlist).
  assert (Horder : orderPackages items m1 = orderPackages items m2).
  { unfold orderPackages. now rewrite Hsort, Hdesc. }
  rewrite Horder. f_equal. f_equal.
  apply filter_ext. intros p. now apply packageMatches_same_sets.
Qed.

(** X12.  With no filter on the application, the packages that
    [ListPackages] returns for the state "READY" are the listed packages
    whose source names an image, and those it returns for the state
    "AWAITING_UPLOAD" are the listed packages whose source names none. *)
Theorem ListPackages_state_filter_follows_image :
  forall (r : PackageRepo) (authInfo : Info) (message : ListPackagesMessage)
         (items : list CFPackage) (record : PackageRecord),
    Client_ListCFPackage (PackageRepo_privilegedClient r) = inl items ->
    ListPackagesMessage_AppGUIDs message = [] ->
    (ListPackagesMessage_States message = [PackageStateReady] ->
     (In record (fst (ListPackages r authInfo message))
      <-> exists p, In p items /\ packageImage p <> ""
                    /\ record = cfPackageToPackageRecord p))
    /\ (ListPackagesMessage_States message = [PackageStateAwaitingUpload] ->
        (In record (fst (ListPackages r authInfo message))
         <-> exists p, In p items /\ packageImage p = ""
                       /\ record = cfPackageToPackageRecord p)).
Proof.
  intros r authInfo message items record Hlist Happs.
  assert (Hmatch : forall p state,
             ListPackagesMessage_States message = [state] ->
             packageMatches message (cfPackageToPackageRecord p)
             = (PackageRecord_State (cfPackageToPackageRecord p) =? state)).
  { intros p state Hstates. unfold packageMatches.
    rewrite Happs, Hstates. simpl. now rewrite orb_false_r. }
  split; intros Hstates;
    rewrite (in_ListPackages r authInfo message items record Hlist);
    split; intros [p [Hin [Hm ->]]]; exists p; (split; [exact Hin|]);
    (split; [|reflexivity]);
    rewrite (Hmatch p _ Hstates) in *;
    destruct (cfPackageToPackageRecord_fields p) as [_ [_ [_ Hstate]]];
    rewrite Hstate in *;
    destruct (String.eqb_spec (packageImage p) ""); try assumption;
    try discriminate; try reflexivity; congruence.
Qed.

Lemma orderPackages_descending_reverses packages asc desc :
  descendingRequested desc = true ->
  descendingRequested asc = false ->
  (forall a b, In a packages -> In b packages ->
               packageCreated a = packageCreated b -> a = b) ->
  orderPackages packages desc = rev (orderPackages packages asc).
Proof.
  intros Hdesc Hasc Hinj.
  pose proof (orderPackages_sorted packages desc) as Hd. rewrite Hdesc in Hd.
  pose proof (orderPackages_sorted packages asc) as Ha. rewrite Hasc in Ha.
  rewrite <- (rev_involutive (orderPackages packages desc)). f_equal.
  symmetry. apply (sorted_Permutation_unique packageCreated).
  - intros a b Hina Hinb. apply Hinj.
    + eapply Permutation_in;
        [apply Permutation_sym, orderPackages_Permutation | exact Hina].
    + eapply Permutation_in;
        [apply Permutation_sym, orderPackages_Permutation | exact Hinb].
  - exact Ha.
  - apply (StronglySorted_rev
             (fun a b => (packageCreated b <= packageCreated a)%Z)), Hd.
  - eapply perm_trans; [apply Permutation_sym, orderPackages_Permutation|].
    eapply perm_trans; [apply orderPackages_Permutation|].
    apply Permutation_rev.
Qed.

(** X13.  When listed packages created at the same instant are equal,
    the answer of [ListPackages] to a message that asks for the
    descending order is the reverse of its answer to a message with the
    same filters that does not. *)
Theorem ListPackages_descending_is_reverse_of_ascending :
  forall (r : PackageRepo) (authInfo : Info) (asc desc : ListPackagesMessage)
         (items : list CFPackage),
    Client_ListCFPackage (PackageRepo_privilegedClient r) = inl items ->
    descendingRequested desc = true ->
    descendingRequested asc = false ->
    ListPackagesMessage_AppGUIDs asc = ListPackagesMessage_AppGUIDs desc ->
    ListPackagesMessage_States asc = ListPackagesMessage_States desc ->
    (forall a b, In a items -> In b items ->
                 packageCreated a = packageCreated b -> a = b) ->
    fst (ListPackages r authInfo desc) = rev (fst (ListPackages r authInfo asc)).
Proof.
  intros r authInfo asc desc items Hlist Hdesc Hasc Happs Hstates Hinj.
  unfold ListPackages.
  rewrite (ListPackages_listed _ _ _ authInfo desc _ Hlist),
          (ListPackages_listed _ _ _ authInfo asc _ Hlist).
  simpl fst.
  rewrite (orderPackages_descending_reverses items asc desc Hdesc Hasc Hinj).
  rewrite filter_rev, map_rev. f_equal. f_equal.
  apply filter_ext. intros p. unfold packageMatches. now rewrite Happs, Hstates.
Qed.

(** X14.  When listed packages created at the same instant are equal,
    the answer of [ListPackages] does not depend on the order in which
    the store lists the packages. *)
Theorem ListPackages_independent_of_listing_order :
  forall (r r' : PackageRepo) (authInfo : Info) (message : ListPackagesMessage)
         (items items' : list CFPackage),
    Client_ListCFPackage (PackageRepo_privilegedClient r) = inl items ->
    Client_ListCFPackage (PackageRepo_privilegedClient r') = inl items' ->
    Permutation items items' ->
    (forall a b, In a items -> In b items ->
                 packageCreated a = packageCreated b -> a = b) ->
    ListPackages r authInfo message = ListPackages r' authInfo message.
Proof.
  intros r r' authInfo message items items' Hlist Hlist' Hperm Hinj.
  unfold ListPackages.
  rewrite (ListPackages_listed _ _ _ authInfo message _ Hlist),
          (ListPackages_listed _ _ _ authInfo message _ Hlist').
  f_equal. f_equal. f_equal.
  assert (Hp : Permutation (orderPackages items message)
                           (orderPackages items' message)).
  { eapply perm_trans; [apply Permutation_sym, orderPackages_Permutation|].
    eapply perm_trans; [exact Hperm | apply orderPackages_Permutation]. }
  assert (Hinj' : forall a b,
             In a (orderPackages items message) ->
             In b (orderPackages items message) ->
             packageCreated a = packageCreated b -> a = b).
  { intros a b Ha Hb. apply Hinj;
      (eapply Permutation_in;
       [apply Permutation_sym, orderPackages_Permutation | eassumption]). }
  pose proof (orderPackages_sorted items message) as Hs.
  pose proof (orderPackages_sorted items' message) as Hs'.
  destruct (descendingRequested message).
  - rewrite <- (rev_involutive (orderPackages items message)),
            <- (rev_involutive (orderPackages items' message)).
    f_equal. apply (sorted_Permutation_unique packageCreated).
    + intros a b Ha Hb. apply Hinj'; now apply in_rev.
    + apply (StronglySorted_rev
               (fun a b => (packageCreated b <= packageCreated a)%Z)), Hs.
    + apply (StronglySorted_rev
               (fun a b => (packageCreated b <= packageCreated a)%Z)), Hs'.
    + eapply perm_trans; [apply Permutation_sym, Permutation_rev|].
      eapply perm_trans; [exact Hp | apply Permutation_rev].
  - now apply (sorted_Permutation_unique packageCreated).
Qed.

End PackageRepositoryMore.

Section UpdateSource.

Variable formatTimestamp : Time -> string.
Variable getTimeLastUpdatedTimestamp : ObjectMeta -> string * option error.
Variable Client_PatchCFPackage : Client -> CFPackage -> CFPackage -> CFPackage + error.

Let UpdatePackageSource :=
  UpdatePackageSource formatTimestamp getTimeLastUpdatedTimestamp
                      Client_PatchCFPackage.

(** X15.  Every error that [UpdatePackageSource] returns is the error
    of its one patch wrapped with the text "err in client.Patch",
    together with the empty record: the privileged client of the
    repository was asked to patch the package named by the message, in
    the namespace of the message, to the image and the pull secret of
    the message, against a base of the same name without an image, and
    the error wrapped is the one this patch answered.  The kind of the
    returned error is never [PermissionDeniedOrNotFound]: a patch that
    the store answers with "not found" is not collapsed as in
    [GetDomain]. *)
Theorem UpdatePackageSource_wraps_every_failure :
  forall (r : PackageRepo) (authInfo : Info) (message : UpdatePackageSourceMessage)
         (e : error),
    snd (UpdatePackageSource r authInfo message) = Some e ->
    exists (cfPackage baseCFPackage : CFPackage) (err : error),
      Client_PatchCFPackage (PackageRepo_privilegedClient r) cfPackage baseCFPackage
      = inr err
      /\ e = wrapError "err in client.Patch: %w" err
      /\ packageName cfPackage = UpdatePackageSourceMessage_GUID message
      /\ packageNamespace cfPackage = UpdatePackageSourceMessage_SpaceGUID message
      /\ packageImage cfPackage = UpdatePackageSourceMessage_ImageRef message
      /\ packagePullSecrets cfPackage
         = [UpdatePackageSourceMessage_RegistrySecretName message]
      /\ CFPackage_ObjectMeta baseCFPackage = CFPackage_ObjectMeta cfPackage
      /\ packageImage baseCFPackage = ""
      /\ packagePullSecrets baseCFPackage = []
      /\ fst (UpdatePackageSource r authInfo message) = PackageRecord_zero
      /\ errorKind e = Unknown.
Proof.
  intros r authInfo message e.
  unfold UpdatePackageSource, repositories.UpdatePackageSource.
  match goal with
  | |- context [Client_PatchCFPackage ?c ?p ?b] =>
      destruct (Client_PatchCFPackage c p b) as [patched | err] eqn:Epatch
  end; simpl.
  - discriminate.
  - intros H. injection H as <-.
    eexists. eexists. exists err.
    split; [exact Epatch|]. repeat split.
Qed.

End UpdateSource.

Lemma UpdatePackageSource_wraps_every_failure_witness :
  exists (cfPackage baseCFPackage : CFPackage) (err : error),
    samplePatchNotFound
      (PackageRepo_privilegedClient (samplePackageRepo samplePackages))
      cfPackage baseCFPackage
    = inr err
    /\ wrapError "err in client.Patch: %w" (StatusError StatusReasonNotFound "p1")
       = wrapError "err in client.Patch: %w" err
    /\ packageName cfPackage = "p1"
    /\ packageNamespace cfPackage = "space-1"
    /\ packageImage cfPackage = "registry/image"
    /\ packagePullSecrets cfPackage = ["registry-secret"]
    /\ CFPackage_ObjectMeta baseCFPackage = CFPackage_ObjectMeta cfPackage
    /\ packageImage baseCFPackage = ""
    /\ packagePullSecrets baseCFPackage = []
    /\ fst (UpdatePackageSource sampleFormat sampleLastUpdated samplePatchNotFound
              (samplePackageRepo samplePackages) noAuth sampleUpdateSource)
       = PackageRecord_zero
    /\ errorKind (wrapError "err in client.Patch: %w"
                            (StatusError StatusReasonNotFound "p1"))
       = Unknown.
Proof.
  apply (UpdatePackageSource_wraps_every_failure
           sampleFormat sampleLastUpdated samplePatchNotFound
           (samplePackageRepo samplePackages) noAuth sampleUpdateSource).
  reflexivity.
Defined.

Lemma GetPackage_succeeds_iff_single_match_witness :
  GetPackage sampleFormat sampleLastUpdated (samplePackageRepo samplePackages)
             noAuth "p2"
  = (cfPackageToPackageRecord sampleFormat sampleLastUpdated packageP2, None)
  /\ In packageP2 samplePackages
  /\ PackageRecord_GUID
       (fst (GetPackage sampleFormat sampleLastUpdated
               (samplePackageRepo samplePackages) noAuth "p2"))
     = "p2".
Proof.
  destruct (GetPackage_succeeds_iff_single_match
              sampleFormat sampleLastUpdated (samplePackageRepo samplePackages)
              noAuth "p2" samplePackages eq_refl) as [_ [H _]].
  apply H. reflexivity.
Defined.

Lemma ListPackages_returns_the_matching_packages_witness :
  In (cfPackageToPackageRecord sampleFormat sampleLastUpdated packageP3)
     (fst (ListPackages sampleFormat sampleLastUpdated
             (samplePackageRepo samplePackages) noAuth noPackageFilter)).
Proof.
  destruct (ListPackages_returns_the_matching_packages
              sampleFormat sampleLastUpdated (samplePackageRepo samplePackages)
              noAuth noPackageFilter samplePackages
              (cfPackageToPackageRecord sampleFormat sampleLastUpdated packageP3)
              eq_refl) as [_ H].
  apply H; [reflexivity | reflexivity|]. right; right; now left.
Defined.

Lemma ListPackages_keeps_multiplicity_witness :
  List.length
    (fst (ListPackages sampleFormat sampleLastUpdated
            (samplePackageRepo samplePackages) noAuth (appsMessage ["a1"; "a1"])))
  <= List.length samplePackages.
Proof.
  destruct (ListPackages_keeps_multiplicity
              sampleFormat sampleLastUpdated (samplePackageRepo samplePackages)
              noAuth (appsMessage ["a1"; "a1"]) samplePackages eq_refl) as [_ H].
  exact H.
Defined.

Lemma ListPackages_depends_on_filter_sets_witness :
  ListPackages sampleFormat sampleLastUpdated (samplePackageRepo samplePackages)
               noAuth (appsMessage ["a1"; "a2"; "a1"])
  = ListPackages sampleFormat sampleLastUpdated (samplePackageRepo samplePackages)
                 noAuth (appsMessage ["a2"; "a1"]).
Proof.
  apply (ListPackages_depends_on_filter_sets
           sampleFormat sampleLastUpdated (samplePackageRepo samplePackages)
           noAuth (appsMessage ["a1"; "a2"; "a1"]) (appsMessage ["a2"; "a1"])
           samplePackages eq_refl).
  - intros g. simpl. tauto.
  - intros s. simpl. tauto.
  - reflexivity.
  - reflexivity.
Defined.

Lemma ListPackages_state_filter_follows_image_witness :
  In (cfPackageToPackageRecord sampleFormat sampleLastUpdated packageP2)
     (fst (ListPackages sampleFormat sampleLastUpdated
             (samplePackageRepo samplePackages) noAuth
             (statesMessage [PackageStateReady]))).
Proof.
  destruct (ListPackages_state_filter_follows_image
              sampleFormat sampleLastUpdated (samplePackageRepo samplePackages)
              noAuth (statesMessage [PackageStateReady]) samplePackages
              (cfPackageToPackageRecord sampleFormat sampleLastUpdated packageP2)
              eq_refl eq_refl) as [H _].
  apply (H eq_refl). exists packageP2.
  split; [right; now left|]. split; [discriminate | reflexivity].
Defined.

Lemma samplePackages_created_apart :
  forall a b, In a samplePackages -> In b samplePackages ->
              packageCreated a = packageCreated b -> a = b.
Proof.
  intros a b [<- | [<- | [<- | []]]] [<- | [<- | [<- | []]]] H;
    try reflexivity; discriminate H.
Qed.

Lemma ListPackages_descending_is_reverse_of_ascending_witness :
  fst (ListPackages sampleFormat sampleLastUpdated
         (samplePackageRepo samplePackages) noAuth noPackageFilterDescending)
  = rev (fst (ListPackages sampleFormat sampleLastUpdated
                (samplePackageRepo samplePackages) noAuth noPackageFilter)).
Proof.
  apply (ListPackages_descending_is_reverse_of_ascending
           sampleFormat sampleLastUpdated (samplePackageRepo samplePackages)
           noAuth noPackageFilter noPackageFilterDescending samplePackages
           eq_refl eq_refl eq_refl eq_refl eq_refl samplePackages_created_apart).
Defined.

Lemma ListPackages_independent_of_listing_order_witness :
  ListPackages sampleFormat sampleLastUpdated (samplePackageRepo samplePackages)
               noAuth readyPackagesOfA1
  = ListPackages sampleFormat sampleLastUpdated
                 (samplePackageRepo (rev samplePackages)) noAuth readyPackagesOfA1.
Proof.
  apply (ListPackages_independent_of_listing_order
           sampleFormat sampleLastUpdated
           (samplePackageRepo samplePackages) (samplePackageRepo (rev samplePackages))
           noAuth readyPackagesOfA1 samplePackages (rev samplePackages)
           eq_refl eq_refl (Permutation_rev samplePackages)
           samplePackages_created_apart).
Defined.

(** * Further properties of the client factory *)

Section ClientFactoryMore.

Variables RESTMapper WithWatch Block : Type.
Variable Scheme : Info -> string.
Variables BearerScheme CertScheme : string.
Variable ToLower : string -> string.
Variable pem_Decode : list Byte.byte -> option Block * list Byte.byte.
Variable pem_EncodeToMemory : Block -> list Byte.byte.
Variable NewWithWatch : Config -> RESTMapper -> WithWatch + error.
Variable FromK8sError : error -> string -> error.
Variable K8sInterface : Type.
Variable NewForConfig : Config -> K8sInterface + error.

Let configureCredentials :=
  configureCredentials Block Scheme BearerScheme CertScheme ToLower
                       pem_Decode pem_EncodeToMemory.
Let BuildClient :=
  BuildClient RESTMapper WithWatch Block Scheme BearerScheme CertScheme
              ToLower pem_Decode pem_EncodeToMemory NewWithWatch FromK8sError.
Let BuildK8sClient :=
  BuildK8sClient RESTMapper Block Scheme BearerScheme CertScheme
                 ToLower pem_Decode pem_EncodeToMemory FromK8sError
                 K8sInterface NewForConfig.

(** [BuildClient] in terms of the outcome of the [switch]. *)
Lemma BuildClient_configured f authInfo :
  BuildClient f authInfo
  = match configureCredentials (UnprivilegedClientFactory_config RESTMapper f)
                               authInfo with
    | inr err => ((None, Some err), [])
    | inl config =>
        match NewWithWatch config (UnprivilegedClientFactory_mapper RESTMapper f) with
        | inr err => ((None, Some (FromK8sError err "")), [Call_NewWithWatch config])
        | inl userClient => ((Some userClient, None), [Call_NewWithWatch config])
        end
    end.
Proof. reflexivity. Qed.

(** The configurations that the [switch] can produce from a base
    configuration. *)
Lemma configureCredentials_config base authInfo config :
  configureCredentials base authInfo = inl config ->
  Config_Host config = Config_Host base
  /\ ((Config_BearerToken config = Info_Token authInfo
       /\ Config_CertData config = Config_CertData base
       /\ Config_KeyData config = Config_KeyData base)
      \/ (Config_BearerToken config = Config_BearerToken base
          /\ exists certBlock keyBlock,
               fst (pem_Decode (Info_CertData authInfo)) = Some certBlock
               /\ fst (pem_Decode (snd (pem_Decode (Info_CertData authInfo))))
                  = Some keyBlock
               /\ Config_CertData config = pem_EncodeToMemory certBlock
               /\ Config_KeyData config = pem_EncodeToMemory keyBlock)).
Proof.
  unfold configureCredentials, repositories.configureCredentials.
  destruct (ToLower (Scheme authInfo) =? BearerScheme).
  - intros H. injection H as <-. simpl. split; [reflexivity|]. left. auto.
  - destruct (ToLower (Scheme authInfo) =? CertScheme); [|discriminate].
    destruct (pem_Decode (Info_CertData authInfo)) as [[certBlock|] rst] eqn:Ec;
      [|discriminate].
    destruct (pem_Decode rst) as [[keyBlock|] rst'] eqn:Ek; [|discriminate].
    intros H. injection H as <-. simpl. split; [reflexivity|]. right.
    split; [reflexivity|]. exists certBlock, keyBlock. simpl. rewrite Ek. auto.
Qed.

(** X16.  With the bearer scheme, [BuildClient] constructs one client,
    from the factory's configuration with the caller's token as bearer
    token, and decodes no certificate; it returns the client, or the
    error of the construction passed through [apierrors.FromK8sError]. *)
Theorem BuildClient_bearer_uses_the_callers_token :
  forall (f : UnprivilegedClientFactory RESTMapper) (authInfo : Info),
    ToLower (Scheme authInfo) = BearerScheme ->
    exists config,
      Config_BearerToken config = Info_Token authInfo
      /\ Config_Host config
         = Config_Host (UnprivilegedClientFactory_config RESTMapper f)
      /\ Config_CertData config
         = Config_CertData (UnprivilegedClientFactory_config RESTMapper f)
      /\ Config_KeyData config
         = Config_KeyData (UnprivilegedClientFactory_config RESTMapper f)
      /\ snd (BuildClient f authInfo) = [Call_NewWithWatch config]
      /\ fst (BuildClient f authInfo)
         = match NewWithWatch config (UnprivilegedClientFactory_mapper RESTMapper f)
           with
           | inl userClient => (Some userClient, None)
           | inr err => (None, Some (FromK8sError err ""))
           end.
Proof.
  intros f authInfo Hs.
  rewrite BuildClient_configured.
  unfold configureCredentials, repositories.configureCredentials.
  rewrite Hs, String.eqb_refl.
  set (config :=
         {| Config_Host :=
              Config_Host (UnprivilegedClientFactory_config RESTMapper f);
            Config_BearerToken := Info_Token authInfo;
            Config_CertData :=
              Config_CertData (UnprivilegedClientFactory_config RESTMapper f);
            Config_KeyData :=
              Config_KeyData (UnprivilegedClientFactory_config RESTMapper f) |}).
  exists config.
  destruct (NewWithWatch config (UnprivilegedClientFactory_mapper RESTMapper f));
    repeat split; reflexivity.
Qed.

(** X17.  [BuildClient] makes at most one call to the store; it returns
    either a client or an error, never both and never neither; and a
    client it returns is the one the construction call it made
    returned. *)
Theorem BuildClient_returns_client_or_error :
  forall (f : UnprivilegedClientFactory RESTMapper) (authInfo : Info),
    List.length (snd (BuildClient f authInfo)) <= 1
    /\ (fst (fst (BuildClient f authInfo)) = None
        <-> snd (fst (BuildClient f authInfo)) <> None)
    /\ (forall userClient,
           fst (fst (BuildClient f authInfo)) = Some userClient ->
           exists config,
             snd (BuildClient f authInfo) = [Call_NewWithWatch config]
             /\ NewWithWatch config (UnprivilegedClientFactory_mapper RESTMapper f)
                = inl userClient).
Proof.
  intros f authInfo. rewrite BuildClient_configured.
  destruct (configureCredentials _ authInfo) as [config | err]; simpl.
  - destruct (NewWithWatch config _) as [userClient | err] eqn:E; simpl.
    + split; [lia|]. split; [split; [discriminate | congruence]|].
      intros c H. injection H as <-. now exists config.
    + split; [lia|]. split; [split; [discriminate | reflexivity]|].
      discriminate.
  - split; [lia|]. split; [split; [discriminate | reflexivity]|]. discriminate.
Qed.

(** X18.  A factory made by [NewUnprivilegedClientFactory] constructs
    clients with the caller's credentials only, whatever credentials
    the configuration it was made from carries: the configuration of
    every client it constructs has the host of that configuration and
    either the caller's token and no certificate, or no token and the
    re-encoded certificate and key blocks decoded from the caller's
    data. *)
Theorem BuildClient_uses_no_credentials_of_the_base_configuration :
  forall (base : Config) (mapper : RESTMapper) (authInfo : Info) (config : Config),
    In (Call_NewWithWatch config)
       (snd (BuildClient (NewUnprivilegedClientFactory RESTMapper base mapper)
                         authInfo)) ->
    Config_Host config = Config_Host base
    /\ ((Config_BearerToken config = Info_Token authInfo
         /\ Config_CertData config = []
         /\ Config_KeyData config = [])
        \/ (Config_BearerToken config = ""
            /\ exists certBlock keyBlock,
                 fst (pem_Decode (Info_CertData authInfo)) = Some certBlock
                 /\ fst (pem_Decode (snd (pem_Decode (Info_CertData authInfo))))
                    = Some keyBlock
                 /\ Config_CertData config = pem_EncodeToMemory certBlock
                 /\ Config_KeyData config = pem_EncodeToMemory keyBlock)).
Proof.
  intros base mapper authInfo config.
  rewrite BuildClient_configured.
  cbn [NewUnprivilegedClientFactory UnprivilegedClientFactory_config
       UnprivilegedClientFactory_mapper].
  destruct (configureCredentials (AnonymousClientConfig (CopyConfig base)) authInfo)
    as [config' | err] eqn:E; simpl.
  - assert (Hin : In (Call_NewWithWatch config) [Call_NewWithWatch config'] ->
                  config = config').
    { intros [H | []]. now injection H. }
    intros H.
    assert (Hc : config = config').
    { apply Hin. destruct (NewWithWatch config' mapper); exact H. }
    subst config'.
    apply configureCredentials_config in E. exact E.
  - intros [].
Qed.

(** X19.  [BuildK8sClient] authenticates as [BuildClient] does: for the
    same factory and caller the two construct their clients from the
    same configuration, and when one returns before constructing a
    client so does the other, with the same error. *)
Theorem BuildK8sClient_configured_as_BuildClient :
  forall (f : UnprivilegedClientFactory RESTMapper) (authInfo : Info),
    map callConfig (snd (BuildClient f authInfo))
    = map k8sCallConfig (snd (BuildK8sClient f authInfo))
    /\ (snd (BuildClient f authInfo) = [] ->
        fst (BuildK8sClient f authInfo) = (None, snd (fst (BuildClient f authInfo)))
        /\ fst (fst (BuildClient f authInfo)) = None).
Proof.
  intros f authInfo. rewrite BuildClient_configured.
  unfold BuildK8sClient, repositories.BuildK8sClient, CopyConfig.
  fold configureCredentials.
  destruct (configureCredentials _ authInfo) as [config | err]; simpl.
  - destruct (NewWithWatch config _), (NewForConfig config); simpl;
      (split; [reflexivity | discriminate]).
  - split; [reflexivity|]. intros _. split; reflexivity.
Qed.

End ClientFactoryMore.

Lemma BuildClient_bearer_uses_the_callers_token_witness :
  exists config,
    Config_BearerToken config = "a-token"
    /\ snd (BuildClient unit Config (list Byte.byte) sampleScheme "bearer"
              "clientcert" sampleToLower samplePemDecode (fun b => b)
              sampleNewWithWatch sampleFromK8sError sampleFactory bearerInfo)
       = [Call_NewWithWatch config].
Proof.
  destruct (BuildClient_bearer_uses_the_callers_token
              unit Config (list Byte.byte) sampleScheme "bearer" "clientcert"
              sampleToLower samplePemDecode (fun b => b) sampleNewWithWatch
              sampleFromK8sError sampleFactory bearerInfo eq_refl)
    as [config [Htoken [_ [_ [_ [Hcalls _]]]]]].
  exists config. split; assumption.
Defined.

Lemma BuildClient_uses_no_credentials_of_the_base_configuration_witness :
  Config_BearerToken
    {| Config_Host := "https://store"; Config_BearerToken := "a-token";
       Config_CertData := []; Config_KeyData := [] |}
  <> Config_BearerToken privilegedConfig
  /\ Config_Host
       {| Config_Host := "https://store"; Config_BearerToken := "a-token";
          Config_CertData := []; Config_KeyData := [] |}
     = Config_Host privilegedConfig.
Proof.
  split; [discriminate|].
  apply (BuildClient_uses_no_credentials_of_the_base_configuration
           unit Config (list Byte.byte) sampleScheme "bearer" "clientcert"
           sampleToLower samplePemDecode (fun b => b) sampleNewWithWatch
           sampleFromK8sError privilegedConfig tt bearerInfo).
  now left.
Defined.

(** * The action that reads the logs of an application *)

Section ReadAppLogsProperties.

Variable ForbiddenAsNotFound : error -> error.

Let Invoke := actions.Invoke ForbiddenAsNotFound.

(** X20.  When the four repository calls succeed, [Invoke] returns the
    build logs followed by the runtime logs and no error.  It asks the
    repositories in the order app, latest build, build logs, runtime
    logs; the request for runtime logs names the space, the GUID and
    the revision of the app record and the limit of the payload, or 100
    when the payload has none. *)
Theorem Invoke_returns_build_logs_then_runtime_logs :
  forall (a : actions.ReadAppLogs) (authInfo : Info) (appGUID : string)
         (read : actions.LogRead) (app : actions.AppRecord)
         (build : actions.BuildRecord)
         (buildLogs runtimeLogs : list actions.LogRecord),
    actions.GetApp (actions.ReadAppLogs_appRepo a) authInfo appGUID = (app, None) ->
    actions.GetLatestBuildByAppGUID (actions.ReadAppLogs_buildRepo a) authInfo
      (actions.AppRecord_SpaceGUID app) appGUID = (build, None) ->
    actions.GetBuildLogs (actions.ReadAppLogs_buildRepo a) authInfo
      (actions.AppRecord_SpaceGUID app) (actions.BuildRecord_GUID build)
    = (buildLogs, None) ->
    actions.GetRuntimeLogsForApp (actions.ReadAppLogs_podRepo a) authInfo
      {| actions.RuntimeLogsMessage_SpaceGUID := actions.AppRecord_SpaceGUID app;
         actions.RuntimeLogsMessage_AppGUID := actions.AppRecord_GUID app;
         actions.RuntimeLogsMessage_AppRevision := actions.AppRecord_Revision app;
         actions.RuntimeLogsMessage_Limit := logLimitOf read |}
    = (runtimeLogs, None) ->
    Invoke a authInfo appGUID read
    = ((buildLogs ++ runtimeLogs, None),
       [actions.Called_GetApp authInfo appGUID;
        actions.Called_GetLatestBuildByAppGUID authInfo
          (actions.AppRecord_SpaceGUID app) appGUID;
        actions.Called_GetBuildLogs authInfo
          (actions.AppRecord_SpaceGUID app) (actions.BuildRecord_GUID build);
        actions.Called_GetRuntimeLogsForApp authInfo
          {| actions.RuntimeLogsMessage_SpaceGUID := actions.AppRecord_SpaceGUID app;
             actions.RuntimeLogsMessage_AppGUID := actions.AppRecord_GUID app;
             actions.RuntimeLogsMessage_AppRevision := actions.AppRecord_Revision app;
             actions.RuntimeLogsMessage_Limit := logLimitOf read |}])
    /\ (actions.LogRead_Limit read = None -> logLimitOf read = 100%Z)
    /\ (forall limit, actions.LogRead_Limit read = Some limit ->
                      logLimitOf read = limit).
Proof.
  intros a authInfo appGUID read app build buildLogs runtimeLogs Ha Hb Hl Hr.
  split; [|split].
  - unfold Invoke, actions.Invoke. rewrite Ha, Hb, Hl.
    fold (logLimitOf read). rewrite Hr. reflexivity.
  - intros H. unfold logLimitOf. now rewrite H.
  - intros limit H. unfold logLimitOf. now rewrite H.
Qed.

(** X21.  When the app, or after it the latest build, cannot be fetched,
    [Invoke] returns no log record and the repository's error passed
    through [apierrors.ForbiddenAsNotFound], and it requests no logs,
    neither of a build nor of the running application. *)
Theorem Invoke_lookup_failure_is_forbidden_as_not_found :
  forall (a : actions.ReadAppLogs) (authInfo : Info) (appGUID : string)
         (read : actions.LogRead) (err : error),
    snd (actions.GetApp (actions.ReadAppLogs_appRepo a) authInfo appGUID) = Some err
    \/ (snd (actions.GetApp (actions.ReadAppLogs_appRepo a) authInfo appGUID) = None
        /\ snd (actions.GetLatestBuildByAppGUID (actions.ReadAppLogs_buildRepo a)
                  authInfo
                  (actions.AppRecord_SpaceGUID
                     (fst (actions.GetApp (actions.ReadAppLogs_appRepo a)
                                          authInfo appGUID)))
                  appGUID)
           = Some err) ->
    fst (Invoke a authInfo appGUID read) = ([], Some (ForbiddenAsNotFound err))
    /\ existsb isLogFetch (snd (Invoke a authInfo appGUID read)) = false.
Proof.
  intros a authInfo appGUID read err H.
  unfold Invoke, actions.Invoke.
  destruct (actions.GetApp (actions.ReadAppLogs_appRepo a) authInfo appGUID)
    as [app [e|]]; simpl in H.
  - destruct H as [H | [H _]]; [|discriminate].
    injection H as ->. split; reflexivity.
  - destruct H as [H | [_ H]]; [discriminate|].
    destruct (actions.GetLatestBuildByAppGUID _ authInfo _ appGUID) as [build [e|]];
      simpl in H; [|discriminate].
    injection H as ->. split; reflexivity.
Qed.

(** X22.  When the app and its latest build are fetched and the build
    logs, or after them the runtime logs, cannot be, [Invoke] returns
    no log record and the repository's error as it is, not passed
    through [apierrors.ForbiddenAsNotFound]. *)
Theorem Invoke_returns_log_failure_unchanged :
  forall (a : actions.ReadAppLogs) (authInfo : Info) (appGUID : string)
         (read : actions.LogRead) (app : actions.AppRecord)
         (build : actions.BuildRecord) (err : error),
    actions.GetApp (actions.ReadAppLogs_appRepo a) authInfo appGUID = (app, None) ->
    actions.GetLatestBuildByAppGUID (actions.ReadAppLogs_buildRepo a) authInfo
      (actions.AppRecord_SpaceGUID app) appGUID = (build, None) ->
    snd (actions.GetBuildLogs (actions.ReadAppLogs_buildRepo a) authInfo
           (actions.AppRecord_SpaceGUID app) (actions.BuildRecord_GUID build))
    = Some err
    \/ (snd (actions.GetBuildLogs (actions.ReadAppLogs_buildRepo a) authInfo
               (actions.AppRecord_SpaceGUID app) (actions.BuildRecord_GUID build))
        = None
        /\ snd (actions.GetRuntimeLogsForApp (actions.ReadAppLogs_podRepo a) authInfo
                  {| actions.RuntimeLogsMessage_SpaceGUID :=
                       actions.AppRecord_SpaceGUID app;
                     actions.RuntimeLogsMessage_AppGUID := actions.AppRecord_GUID app;
                     actions.RuntimeLogsMessage_AppRevision :=
                       actions.AppRecord_Revision app;
                     actions.RuntimeLogsMessage_Limit := logLimitOf read |})
           = Some err) ->
    fst (Invoke a authInfo appGUID read) = ([], Some err).
Proof.
  intros a authInfo appGUID read app build err Ha Hb H.
  unfold Invoke, actions.Invoke. rewrite Ha, Hb.
  fold (logLimitOf read).
  destruct (actions.GetBuildLogs _ authInfo _ _) as [buildLogs [e|]]; simpl in H.
  - destruct H as [H | [H _]]; [|discriminate]. now injection H as ->.
  - destruct H as [H | [_ H]]; [discriminate|].
    destruct (actions.GetRuntimeLogsForApp _ authInfo _) as [runtimeLogs [e|]];
      simpl in H; [|discriminate].
    now injection H as ->.
Qed.

(** X23.  Whatever the repositories answer, [Invoke] first asks for the
    app with the caller's identity and the requested GUID, makes at
    most four repository calls, logs exactly one error line when it
    returns an error and none when it does not, and returns no log
    record together with an error. *)
Theorem Invoke_logs_once_iff_it_fails :
  forall (a : actions.ReadAppLogs) (authInfo : Info) (appGUID : string)
         (read : actions.LogRead),
    (exists rest,
        snd (Invoke a authInfo appGUID read)
        = actions.Called_GetApp authInfo appGUID :: rest)
    /\ List.length (filter actions.isRepositoryCall
                           (snd (Invoke a authInfo appGUID read))) <= 4
    /\ List.length (filter isLogged (snd (Invoke a authInfo appGUID read)))
       = match snd (fst (Invoke a authInfo appGUID read)) with
         | Some _ => 1
         | None => 0
         end
    /\ (snd (fst (Invoke a authInfo appGUID read)) <> None ->
        fst (fst (Invoke a authInfo appGUID read)) = []).
Proof.
  intros a authInfo appGUID read.
  unfold Invoke, actions.Invoke.
  destruct (actions.GetApp _ authInfo appGUID) as [app [e|]].
  - simpl. split; [eexists; reflexivity|]. repeat split; lia.
  - destruct (actions.GetLatestBuildByAppGUID _ authInfo _ appGUID) as [build [e|]].
    + simpl. split; [eexists; reflexivity|]. repeat split; lia.
    + destruct (actions.GetBuildLogs _ authInfo _ _) as [buildLogs [e|]].
      * simpl. split; [eexists; reflexivity|]. repeat split; lia.
      * destruct (actions.GetRuntimeLogsForApp _ authInfo _) as [runtimeLogs [e|]].
        -- simpl. split; [eexists; reflexivity|]. repeat split; lia.
        -- simpl. split; [eexists; reflexivity|].
           split; [lia|]. split; [reflexivity|]. intros H. now contradiction H.
Qed.

End ReadAppLogsProperties.

Lemma Invoke_returns_build_logs_then_runtime_logs_witness :
  fst (actions.Invoke sampleForbiddenAsNotFound
         (sampleReadAppLogs None None None None) bearerInfo "test-app-guid"
         (sampleLogRead None))
  = (sampleBuildLogs ++ sampleAppLogs, None).
Proof.
  destruct (Invoke_returns_build_logs_then_runtime_logs
              sampleForbiddenAsNotFound
              (sampleReadAppLogs None None None None) bearerInfo "test-app-guid"
              (sampleLogRead None) sampleApp sampleBuild
              sampleBuildLogs sampleAppLogs eq_refl eq_refl eq_refl eq_refl)
    as [H _].
  now rewrite H.
Defined.

Lemma Invoke_lookup_failure_is_forbidden_as_not_found_witness :
  fst (actions.Invoke sampleForbiddenAsNotFound
         (sampleReadAppLogs (Some (errorString "blah")) None None None)
         bearerInfo "test-app-guid" (sampleLogRead None))
  = ([], Some (sampleForbiddenAsNotFound (errorString "blah")))
  /\ existsb isLogFetch
       (snd (actions.Invoke sampleForbiddenAsNotFound
               (sampleReadAppLogs (Some (errorString "blah")) None None None)
               bearerInfo "test-app-guid" (sampleLogRead None)))
     = false.
Proof.
  apply (Invoke_lookup_failure_is_forbidden_as_not_found
           sampleForbiddenAsNotFound
           (sampleReadAppLogs (Some (errorString "blah")) None None None)
           bearerInfo "test-app-guid" (sampleLogRead None) (errorString "blah")).
  left. reflexivity.
Defined.

Lemma Invoke_returns_log_failure_unchanged_witness :
  fst (actions.Invoke (fun err => NotAuthenticatedError err)
         (sampleReadAppLogs None None None (Some (errorString "blah")))
         bearerInfo "test-app-guid" (sampleLogRead (Some 5%Z)))
  = ([], Some (errorString "blah")).
Proof.
  apply (Invoke_returns_log_failure_unchanged
           (fun err => NotAuthenticatedError err)
           (sampleReadAppLogs None None None (Some (errorString "blah")))
           bearerInfo "test-app-guid" (sampleLogRead (Some 5%Z))
           sampleApp sampleBuild (errorString "blah") eq_refl eq_refl).
  right. split; reflexivity.
Defined.

(** * The space manifest handler *)

Lemma lookup_Header_Set (w : apis.ResponseWriter) (key value : string) :
  apis.lookup (apis.ResponseWriter_Header (apis.Header_Set w key value)) key = value.
Proof. simpl. now rewrite String.eqb_refl. Qed.

Section SpaceManifestHandlerProperties.

Variables Manifest ClientT ErrorResponse : Type.
Variable yaml_Decode : string -> Manifest + error.
Variable validatePayload :
  Manifest -> option (apis.requestMalformedError ErrorResponse).
Variable newMessageParseError : ErrorResponse.
Variable parseFailureText : error -> string.
Variable writeRequestMalformedErrorResponse :
  apis.ResponseWriter -> apis.requestMalformedError ErrorResponse ->
  apis.ResponseWriter.
Variable writeUnknownErrorResponse : apis.ResponseWriter -> apis.ResponseWriter.
Variable writeNotFoundErrorResponse :
  apis.ResponseWriter -> string -> apis.ResponseWriter.

Let Handler := apis.SpaceManifestHandler Manifest ClientT.
Let Event := apis.Event Manifest ClientT.
Let applyManifestHandler :=
  apis.applyManifestHandler Manifest ClientT ErrorResponse yaml_Decode
    validatePayload newMessageParseError parseFailureText
    writeRequestMalformedErrorResponse writeUnknownErrorResponse.
Let diffManifestHandler := apis.diffManifestHandler Manifest ClientT.
Let validateSpaceVisible :=
  apis.validateSpaceVisible Manifest ClientT
    writeUnknownErrorResponse writeNotFoundErrorResponse.

(** X24.  When the body decodes to a manifest that validates, the client
    is built and the action succeeds, [applyManifestHandler] answers on
    a fresh writer with the status 202 and a [Location] header that is
    the server URL followed by the path of the job named after the
    space; it writes no body. *)
Theorem applyManifestHandler_accepts_with_job_location :
  forall (h : Handler) (w : apis.ResponseWriter) (r : apis.Request)
         (manifest : Manifest) (client : ClientT),
    yaml_Decode (apis.Request_Body r) = inl manifest ->
    validatePayload manifest = None ->
    apis.SpaceManifestHandler_buildClient _ _ h
      (apis.SpaceManifestHandler_k8sConfig _ _ h)
      (apis.lookup (apis.Request_Header r) "Authorization")
    = (client, None) ->
    apis.SpaceManifestHandler_applyManifestAction _ _ h client
      (apis.lookup (apis.Request_Vars r) "spaceGUID") manifest
    = None ->
    apis.ResponseWriter_Status w = None ->
    apis.ResponseWriter_Status (fst (applyManifestHandler h w r))
    = Some apis.StatusAccepted
    /\ apis.lookup (apis.ResponseWriter_Header (fst (applyManifestHandler h w r)))
                   "Location"
       = (apis.SpaceManifestHandler_serverURL _ _ h
          ++ "/v3/jobs/sync-space.apply_manifest-"
          ++ apis.lookup (apis.Request_Vars r) "spaceGUID")%string
    /\ apis.ResponseWriter_Body (fst (applyManifestHandler h w r))
       = apis.ResponseWriter_Body w.
Proof.
  intros h w r manifest client Hdecode Hvalid Hclient Haction Hstatus.
  unfold applyManifestHandler, apis.applyManifestHandler,
    apis.decodeAndValidateYAMLPayload.
  rewrite Hdecode, Hvalid, Hclient, Haction.
  cbn [fst]. split; [|split].
  - simpl. now rewrite Hstatus.
  - cbn [apis.WriteHeader apis.ResponseWriter_Header]. apply lookup_Header_Set.
  - reflexivity.
Qed.

(** X25.  [applyManifestHandler] applies a manifest at most once, and
    only the manifest that the body decodes to, once it validates and a
    client is built from the handler's configuration and the
    [Authorization] header of the request; the action is given that
    client and the space of the route. *)
Theorem applyManifestHandler_applies_only_a_valid_manifest :
  forall (h : Handler) (w : apis.ResponseWriter) (r : apis.Request)
         (client : ClientT) (spaceGUID : string) (manifest : Manifest),
    In (apis.Called_applyManifestAction Manifest ClientT client spaceGUID manifest)
       (snd (applyManifestHandler h w r)) ->
    yaml_Decode (apis.Request_Body r) = inl manifest
    /\ validatePayload manifest = None
    /\ apis.SpaceManifestHandler_buildClient _ _ h
         (apis.SpaceManifestHandler_k8sConfig _ _ h)
         (apis.lookup (apis.Request_Header r) "Authorization")
       = (client, None)
    /\ spaceGUID = apis.lookup (apis.Request_Vars r) "spaceGUID"
    /\ List.length (filter isApplyManifest (snd (applyManifestHandler h w r))) = 1.
Proof.
  intros h w r client spaceGUID manifest.
  unfold applyManifestHandler, apis.applyManifestHandler,
    apis.decodeAndValidateYAMLPayload.
  destruct (yaml_Decode (apis.Request_Body r)) as [object | err].
  - destruct (validatePayload object) as [rme|] eqn:Ev.
    + simpl. intros [].
    + destruct (apis.SpaceManifestHandler_buildClient _ _ h _ _) as [c [e|]] eqn:Eb.
      * simpl. intros [H | [H | []]]; discriminate.
      * destruct (apis.SpaceManifestHandler_applyManifestAction _ _ h c _ object);
          simpl;
          intros H;
          repeat (destruct H as [H | H]; try discriminate; try contradiction);
          injection H as <- <- <-; auto.
  - simpl. intros [H | []]. discriminate.
Qed.

(** X26.  When the spaces cannot be fetched, or are fetched and none has
    the GUID of the route, [validateSpaceVisible] does not run the
    handler it wraps: its answer is the same whatever that handler is.
    In the second case the answer is the not-found response for
    "Space", written on the writer with the JSON content type set. *)
Theorem validateSpaceVisible_hides_unlisted_space :
  forall (h : Handler)
         (hf hf' : apis.ResponseWriter -> apis.Request ->
                   apis.ResponseWriter * list Event)
         (w : apis.ResponseWriter) (r : apis.Request),
    snd (apis.SpaceManifestHandler_FetchSpaces _ _ h [] []) <> None
    \/ apis.spaceNotFound
         (fst (apis.SpaceManifestHandler_FetchSpaces _ _ h [] []))
         (apis.lookup (apis.Request_Vars r) "spaceGUID")
       = true ->
    validateSpaceVisible h hf w r = validateSpaceVisible h hf' w r
    /\ existsb isServeHTTP (snd (validateSpaceVisible h hf w r)) = false
    /\ (snd (apis.SpaceManifestHandler_FetchSpaces _ _ h [] []) = None ->
        fst (validateSpaceVisible h hf w r)
        = writeNotFoundErrorResponse
            (apis.Header_Set w "Content-Type" "application/json") "Space").
Proof.
  intros h hf hf' w r H.
  unfold validateSpaceVisible, apis.validateSpaceVisible.
  destruct (apis.SpaceManifestHandler_FetchSpaces _ _ h [] []) as [spaces [e|]];
    simpl in H.
  - split; [reflexivity|]. split; [reflexivity | discriminate].
  - destruct H as [H | H]; [congruence|].
    rewrite H. split; [reflexivity|]. split; reflexivity.
Qed.

(** X27.  When the spaces are fetched and one has the GUID of the
    route, [validateSpaceVisible] runs the handler it wraps, once, on
    the writer with the JSON content type set, and answers what that
    handler answers. *)
Theorem validateSpaceVisible_serves_listed_space :
  forall (h : Handler)
         (hf : apis.ResponseWriter -> apis.Request ->
               apis.ResponseWriter * list Event)
         (w : apis.ResponseWriter) (r : apis.Request)
         (spaces : list apis.SpaceRecord),
    apis.SpaceManifestHandler_FetchSpaces _ _ h [] [] = (spaces, None) ->
    (exists space,
        In space spaces
        /\ apis.SpaceRecord_GUID space
           = apis.lookup (apis.Request_Vars r) "spaceGUID") ->
    validateSpaceVisible h hf w r
    = (fst (hf (apis.Header_Set w "Content-Type" "application/json") r),
       [apis.Called_FetchSpaces Manifest ClientT;
        apis.Called_ServeHTTP Manifest ClientT]
       ++ snd (hf (apis.Header_Set w "Content-Type" "application/json") r)).
Proof.
  intros h hf w r spaces Hfetch [space [Hin Hguid]].
  unfold validateSpaceVisible, apis.validateSpaceVisible.
  rewrite Hfetch.
  assert (Hfound : apis.spaceNotFound spaces
                     (apis.lookup (apis.Request_Vars r) "spaceGUID") = false).
  { unfold apis.spaceNotFound. apply negb_false_iff, existsb_exists.
    exists space. split; [exact Hin | now apply String.eqb_eq]. }
  rewrite Hfound.
  now destruct (hf (apis.Header_Set w "Content-Type" "application/json") r).
Qed.

(** X28.  The manifest diff of a space that is listed answers, on a
    fresh writer, with the status 202, the JSON content type and the
    body of an empty diff. *)
Theorem diffManifestHandler_answers_empty_diff_for_listed_space :
  forall (h : Handler) (w : apis.ResponseWriter) (r : apis.Request)
         (spaces : list apis.SpaceRecord),
    apis.SpaceManifestHandler_FetchSpaces _ _ h [] [] = (spaces, None) ->
    (exists space,
        In space spaces
        /\ apis.SpaceRecord_GUID space
           = apis.lookup (apis.Request_Vars r) "spaceGUID") ->
    apis.ResponseWriter_Status w = None ->
    apis.ResponseWriter_Status
      (fst (validateSpaceVisible h (diffManifestHandler h) w r))
    = Some apis.StatusAccepted
    /\ apis.lookup
         (apis.ResponseWriter_Header
            (fst (validateSpaceVisible h (diffManifestHandler h) w r)))
         "Content-Type"
       = "application/json"
    /\ apis.ResponseWriter_Body
         (fst (validateSpaceVisible h (diffManifestHandler h) w r))
       = apis.ResponseWriter_Body w ++ [apis.emptyDiff].
Proof.
  intros h w r spaces Hfetch [space [Hin Hguid]] Hstatus.
  unfold validateSpaceVisible, apis.validateSpaceVisible.
  rewrite Hfetch.
  assert (Hfound : apis.spaceNotFound spaces
                     (apis.lookup (apis.Request_Vars r) "spaceGUID") = false).
  { unfold apis.spaceNotFound. apply negb_false_iff, existsb_exists.
    exists space. split; [exact Hin | now apply String.eqb_eq]. }
  rewrite Hfound.
  unfold diffManifestHandler, apis.diffManifestHandler. cbn [fst].
  split; [|split].
  - simpl. now rewrite Hstatus.
  - cbn [apis.Write apis.WriteHeader apis.ResponseWriter_Header].
    apply lookup_Header_Set.
  - reflexivity.
Qed.

End SpaceManifestHandlerProperties.

Lemma applyManifestHandler_accepts_with_job_location_witness :
  apis.ResponseWriter_Status
    (fst (sampleApplyManifestHandler (sampleHandler None [sampleSpace])
            apis.emptyResponse (sampleRequest "applications: []")))
  = Some apis.StatusAccepted
  /\ apis.lookup
       (apis.ResponseWriter_Header
          (fst (sampleApplyManifestHandler (sampleHandler None [sampleSpace])
                  apis.emptyResponse (sampleRequest "applications: []"))))
       "Location"
     = "https://api.example.org/v3/jobs/sync-space.apply_manifest-space-1"
  /\ apis.ResponseWriter_Body
       (fst (sampleApplyManifestHandler (sampleHandler None [sampleSpace])
               apis.emptyResponse (sampleRequest "applications: []")))
     = [].
Proof.
  apply (applyManifestHandler_accepts_with_job_location
           string unit string sampleYamlDecode sampleValidatePayload "parse error"
           (fun _ => "Unable to parse the YAML body")
           (fun w rme =>
              apis.WriteHeader w (apis.requestMalformedError_httpStatus string rme))
           (sampleWriteError 500)
           (sampleHandler None [sampleSpace]) apis.emptyResponse
           (sampleRequest "applications: []") "applications: []" tt);
    reflexivity.
Defined.

Lemma applyManifestHandler_applies_only_a_valid_manifest_witness :
  sampleYamlDecode (apis.Request_Body (sampleRequest "applications: []"))
  = inl "applications: []"
  /\ sampleValidatePayload "applications: []" = None
  /\ apis.SpaceManifestHandler_buildClient _ _ (sampleHandler None [sampleSpace])
       (apis.SpaceManifestHandler_k8sConfig _ _ (sampleHandler None [sampleSpace]))
       (apis.lookup (apis.Request_Header (sampleRequest "applications: []"))
                    "Authorization")
     = (tt, None)
  /\ "space-1" = apis.lookup (apis.Request_Vars (sampleRequest "applications: []"))
                             "spaceGUID"
  /\ List.length
       (filter isApplyManifest
               (snd (sampleApplyManifestHandler (sampleHandler None [sampleSpace])
                       apis.emptyResponse (sampleRequest "applications: []"))))
     = 1.
Proof.
  apply (applyManifestHandler_applies_only_a_valid_manifest
           string unit string sampleYamlDecode sampleValidatePayload "parse error"
           (fun _ => "Unable to parse the YAML body")
           (fun w rme =>
              apis.WriteHeader w (apis.requestMalformedError_httpStatus string rme))
           (sampleWriteError 500)
           (sampleHandler None [sampleSpace]) apis.emptyResponse
           (sampleRequest "applications: []") tt "space-1" "applications: []").
  right. now left.
Defined.

Lemma validateSpaceVisible_hides_unlisted_space_witness :
  fst (sampleValidateSpaceVisible (sampleHandler None [])
         (apis.diffManifestHandler string unit (sampleHandler None []))
         apis.emptyResponse (sampleRequest ""))
  = sampleWriteError 404
      (apis.Header_Set apis.emptyResponse "Content-Type" "application/json").
Proof.
  destruct (validateSpaceVisible_hides_unlisted_space
              string unit (sampleWriteError 500) (fun w _ => sampleWriteError 404 w)
              (sampleHandler None [])
              (apis.diffManifestHandler string unit (sampleHandler None []))
              (apis.diffManifestHandler string unit (sampleHandler None []))
              apis.emptyResponse (sampleRequest "")
              (or_intror eq_refl)) as [_ [_ H]].
  exact (H eq_refl).
Defined.

Lemma validateSpaceVisible_serves_listed_space_witness :
  sampleValidateSpaceVisible (sampleHandler None [sampleSpace])
    (apis.diffManifestHandler string unit (sampleHandler None [sampleSpace]))
    apis.emptyResponse (sampleRequest "")
  = (fst (apis.diffManifestHandler string unit (sampleHandler None [sampleSpace])
            (apis.Header_Set apis.emptyResponse "Content-Type" "application/json")
            (sampleRequest "")),
     [apis.Called_FetchSpaces string unit; apis.Called_ServeHTTP string unit]
     ++ snd (apis.diffManifestHandler string unit (sampleHandler None [sampleSpace])
               (apis.Header_Set apis.emptyResponse "Content-Type" "application/json")
               (sampleRequest ""))).
Proof.
  apply (validateSpaceVisible_serves_listed_space
           string unit (sampleWriteError 500) (fun w _ => sampleWriteError 404 w)
           (sampleHandler None [sampleSpace])
           (apis.diffManifestHandler string unit (sampleHandler None [sampleSpace]))
           apis.emptyResponse (sampleRequest "") [sampleSpace] eq_refl).
  exists sampleSpace. split; [now left | reflexivity].
Defined.

Lemma diffManifestHandler_answers_empty_diff_for_listed_space_witness :
  apis.ResponseWriter_Status
    (fst (sampleValidateSpaceVisible (sampleHandler None [sampleSpace])
            (apis.diffManifestHandler string unit (sampleHandler None [sampleSpace]))
            apis.emptyResponse (sampleRequest "")))
  = Some apis.StatusAccepted
  /\ apis.lookup
       (apis.ResponseWriter_Header
          (fst (sampleValidateSpaceVisible (sampleHandler None [sampleSpace])
                  (apis.diffManifestHandler string unit
                     (sampleHandler None [sampleSpace]))
                  apis.emptyResponse (sampleRequest ""))))
       "Content-Type"
     = "application/json"
  /\ apis.ResponseWriter_Body
       (fst (sampleValidateSpaceVisible (sampleHandler None [sampleSpace])
               (apis.diffManifestHandler string unit
                  (sampleHandler None [sampleSpace]))
               apis.emptyResponse (sampleRequest "")))
     = [apis.emptyDiff].
Proof.
  apply (diffManifestHandler_answers_empty_diff_for_listed_space
           string unit (sampleWriteError 500) (fun w _ => sampleWriteError 404 w)
           (sampleHandler None [sampleSpace]) apis.emptyResponse
           (sampleRequest "") [sampleSpace] eq_refl).
  - exists sampleSpace. split; [now left | reflexivity].
  - reflexivity.
Defined.
